(** * Restaurant Duty PWA: session store, PIN security, submission endpoint

    A shallow embedding of the TypeScript sources of the checklist
    application, and the properties of its natural-language specification
    stated against that embedding.

    Conventions of the embedding.
    - A JavaScript [number] holding a count, a percentage or a duration is an
      integer of [Z]; the one place where the code divides (the completion
      percentage) goes through IEEE binary64 ([PrimFloat]), as the engine does.
    - An ISO-8601 timestamp string is the [Z] number of milliseconds it
      denotes: [new Date(ms).toISOString()] and [new Date(iso).getTime()] are
      inverse on such strings, and the code uses timestamps in no other way.
    - A [Record<string, T>] and a Dexie table are [gmap string T].
    - Asynchronous functions are sequential state transformers over a
      [World]; an exception is an outcome, and [try]/[catch] is a combinator.
      Dexie reads and writes are taken to succeed (the store is assumed
      correct); the exceptions that the code itself raises are modelled. *)

From Stdlib Require Import ZArith Floats String List Lia Bool.
From stdpp Require Import gmap strings list fin_maps pretty.

Local Open Scope string_scope.
Local Open Scope Z_scope.

(* ===================================================================== *)
(** ** JavaScript numbers *)
(* ===================================================================== *)

Module JsNumber.

(** The binary64 value of an integer ([exact below 2^53]). *)
Definition of_Z (z : Z) : float :=
  if z <? 0
  then PrimFloat.opp (PrimFloat.of_uint63 (Uint63.of_Z (- z)))
  else PrimFloat.of_uint63 (Uint63.of_Z z).

(** [Math.round]: the integer nearest to [x], a tie going towards
    [+Infinity]; computed exactly from the mantissa and exponent of [x].
    (On [NaN] and the infinities the engine returns its argument; the model
    returns 0 there, a case that no caller below reaches.) *)
Definition Math_round (x : float) : Z :=
  match Prim2SF x with
  | S754_finite s m e =>
      let z := if s then Z.neg m else Z.pos m in
      if 0 <=? e then z * 2 ^ e
      else (2 * z + 2 ^ (- e)) / 2 ^ (1 - e)
  | _ => 0
  end.

(** [Math.ceil (n / d)] for integers [n] and [d > 0] whose quotient is
    exactly representable or far enough from an integer (true for
    millisecond differences divided by 1000). *)
Definition ceil_div (n d : Z) : Z := - ((- n) / d).

(** [Math.pow (b, n)] for a non-negative integer exponent. *)
Fixpoint Math_pow (b : Z) (n : nat) : Z :=
  match n with
  | O => 1
  | S k => b * Math_pow b k
  end.

End JsNumber.
Import JsNumber.

(* ===================================================================== *)
(** ** Data model (types/staff.ts, types/checklist.ts, types/templates.ts) *)
(* ===================================================================== *)

Definition Timestamp := Z.

Inductive StaffRole := staff_role | manager_role.

Inductive TemplateId := pass_opening | floor_opening | closing.

Inductive ChecklistStatus :=
  in_progress | pending_review | approved | synced | sync_failed.

Inductive TaskCompletionStatus := done | not_done | na.

#[global] Instance StaffRole_eq_dec : EqDecision StaffRole.
Proof. solve_decision. Defined.
#[global] Instance TemplateId_eq_dec : EqDecision TemplateId.
Proof. solve_decision. Defined.
#[global] Instance ChecklistStatus_eq_dec : EqDecision ChecklistStatus.
Proof. solve_decision. Defined.
#[global] Instance TaskCompletionStatus_eq_dec : EqDecision TaskCompletionStatus.
Proof. solve_decision. Defined.

(** [StaffReference]: the snapshot of a staff member kept in records. *)
Record StaffReference := {
  ref_id : string;
  ref_name : string;
  ref_role : StaffRole;
}.

(** [TaskCompletion]; an optional property is an [option]. *)
Record TaskCompletion := {
  tc_taskId : string;
  tc_status : TaskCompletionStatus;
  tc_completedAt : option Timestamp;
  tc_note : option string;
  tc_inputValue : option float;
  tc_completedBy : option StaffReference;
}.

Record ForceClose := {
  fc_manager : StaffReference;
  fc_reason : string;
  fc_closedAt : Timestamp;
}.

(** [ChecklistInstance], as stored in the [checklists] table. The type
    declares [startedBy], and the session store writes it; the record that
    the checklist page (app/checklist/[templateId]/page.tsx) puts into the
    same table names the person [staff] and has no [startedBy], so a record
    read back may lack it. No function below reads [staff]. *)
Record ChecklistInstance := {
  cl_id : string;
  templateId : TemplateId;
  templateName : string;
  status : ChecklistStatus;
  startedBy : option StaffReference;
  manager : option StaffReference;
  contributors : option (list StaffReference);
  deviceId : string;
  tasks : gmap string TaskCompletion;
  completionPercentage : Z;
  doneCount : Z;
  notDoneCount : Z;
  naCount : Z;
  totalTasks : Z;
  startedAt : Timestamp;
  lastModifiedAt : Timestamp;
  submittedAt : option Timestamp;
  approvedAt : option Timestamp;
  syncedAt : option Timestamp;
  shiftNotes : option string;
  forceClosedBy : option ForceClose;
}.

(** [ActiveSession]: the lightweight view returned by the conflict check. *)
Record ActiveSession := {
  as_checklistId : string;
  as_templateId : TemplateId;
  as_templateName : string;
  as_staffName : string;
  as_deviceId : string;
  as_startedAt : Timestamp;
  as_lastActivityAt : Timestamp;
  as_completionPercentage : Z;
  as_isOwnDevice : bool;
}.

(* ===================================================================== *)
(** ** calculateCompletionStats (types/checklist.ts) *)
(* ===================================================================== *)

Record CompletionStats := {
  stats_doneCount : Z;
  stats_notDoneCount : Z;
  stats_naCount : Z;
  stats_completionPercentage : Z;
}.

(** [Object.values]: the order of enumeration is immaterial to every use
    below (a tally). *)
Definition Object_values {A} (o : gmap string A) : list A :=
  (map_to_list o).*2.

(** One round of the [forEach] body: the [switch] on the task status. *)
Definition tally (acc : Z * Z * Z) (task : TaskCompletion) : Z * Z * Z :=
  let '(d, n, a) := acc in
  match tc_status task with
  | done => (d + 1, n, a)
  | not_done => (d, n + 1, a)
  | na => (d, n, a + 1)
  end.

Definition calculateCompletionStats
    (tasks : gmap string TaskCompletion) (totalTasks : Z) : CompletionStats :=
  let '(doneCount, notDoneCount, naCount) :=
    foldl tally (0, 0, 0) (Object_values tasks) in
  let applicableTasks := totalTasks - naCount in
  let completionPercentage :=
    if 0 <? applicableTasks
    then Math_round ((of_Z doneCount / of_Z applicableTasks) * 100)%float
    else 100 in
  {| stats_doneCount := doneCount;
     stats_notDoneCount := notDoneCount;
     stats_naCount := naCount;
     stats_completionPercentage := completionPercentage |}.

(** [round (100 * d / a)] over the rationals, halves rounded up: the
    integer part of [100 * d / a + 1/2]. *)
Definition exact_percentage (d a : Z) : Z := (200 * d + a) / (2 * a).

(** The percentage in the words of the specification:
    [round(doneCount / (totalTasks - naCount) * 100)] when
    [totalTasks > naCount], else [100]; the quotient is the exact one. *)
Definition spec_completionPercentage (doneCount totalTasks naCount : Z) : Z :=
  if naCount <? totalTasks
  then exact_percentage doneCount (totalTasks - naCount)
  else 100.

(* ===================================================================== *)
(** ** Duty templates (lib/constants/templates.ts) *)
(* ===================================================================== *)

(** Of a task and a section the session logic reads the identifier only;
    titles, details, areas and priorities are display data and are left
    out. The [order] of each task is kept as written. *)
Record DutyTask := { task_id : string; task_order : Z }.

Record TemplateSection := {
  sec_id : string;
  sec_order : Z;
  sec_tasks : list DutyTask;
}.

Record DutyTemplate := {
  tpl_id : TemplateId;
  tpl_name : string;
  tpl_estimatedMinutes : Z;
  tpl_totalTasks : Z;
  tpl_sections : list TemplateSection;
}.

Local Abbreviation T := Build_DutyTask.

Definition PASS_OPENING_TEMPLATE : DutyTemplate := {|
  tpl_id := pass_opening;
  tpl_name := "Pass Opening Checklist";
  tpl_estimatedMinutes := 45;
  tpl_totalTasks := 32;
  tpl_sections := [
    {| sec_id := "pass_initial"; sec_order := 1;
       sec_tasks := [
         T "pass_1" 1; T "pass_2" 2; T "pass_3" 3] |};
    {| sec_id := "pass_food_pass"; sec_order := 2;
       sec_tasks := [
         T "pass_4" 1; T "pass_5" 2; T "pass_6" 3; T "pass_7" 4] |};
    {| sec_id := "pass_prep_area"; sec_order := 3;
       sec_tasks := [
         T "pass_8" 1; T "pass_9" 2; T "pass_10" 3; T "pass_11" 4;
         T "pass_12" 5; T "pass_13" 6] |};
    {| sec_id := "pass_mise_en_place"; sec_order := 4;
       sec_tasks := [
         T "pass_14" 1; T "pass_15" 2; T "pass_16" 3; T "pass_17" 4;
         T "pass_18" 5; T "pass_19" 6] |};
    {| sec_id := "pass_drinks_pass"; sec_order := 5;
       sec_tasks := [
         T "pass_20" 1; T "pass_21" 2; T "pass_22" 3; T "pass_23" 4;
         T "pass_24" 5] |};
    {| sec_id := "pass_stock_check"; sec_order := 6;
       sec_tasks := [
         T "pass_25" 1; T "pass_26" 2; T "pass_27" 3; T "pass_28" 4;
         T "pass_29" 5; T "pass_30" 6; T "pass_31" 7] |};
    {| sec_id := "pass_kitchen_refill"; sec_order := 7;
       sec_tasks := [
         T "pass_32" 1; T "pass_33" 2; T "pass_34" 3] |}
  ]
|}.

Definition FLOOR_OPENING_TEMPLATE : DutyTemplate := {|
  tpl_id := floor_opening;
  tpl_name := "Floor Opening Checklist";
  tpl_estimatedMinutes := 50;
  tpl_totalTasks := 30;
  tpl_sections := [
    {| sec_id := "floor_main"; sec_order := 1;
       sec_tasks := [
         T "floor_1" 1; T "floor_2" 2; T "floor_3" 3; T "floor_4" 4;
         T "floor_5" 5; T "floor_6" 6; T "floor_7" 7; T "floor_8" 8;
         T "floor_9" 9; T "floor_10" 10; T "floor_11" 11;
         T "floor_12"          12; T "floor_13" 13; T "floor_14" 14;
         T "floor_15" 15] |};
    {| sec_id := "floor_stations"; sec_order := 2;
       sec_tasks := [
         T "floor_16" 1; T "floor_17" 2; T "floor_18" 3;
         T "floor_19"          4; T "floor_20" 5; T "floor_21" 6;
         T "floor_22" 7; T "floor_23" 8; T "floor_24" 9; T "floor_25" 10;
         T "floor_26"          11; T "floor_27" 12; T "floor_28" 13;
         T "floor_29" 14] |};
    {| sec_id := "floor_terrace"; sec_order := 3;
       sec_tasks := [
         T "floor_30" 1; T "floor_31" 2; T "floor_32" 3;
         T "floor_33"          4; T "floor_34" 5; T "floor_35" 6] |}
  ]
|}.

Definition CLOSING_TEMPLATE : DutyTemplate := {|
  tpl_id := closing;
  tpl_name := "Closing Checklist";
  tpl_estimatedMinutes := 60;
  tpl_totalTasks := 38;
  tpl_sections := [
    {| sec_id := "close_station_1"; sec_order := 1;
       sec_tasks := [
         T "close_1" 1; T "close_2" 2; T "close_3" 3; T "close_4" 4] |};
    {| sec_id := "close_station_3"; sec_order := 2;
       sec_tasks := [
         T "close_5" 1; T "close_6" 2; T "close_7" 3; T "close_8" 4] |};
    {| sec_id := "close_station_456"; sec_order := 3;
       sec_tasks := [
         T "close_9" 1; T "close_10" 2; T "close_11" 3;
         T "close_12"          4; T "close_13" 5] |};
    {| sec_id := "close_drink_pass"; sec_order := 4;
       sec_tasks := [
         T "close_14" 1; T "close_15" 2; T "close_16" 3;
         T "close_17"          4; T "close_18" 5; T "close_19" 6] |};
    {| sec_id := "close_floor_cleaning"; sec_order := 5;
       sec_tasks := [
         T "close_20" 1; T "close_21" 2; T "close_22" 3;
         T "close_23"          4; T "close_24" 5; T "close_25" 6;
         T "close_26" 7; T "close_27" 8; T "close_28" 9] |};
    {| sec_id := "close_terrace"; sec_order := 6;
       sec_tasks := [
         T "close_29" 1; T "close_30" 2; T "close_31" 3;
         T "close_32"          4; T "close_33" 5; T "close_34" 6] |};
    {| sec_id := "close_food_pass"; sec_order := 7;
       sec_tasks := [
         T "close_35" 1; T "close_36" 2; T "close_37" 3;
         T "close_38"          4; T "close_39" 5; T "close_40" 6;
         T "close_41" 7; T "close_42" 8; T "close_43" 9; T "close_44" 10] |};
    {| sec_id := "close_final"; sec_order := 8;
       sec_tasks := [
         T "close_45" 1; T "close_46" 2; T "close_47" 3;
         T "close_48"          4; T "close_49" 5] |}
  ]
|}.

(** [TEMPLATES] and [getTemplate]: the lookup is total on [TemplateId]. *)
Definition getTemplate (id : TemplateId) : DutyTemplate :=
  match id with
  | pass_opening => PASS_OPENING_TEMPLATE
  | floor_opening => FLOOR_OPENING_TEMPLATE
  | closing => CLOSING_TEMPLATE
  end.

(** [template.sections.flatMap(section => section.tasks.map(task => task.id))] *)
Definition getAllTaskIds (template : DutyTemplate) : list string :=
  flat_map (fun section => map task_id (sec_tasks section))
           (tpl_sections template).

(* ===================================================================== *)
(** ** Local store (types/database.ts, types/staff.ts, types/sync.ts) *)
(* ===================================================================== *)

(** [StaffMember | Manager]: one record; the manager-only properties are
    optional, as they are on a value read back from the [staff] table. *)
Record StaffRecord := {
  staff_id : string;
  staff_name : string;
  staff_role_of : StaffRole;
  staff_active : bool;
  staff_createdAt : Timestamp;
  staff_deactivatedAt : option Timestamp;
  staff_pinHash : option string;
  staff_failedAttempts : option Z;
  staff_lockedUntil : option Timestamp;
}.

Record DeviceConfig := {
  dc_deviceId : string;
  dc_pinSalt : string;
  dc_installedAt : Timestamp;
  dc_appVersion : string;
}.

Inductive AuditAction :=
  | staff_added | staff_deactivated | staff_reactivated | manager_added
  | pin_changed | checklist_started | checklist_submitted
  | checklist_approved | session_force_closed
  | audit_sync_failed | audit_sync_completed.

Inductive EntityType := entity_staff | entity_checklist | entity_submission.

Record AuditLogEntry := {
  audit_id : string;
  audit_action : AuditAction;
  audit_entityId : string;
  audit_entityType : EntityType;
  audit_performedBy : option string;
  audit_details : list (string * string);
  audit_timestamp : Timestamp;
  audit_deviceId : string;
}.

Inductive SubmissionStatus :=
  sub_pending | sub_sheets_done | sub_complete | sub_failed.

Inductive PdfStatus := pdf_pending | pdf_generated | pdf_uploaded | pdf_failed.

(** The [step] of a [SyncError]: the four stages of the mirror pipeline. *)
Inductive PipelineStep := sheets_write | pdf_generate | pdf_upload | sheets_update.

Record SyncError := {
  err_timestamp : Timestamp;
  err_step : PipelineStep;
  err_message : string;
  err_statusCode : option Z;
  err_retryable : bool;
}.

Record SubmissionSnapshot := {
  snap_date : string;
  snap_area : string;
  snap_templateName : string;
  snap_templateId : TemplateId;
  snap_staff : StaffReference;
  snap_manager : StaffReference;
  snap_completionPercentage : Z;
  snap_doneCount : Z;
  snap_notDoneCount : Z;
  snap_naCount : Z;
  snap_totalTasks : Z;
  snap_startedAt : Timestamp;
  snap_submittedAt : Timestamp;
  snap_approvedAt : Timestamp;
  snap_shiftNotes : option string;
  snap_tasks : gmap string TaskCompletion;
  snap_deviceId : string;
}.

Record PendingSubmission := {
  sub_id : string;
  sub_checklistId : string;
  sub_status : SubmissionStatus;
  sub_pdfStatus : PdfStatus;
  sub_sheetsRowId : option string;
  sub_driveFileId : option string;
  sub_driveFileUrl : option string;
  sub_retryCount : Z;
  sub_maxRetries : Z;
  sub_createdAt : Timestamp;
  sub_lastAttemptAt : option Timestamp;
  sub_completedAt : option Timestamp;
  sub_errorLog : list SyncError;
  sub_snapshot : SubmissionSnapshot;
}.

(** The Dexie database: one finite map per table, keyed by the primary key
    ([&id]). The [appSettings] table is read by none of the functions
    embedded here and is omitted. *)
Record Db := {
  tbl_staff : gmap string StaffRecord;
  tbl_checklists : gmap string ChecklistInstance;
  tbl_submissions : gmap string PendingSubmission;
  tbl_deviceConfig : gmap string DeviceConfig;
  tbl_auditLog : gmap string AuditLogEntry;
}.

(** The Zustand session store ([SessionState]). *)
Record SessionState := {
  currentChecklist : option ChecklistInstance;
  isLoading : bool;
  error : option string;
  otherDeviceSessions : list ActiveSession;
}.

(** The React state of the checklist page that its handlers touch. *)
Record PageState := {
  page_checklist : option ChecklistInstance;
  page_showManagerAuth : bool;
  page_route : option string;
}.

(** What the host platform supplies: whether [crypto.randomUUID] is a
    function, the SHA-256 digest (hex), the sequence of random identifiers,
    the sequence of clock readings, the depth at which the call stack
    overflows, and the configured application version. *)
Record Platform := {
  has_randomUUID : bool;
  sha256_hex : string -> string;
  random_ids : nat -> string;
  clock : nat -> Timestamp;
  stack_limit : nat;
  app_version : string;
}.

Record World := {
  db : Db;
  session : SessionState;
  page : PageState;
  platform : Platform;
  ids_drawn : nat;
  clock_reads : nat;
}.

Definition with_db (f : Db -> Db) (w : World) : World :=
  {| db := f (db w); session := session w; page := page w;
     platform := platform w; ids_drawn := ids_drawn w;
     clock_reads := clock_reads w |}.

Definition with_session (f : SessionState -> SessionState) (w : World) : World :=
  {| db := db w; session := f (session w); page := page w;
     platform := platform w; ids_drawn := ids_drawn w;
     clock_reads := clock_reads w |}.

Definition with_page (f : PageState -> PageState) (w : World) : World :=
  {| db := db w; session := session w; page := f (page w);
     platform := platform w; ids_drawn := ids_drawn w;
     clock_reads := clock_reads w |}.

(* ===================================================================== *)
(** ** Effects: state, exceptions, [try]/[catch] *)
(* ===================================================================== *)

Inductive JsError :=
  | RangeError (message : string)
  | TypeError (message : string)
  | ConstraintError (message : string)
  | OtherError (message : string).

Definition error_message (e : JsError) : string :=
  match e with
  | RangeError m | TypeError m | ConstraintError m | OtherError m => m
  end.

Inductive Outcome (A : Type) :=
  | Returned (a : A)
  | Thrown (e : JsError).
Arguments Returned {A} a.
Arguments Thrown {A} e.

Definition Js (A : Type) : Type := World -> Outcome A * World.

Definition ret {A} (a : A) : Js A := fun w => (Returned a, w).

Definition bind {A B} (c : Js A) (k : A -> Js B) : Js B :=
  fun w =>
    match c w with
    | (Returned a, w') => k a w'
    | (Thrown e, w') => (Thrown e, w')
    end.

Definition throw {A} (e : JsError) : Js A := fun w => (Thrown e, w).

(** [try { body } catch (e) { handler e }]: the writes that [body] made
    before it threw stay. *)
Definition try_catch {A} (body : Js A) (handler : JsError -> Js A) : Js A :=
  fun w =>
    match body w with
    | (Returned a, w') => (Returned a, w')
    | (Thrown e, w') => handler e w'
    end.

Definition read {A} (f : World -> A) : Js A := fun w => (Returned (f w), w).

Definition update (f : World -> World) : Js unit := fun w => (Returned tt, f w).

Notation "'let*' x ':=' c1 'in' c2" := (bind c1 (fun x => c2))
  (at level 10, x name, c1 at level 100, c2 at level 200).

(** [Date.now()] and [new Date()]: the next clock reading. *)
Definition Date_now : Js Timestamp :=
  fun w =>
    (Returned (clock (platform w) (clock_reads w)),
     {| db := db w; session := session w; page := page w;
        platform := platform w; ids_drawn := ids_drawn w;
        clock_reads := S (clock_reads w) |}).

(** The next random identifier of the platform. *)
Definition draw_id : Js string :=
  fun w =>
    (Returned (random_ids (platform w) (ids_drawn w)),
     {| db := db w; session := session w; page := page w;
        platform := platform w; ids_drawn := S (ids_drawn w);
        clock_reads := clock_reads w |}).

(** [crypto.randomUUID()]: a [TypeError] where the platform lacks it. *)
Definition crypto_randomUUID : Js string :=
  fun w =>
    if has_randomUUID (platform w) then draw_id w
    else throw (TypeError "crypto.randomUUID is not a function") w.

(** The [Math.random]-based fallback of both [generateUUID] polyfills. *)
Definition fallback_uuid : Js string := draw_id.

(** Zustand's [set]: a partial update of the session state. *)
Definition set_loading_error (l : bool) (e : option string) : Js unit :=
  update (with_session (fun s =>
    {| currentChecklist := currentChecklist s; isLoading := l; error := e;
       otherDeviceSessions := otherDeviceSessions s |})).

Definition set_error (e : option string) : Js unit :=
  update (with_session (fun s =>
    {| currentChecklist := currentChecklist s; isLoading := isLoading s;
       error := e; otherDeviceSessions := otherDeviceSessions s |})).

Definition set_currentChecklist (c : option ChecklistInstance) : Js unit :=
  update (with_session (fun s =>
    {| currentChecklist := c; isLoading := isLoading s; error := error s;
       otherDeviceSessions := otherDeviceSessions s |})).

Definition set_currentChecklist_loading
    (c : option ChecklistInstance) (l : bool) : Js unit :=
  update (with_session (fun s =>
    {| currentChecklist := c; isLoading := l; error := error s;
       otherDeviceSessions := otherDeviceSessions s |})).

(** Dexie table operations. [put] replaces or creates; [add] refuses an
    existing key; [update] applies the changes to the record under the key,
    and leaves the table as it is when there is none. *)
Definition put_checklist (c : ChecklistInstance) : Js unit :=
  update (with_db (fun d =>
    {| tbl_staff := tbl_staff d;
       tbl_checklists := <[cl_id c := c]> (tbl_checklists d);
       tbl_submissions := tbl_submissions d;
       tbl_deviceConfig := tbl_deviceConfig d;
       tbl_auditLog := tbl_auditLog d |})).

Definition put_deviceConfig (key : string) (c : DeviceConfig) : Js unit :=
  update (with_db (fun d =>
    {| tbl_staff := tbl_staff d;
       tbl_checklists := tbl_checklists d;
       tbl_submissions := tbl_submissions d;
       tbl_deviceConfig := <[key := c]> (tbl_deviceConfig d);
       tbl_auditLog := tbl_auditLog d |})).

Definition add_auditLog (e : AuditLogEntry) : Js unit :=
  fun w =>
    match tbl_auditLog (db w) !! audit_id e with
    | Some _ => (Thrown (ConstraintError "Key already exists in the object store."), w)
    | None =>
        update (with_db (fun d =>
          {| tbl_staff := tbl_staff d;
             tbl_checklists := tbl_checklists d;
             tbl_submissions := tbl_submissions d;
             tbl_deviceConfig := tbl_deviceConfig d;
             tbl_auditLog := <[audit_id e := e]> (tbl_auditLog d) |})) w
    end.

Definition update_staff (key : string) (changes : StaffRecord -> StaffRecord)
  : Js unit :=
  update (with_db (fun d =>
    {| tbl_staff := alter changes key (tbl_staff d);
       tbl_checklists := tbl_checklists d;
       tbl_submissions := tbl_submissions d;
       tbl_deviceConfig := tbl_deviceConfig d;
       tbl_auditLog := tbl_auditLog d |})).

(* ===================================================================== *)
(** ** Database helpers (lib/db/index.ts) *)
(* ===================================================================== *)

Module LibDb.

(** [generateUUID] of lib/db: where [crypto.randomUUID] is a function the
    body returns [generateUUID()], a call to itself, and not
    [crypto.randomUUID()]. Each call consumes a stack frame; at the
    platform's limit the engine throws [RangeError]. (An engine that
    reuses the frame of a tail call would not return at all; either way no
    identifier comes back.) *)
Fixpoint generateUUID_frames (frames : nat) : Js string :=
  fun w =>
    if has_randomUUID (platform w) then
      match frames with
      | O => throw (RangeError "Maximum call stack size exceeded") w
      | S frames' => generateUUID_frames frames' w
      end
    else fallback_uuid w.

Definition generateUUID : Js string :=
  fun w => generateUUID_frames (stack_limit (platform w)) w.

Definition initializeDeviceConfig : Js DeviceConfig :=
  let* existing := read (fun w => tbl_deviceConfig (db w) !! "device_config") in
  match existing with
  | Some config => ret config
  | None =>
      let* deviceId := generateUUID in
      let* pinSalt := generateUUID in
      let* installedAt := Date_now in
      let* appVersion := read (fun w => app_version (platform w)) in
      let config :=
        {| dc_deviceId := deviceId; dc_pinSalt := pinSalt;
           dc_installedAt := installedAt; dc_appVersion := appVersion |} in
      let* _ := put_deviceConfig "device_config" config in
      ret config
  end.

Definition getDeviceId : Js string :=
  let* config := initializeDeviceConfig in
  ret (dc_deviceId config).

Definition getPinSalt : Js string :=
  let* config := initializeDeviceConfig in
  ret (dc_pinSalt config).

(** The argument of [logAuditEntry]: an entry without [id], [timestamp]
    and [deviceId]. *)
Record AuditInput := {
  in_action : AuditAction;
  in_entityId : string;
  in_entityType : EntityType;
  in_performedBy : option string;
  in_details : list (string * string);
}.

Definition logAuditEntry (entry : AuditInput) : Js unit :=
  let* deviceId := getDeviceId in
  let* id := generateUUID in
  let* timestamp := Date_now in
  add_auditLog
    {| audit_id := id;
       audit_action := in_action entry;
       audit_entityId := in_entityId entry;
       audit_entityType := in_entityType entry;
       audit_performedBy := in_performedBy entry;
       audit_details := in_details entry;
       audit_timestamp := timestamp;
       audit_deviceId := deviceId |}.

End LibDb.
Import LibDb.

(** [generateUUID] of app/checklist/[templateId]/page.tsx: the same
    polyfill, whose first branch does call [crypto.randomUUID()]. *)
Definition page_generateUUID : Js string :=
  fun w =>
    if has_randomUUID (platform w) then crypto_randomUUID w
    else fallback_uuid w.

(* ===================================================================== *)
(** ** Session store (lib/stores/useSessionStore.ts) *)
(* ===================================================================== *)

Module SessionStore.

(** [Object.fromEntries]: a later entry overwrites an earlier one. *)
Definition Object_fromEntries {A} (entries : list (string * A))
  : gmap string A :=
  foldl (fun o kv => <[kv.1 := kv.2]> o) ∅ entries.

Definition TemplateId_string (t : TemplateId) : string :=
  match t with
  | pass_opening => "pass_opening"
  | floor_opening => "floor_opening"
  | closing => "closing"
  end.

Definition blank_task (s : TaskCompletionStatus) (id : string)
  : string * TaskCompletion :=
  (id, {| tc_taskId := id; tc_status := s; tc_completedAt := None;
          tc_note := None; tc_inputValue := None;
          tc_completedBy := None |}).

(** The instance that [startChecklist] assembles between reading the
    clock and writing to the table: the object literal (all tasks [done],
    counters 0), the reassignment of [tasks] to all [not_done], and the
    four counters taken from [calculateCompletionStats]. *)
Definition new_checklist (template : DutyTemplate) (templateId : TemplateId)
    (staff : StaffReference) (deviceId id : string) (now : Timestamp)
  : ChecklistInstance :=
  let taskIds := getAllTaskIds template in
  let checklist0 :=
    {| cl_id := id; templateId := templateId;
       templateName := tpl_name template; status := in_progress;
       startedBy := Some staff; manager := None; contributors := None;
       deviceId := deviceId;
       tasks := Object_fromEntries (map (blank_task done) taskIds);
       completionPercentage := 0; doneCount := 0; notDoneCount := 0;
       naCount := 0; totalTasks := tpl_totalTasks template;
       startedAt := now; lastModifiedAt := now; submittedAt := None;
       approvedAt := None; syncedAt := None; shiftNotes := None;
       forceClosedBy := None |} in
  let tasks1 := Object_fromEntries (map (blank_task not_done) taskIds) in
  let stats := calculateCompletionStats tasks1 (totalTasks checklist0) in
  {| cl_id := cl_id checklist0; templateId := templateId;
     templateName := templateName checklist0; status := status checklist0;
     startedBy := startedBy checklist0; manager := manager checklist0;
     contributors := contributors checklist0;
     deviceId := deviceId;
     tasks := tasks1;
     completionPercentage := stats_completionPercentage stats;
     doneCount := stats_doneCount stats;
     notDoneCount := stats_notDoneCount stats;
     naCount := stats_naCount stats;
     totalTasks := totalTasks checklist0;
     startedAt := startedAt checklist0;
     lastModifiedAt := lastModifiedAt checklist0;
     submittedAt := None; approvedAt := None; syncedAt := None;
     shiftNotes := None; forceClosedBy := None |}.

Definition startChecklist (templateId : TemplateId) (staff : StaffReference)
  : Js unit :=
  let* _ := set_loading_error true None in
  try_catch
    (let* deviceId := getDeviceId in
     let template := getTemplate templateId in
     let* now := Date_now in
     let* id := crypto_randomUUID in
     let checklist := new_checklist template templateId staff deviceId id now in
     let* _ := put_checklist checklist in
     let* _ := logAuditEntry
       {| in_action := checklist_started;
          in_entityId := cl_id checklist;
          in_entityType := entity_checklist;
          in_performedBy := Some (ref_id staff);
          in_details := [("templateId", TemplateId_string templateId);
                         ("templateName", tpl_name template)] |} in
     set_currentChecklist_loading (Some checklist) false)
    (fun e => set_loading_error false (Some (error_message e))).

(** The instance that [updateTask] writes: the task entry replaced, the
    counters recomputed from the whole map, [lastModifiedAt] advanced. *)
Definition updated_checklist (currentChecklist : ChecklistInstance)
    (taskId : string) (status' : TaskCompletionStatus)
    (note : option string) (inputValue : option float) (now : Timestamp)
  : ChecklistInstance :=
  let updatedTask :=
    {| tc_taskId := taskId; tc_status := status';
       tc_completedAt := Some now; tc_note := note;
       tc_inputValue := inputValue;
       tc_completedBy := startedBy currentChecklist |} in
  let updatedTasks := <[taskId := updatedTask]> (tasks currentChecklist) in
  let stats :=
    calculateCompletionStats updatedTasks (totalTasks currentChecklist) in
  {| cl_id := cl_id currentChecklist;
     templateId := templateId currentChecklist;
     templateName := templateName currentChecklist;
     status := status currentChecklist;
     startedBy := startedBy currentChecklist;
     manager := manager currentChecklist;
     contributors := contributors currentChecklist;
     deviceId := deviceId currentChecklist;
     tasks := updatedTasks;
     completionPercentage := stats_completionPercentage stats;
     doneCount := stats_doneCount stats;
     notDoneCount := stats_notDoneCount stats;
     naCount := stats_naCount stats;
     totalTasks := totalTasks currentChecklist;
     startedAt := startedAt currentChecklist;
     lastModifiedAt := now;
     submittedAt := submittedAt currentChecklist;
     approvedAt := approvedAt currentChecklist;
     syncedAt := syncedAt currentChecklist;
     shiftNotes := shiftNotes currentChecklist;
     forceClosedBy := forceClosedBy currentChecklist |}.

Definition updateTask (taskId : string) (status' : TaskCompletionStatus)
    (note : option string) (inputValue : option float) : Js unit :=
  let* current := read (fun w => currentChecklist (session w)) in
  match current with
  | None => set_error (Some "No active checklist")
  | Some currentChecklist =>
      try_catch
        (let* now := Date_now in
         let updatedChecklist :=
           updated_checklist currentChecklist taskId status' note
                             inputValue now in
         let* _ := put_checklist updatedChecklist in
         set_currentChecklist (Some updatedChecklist))
        (fun e => set_error (Some (error_message e)))
  end.

End SessionStore.
Import SessionStore.

(* ===================================================================== *)
(** ** Conflict check (useSessionStore.ts, checkForActiveSessions) *)
(* ===================================================================== *)

Module ActiveSessions.

(** Insertion of [x] into a list ordered by [le], before the first
    element that [x] does not follow: the list stays in the order of its
    keys, and equal keys keep their arrival order. *)
Fixpoint insert_before {A} (goes_first : A -> A -> bool) (x : A) (l : list A)
  : list A :=
  match l with
  | [] => [x]
  | y :: l' =>
      if goes_first x y then x :: y :: l'
      else y :: insert_before goes_first x l'
  end.

(** [Array.prototype.sort (compare)]: a stable sort; with a consistent
    comparator its result is the stable insertion sort. An element goes
    before another when [compare] is not positive. *)
Definition Array_sort {A} (compare : A -> A -> Z) (l : list A) : list A :=
  foldr (insert_before (fun x y => compare x y <=? 0)) [] l.

(** [Table.toArray] over an index query: the records in the order of
    their primary keys (strings compared character by character). *)
Definition toArray {A} (tbl : gmap string A) : list A :=
  (foldr (insert_before (fun x y => String.leb x.1 y.1)) []
         (map_to_list tbl)).*2.

Definition is_active (c : ChecklistInstance) : bool :=
  bool_decide (status c = in_progress)
  || bool_decide (status c = pending_review).

(** [db.checklists.where('templateId').equals(templateId).filter(...)] *)
Definition activeSessions_of (tid : TemplateId)
    (tbl : gmap string ChecklistInstance) : list ChecklistInstance :=
  List.filter is_active
    (List.filter (fun c => bool_decide (templateId c = tid)) (toArray tbl)).

Definition most_recent_first (a b : ChecklistInstance) : Z :=
  lastModifiedAt b - lastModifiedAt a.

(** The object literal that the check returns. [session.startedBy.name]
    is a [TypeError] on a record without [startedBy]. *)
Definition snapshot_of (session : ChecklistInstance) (deviceId' : string)
  : JsError + ActiveSession :=
  match startedBy session with
  | None => inl (TypeError "Cannot read properties of undefined")
  | Some staff =>
      inr {| as_checklistId := cl_id session;
             as_templateId := templateId session;
             as_templateName := templateName session;
             as_staffName := ref_name staff;
             as_deviceId := deviceId session;
             as_startedAt := startedAt session;
             as_lastActivityAt := lastModifiedAt session;
             as_completionPercentage := completionPercentage session;
             as_isOwnDevice := bool_decide (deviceId session = deviceId') |}
  end.

Definition checkForActiveSessions (tid : TemplateId)
  : Js (option ActiveSession) :=
  try_catch
    (let* deviceId' := getDeviceId in
     let* activeSessions :=
       read (fun w => activeSessions_of tid (tbl_checklists (db w))) in
     if (Z.of_nat (length activeSessions) =? 0) then ret None
     else
       match head (Array_sort most_recent_first activeSessions) with
       | Some session =>
           match snapshot_of session deviceId' with
           | inr snapshot => ret (Some snapshot)
           | inl e => throw e
           end
       | None => throw (TypeError "Cannot read properties of undefined")
       end)
    (fun _ => ret None).

End ActiveSessions.
Import ActiveSessions.

(* ===================================================================== *)
(** ** PIN security (lib/utils/pinSecurity.ts, types/staff.ts) *)
(* ===================================================================== *)

Module PIN_SECURITY.
Definition PIN_LENGTH : Z := 4.
Definition MAX_ATTEMPTS : Z := 3.
Definition LOCKOUT_DURATION_MS : Z := 5 * 60 * 1000.
End PIN_SECURITY.

Module PinSecurity.

Inductive PinError := invalid_pin | account_locked | not_found.

Record PinVerificationResult := {
  success : bool;
  pin_error : option PinError;
  lockoutRemaining : option Z;
  attemptsRemaining : option Z;
}.

(** [hashPin]: SHA-256, in hex, of [salt:managerId:pin]. *)
Definition hashPin (managerId pin : string) : Js string :=
  let* salt := getPinSalt in
  let data := (salt ++ ":" ++ managerId ++ ":" ++ pin)%string in
  let* digest := read (fun w => sha256_hex (platform w)) in
  ret (digest data).

(** The [Partial<Manager>] changes that the function writes. An
    [undefined] value removes the property. *)
Definition set_attempts_and_lock (attempts : Z) (until : option Timestamp)
    (r : StaffRecord) : StaffRecord :=
  {| staff_id := staff_id r; staff_name := staff_name r;
     staff_role_of := staff_role_of r; staff_active := staff_active r;
     staff_createdAt := staff_createdAt r;
     staff_deactivatedAt := staff_deactivatedAt r;
     staff_pinHash := staff_pinHash r;
     staff_failedAttempts := Some attempts;
     staff_lockedUntil := until |}.

Definition set_attempts (attempts : Z) (r : StaffRecord) : StaffRecord :=
  set_attempts_and_lock attempts (staff_lockedUntil r) r.

Definition verifyManagerPin (managerId pin : string)
  : Js PinVerificationResult :=
  try_catch
    (let* found := read (fun w => tbl_staff (db w) !! managerId) in
     match found with
     | None =>
         ret {| success := false; pin_error := Some not_found;
                lockoutRemaining := None; attemptsRemaining := None |}
     | Some manager =>
         if negb (bool_decide (staff_role_of manager = manager_role)) then
           ret {| success := false; pin_error := Some not_found;
                  lockoutRemaining := None; attemptsRemaining := None |}
         else
           (* the rest of the body, entered unless the account is locked *)
           let evaluate : Js PinVerificationResult :=
             let* hashedPin := hashPin managerId pin in
             if bool_decide (Some hashedPin = staff_pinHash manager) then
               let* _ := update_staff managerId (set_attempts_and_lock 0 None) in
               ret {| success := true; pin_error := None;
                      lockoutRemaining := None; attemptsRemaining := None |}
             else
               let newFailedAttempts :=
                 default 0 (staff_failedAttempts manager) + 1 in
               let attemptsRemaining' :=
                 PIN_SECURITY.MAX_ATTEMPTS - newFailedAttempts in
               if PIN_SECURITY.MAX_ATTEMPTS <=? newFailedAttempts then
                 let* now := Date_now in
                 let lockedUntil := now + PIN_SECURITY.LOCKOUT_DURATION_MS in
                 let* _ := update_staff managerId
                   (set_attempts_and_lock newFailedAttempts (Some lockedUntil)) in
                 ret {| success := false; pin_error := Some account_locked;
                        lockoutRemaining :=
                          Some (ceil_div PIN_SECURITY.LOCKOUT_DURATION_MS 1000);
                        attemptsRemaining := None |}
               else
                 let* _ := update_staff managerId
                   (set_attempts newFailedAttempts) in
                 ret {| success := false; pin_error := Some invalid_pin;
                        lockoutRemaining := None;
                        attemptsRemaining := Some attemptsRemaining' |}
           in
           match staff_lockedUntil manager with
           | Some lockExpiry =>
               let* now := Date_now in
               if now <? lockExpiry then
                 let remainingSeconds := ceil_div (lockExpiry - now) 1000 in
                 ret {| success := false; pin_error := Some account_locked;
                        lockoutRemaining := Some remainingSeconds;
                        attemptsRemaining := None |}
               else
                 let* _ := update_staff managerId (set_attempts_and_lock 0 None) in
                 evaluate
           | None => evaluate
           end
     end)
    (fun _ =>
       ret {| success := false; pin_error := Some invalid_pin;
              lockoutRemaining := None; attemptsRemaining := None |}).

(** The lockout state of a manager record, in the terms of the
    specification: [Unlocked n] or [Locked until]. *)
Inductive LockState := Unlocked (failedAttempts : Z) | Locked (until : Timestamp).

Definition lock_state (r : StaffRecord) : LockState :=
  match staff_lockedUntil r with
  | Some until => Locked until
  | None => Unlocked (default 0 (staff_failedAttempts r))
  end.

End PinSecurity.
Import PinSecurity.

(* ===================================================================== *)
(** ** Retry delay (types/sync.ts) *)
(* ===================================================================== *)

Module SYNC_CONFIG.
Definition MAX_RETRIES : Z := 5.
Definition BASE_RETRY_DELAY_MS : Z := 1000.
Definition MAX_RETRY_DELAY_MS : Z := 60000.
Definition BACKOFF_MULTIPLIER : Z := 2.
Definition SYNC_INTERVAL_MS : Z := 30000.
Definition PENDING_SYNC_INTERVAL_MS : Z := 5000.
End SYNC_CONFIG.

(** [calculateRetryDelay]. The product is an integer, exact in binary64
    until it overflows to [Infinity]; the minimum with 60000 is the same
    either way. *)
Definition calculateRetryDelay (retryCount : nat) : Z :=
  let delay :=
    SYNC_CONFIG.BASE_RETRY_DELAY_MS
    * Math_pow SYNC_CONFIG.BACKOFF_MULTIPLIER retryCount in
  Z.min delay SYNC_CONFIG.MAX_RETRY_DELAY_MS.

(** The same computation carried out in binary64, for comparison:
    [Math.pow (2, n)] is the exact power of two, or [Infinity] from 2^1024
    on, and [Math.min] of two numbers is the smaller. *)
Fixpoint pow_binary64 (b : float) (n : nat) : float :=
  match n with
  | O => 1%float
  | S k => (b * pow_binary64 b k)%float
  end.

Definition calculateRetryDelay_binary64 (retryCount : nat) : float :=
  let delay := (1000 * pow_binary64 2 retryCount)%float in
  if PrimFloat.ltb delay 60000 then delay else 60000%float.

(* ===================================================================== *)
(** ** Submission endpoint (app/api/submit/route.ts) *)
(* ===================================================================== *)

Module Route.

(** A parsed JSON value. An object keeps its members in source order;
    of a repeated name the last member is the one the object holds. *)
#[warnings="-register-all"] Inductive Json :=
  | JNull
  | JBool (b : bool)
  | JNumber (x : float)
  | JString (s : string)
  | JArray (items : list Json)
  | JObject (members : list (string * Json)).

(** The value of a property read; [None] is [undefined]. *)
Definition member (name : string) (members : list (string * Json))
  : option Json :=
  snd <$> List.find (fun kv => String.eqb kv.1 name) (rev members).

(** [v.name] on a value that is not [null]: only an object has the
    properties named below. *)
Definition prop (v : Json) (name : string) : option Json :=
  match v with
  | JObject members => member name members
  | _ => None
  end.

(** [!v] is [negb (truthy v)]. *)
Definition truthy (v : option Json) : bool :=
  match v with
  | None | Some JNull => false
  | Some (JBool b) => b
  | Some (JNumber x) => negb (PrimFloat.eqb x 0) && negb (PrimFloat.is_nan x)
  | Some (JString s) => negb (String.eqb s "")
  | Some (JArray _) | Some (JObject _) => true
  end.

Definition typeof_object (v : option Json) : bool :=
  match v with
  | Some JNull | Some (JArray _) | Some (JObject _) => true
  | _ => false
  end.

Definition typeof_string (v : option Json) : bool :=
  match v with
  | Some (JString _) => true
  | _ => false
  end.

(** [name in v] for an object or an array [v]. None of the names tested
    below is an array index, [length], or a property inherited from
    [Object.prototype]. *)
Definition has_property (name : string) (v : Json) : bool :=
  match v with
  | JObject members => existsb (fun kv => String.eqb kv.1 name) members
  | _ => false
  end.

Definition requiredFields : list string :=
  [ "date"; "area"; "templateName"; "templateId"; "staff"; "manager";
    "completionPercentage"; "doneCount"; "notDoneCount"; "naCount";
    "totalTasks"; "startedAt"; "submittedAt"; "approvedAt"; "tasks";
    "deviceId" ].

Definition validateSubmission (body : Json) : bool :=
  if negb (truthy (Some body)) || negb (typeof_object (Some body)) then false
  else
    let submissionId := prop body "submissionId" in
    if negb (typeof_string submissionId) || negb (truthy submissionId)
    then false
    else
      let snapshot := prop body "snapshot" in
      if negb (truthy snapshot) || negb (typeof_object snapshot) then false
      else
        match snapshot with
        | Some snapshot' =>
            forallb (fun field => has_property field snapshot') requiredFields
        | None => false
        end.

(** The renderings used for the row, taken as given. Of the [Date] built
    from a primitive value ([None] is [undefined]): the English day name
    ([undefined] for an invalid date) and the [HH:MM] rendering in the
    [en-GB] locale. Of a number: its text ([Number::toString]). *)
Record DateApi := {
  day_name : option Json -> option string;
  time_hh_mm : option Json -> string;
  number_text : float -> string;
}.

(** Whether an object parsed from JSON has a member of its own under the
    name. *)
Definition hasOwn (members : list (string * Json)) (name : string) : bool :=
  existsb (fun kv => String.eqb kv.1 name) members.

(** [ToString] of a parsed JSON value. An array goes through
    [Array.prototype.join], where [null] elements give the empty text. An
    object goes through its [toString]: the inherited one gives
    [[object Object]]; a member of its own named [toString] is never a
    function, and since [valueOf] (the inherited one, or a member that is no
    function either) yields no primitive, the conversion is then a
    [TypeError]. *)
Fixpoint ToString (dates : DateApi) (v : Json) : JsError + string :=
  match v with
  | JNull => inr "null"
  | JBool b => inr (if b then "true" else "false")
  | JNumber x => inr (number_text dates x)
  | JString t => inr t
  | JArray items =>
      (fix join (l : list Json) : JsError + string :=
         match l with
         | [] => inr ""
         | e :: l' =>
             match (match e with
                    | JNull => inr ""
                    | _ => ToString dates e
                    end) with
             | inl err => inl err
             | inr first =>
                 match l' with
                 | [] => inr first
                 | _ :: _ =>
                     match join l' with
                     | inl err => inl err
                     | inr rest => inr (first ++ "," ++ rest)%string
                     end
                 end
             end
         end) items
  | JObject members =>
      if hasOwn members "toString"
      then inl (TypeError "Cannot convert object to primitive value")
      else inr "[object Object]"
  end.

(** [ToPrimitive]: an array or an object converts through the same
    [toString] whatever the hint. *)
Definition ToPrimitive (dates : DateApi) (v : Json) : JsError + Json :=
  match v with
  | JArray _ | JObject _ =>
      match ToString dates v with
      | inl e => inl e
      | inr t => inr (JString t)
      end
  | _ => inr v
  end.

(** [new Date (value)]: the primitive from which the date is built;
    [new Date (undefined)] is an invalid date. *)
Definition new_Date (dates : DateApi) (value : option Json)
  : JsError + option Json :=
  match value with
  | None => inr None
  | Some v =>
      match ToPrimitive dates v with
      | inl e => inl e
      | inr primitive => inr (Some primitive)
      end
  end.

(** [String (value)] *)
Definition String_ (dates : DateApi) (value : option Json)
  : JsError + string :=
  match value with
  | None => inr "undefined"
  | Some v => ToString dates v
  end.

Record SheetsLogRow := {
  row_date : option Json;
  row_dayOfWeek : option string;
  row_area : option Json;
  row_dutyType : string;
  row_staffName : option Json;
  row_managerName : option Json;
  row_completionPercent : option Json;
  row_doneCount : option Json;
  row_notDoneCount : option Json;
  row_naCount : option Json;
  row_totalTasks : option Json;
  row_startTime : string;
  row_submitTime : string;
  row_pdfLink : string;
}.

(** [o.name] where [o] itself was read from a property: a [TypeError]
    when [o] is [null] or [undefined]. *)
Definition prop_of (o : option Json) (name : string)
  : JsError + option Json :=
  match o with
  | None => inl (TypeError "Cannot read properties of undefined")
  | Some JNull => inl (TypeError "Cannot read properties of null")
  | Some v => inr (prop v name)
  end.

Definition is_closing (v : option Json) : bool :=
  match v with
  | Some (JString s) => String.eqb s "closing"
  | _ => false
  end.

Definition createSheetsRow (dates : DateApi) (snapshot : Json)
    (pdfLink : string) : JsError + SheetsLogRow :=
  match new_Date dates (prop snapshot "startedAt") with
  | inl e => inl e
  | inr startDate =>
  match new_Date dates (prop snapshot "submittedAt") with
  | inl e => inl e
  | inr submitDate =>
  match prop_of (prop snapshot "staff") "name" with
  | inl e => inl e
  | inr staffName =>
  match prop_of (prop snapshot "manager") "name" with
  | inl e => inl e
  | inr managerName =>
      inr {| row_date := prop snapshot "date";
             row_dayOfWeek := day_name dates startDate;
             row_area := prop snapshot "area";
             row_dutyType :=
               if is_closing (prop snapshot "templateId")
               then "Closing" else "Opening";
             row_staffName := staffName;
             row_managerName := managerName;
             row_completionPercent := prop snapshot "completionPercentage";
             row_doneCount := prop snapshot "doneCount";
             row_notDoneCount := prop snapshot "notDoneCount";
             row_naCount := prop snapshot "naCount";
             row_totalTasks := prop snapshot "totalTasks";
             row_startTime := time_hh_mm dates startDate;
             row_submitTime := time_hh_mm dates submitDate;
             row_pdfLink := pdfLink |}
  end end end end.

(** [formatRowForSheets]: the fourteen cells, the five counters through
    [String]. A cell is the value as it stands ([None] is [undefined]); a
    text is a JSON string. *)
Definition formatRowForSheets (dates : DateApi) (row : SheetsLogRow)
  : JsError + list (option Json) :=
  let text (t : string) : option Json := Some (JString t) in
  match String_ dates (row_completionPercent row) with
  | inl e => inl e
  | inr completionPercent =>
  match String_ dates (row_doneCount row) with
  | inl e => inl e
  | inr doneCount =>
  match String_ dates (row_notDoneCount row) with
  | inl e => inl e
  | inr notDoneCount =>
  match String_ dates (row_naCount row) with
  | inl e => inl e
  | inr naCount =>
  match String_ dates (row_totalTasks row) with
  | inl e => inl e
  | inr totalTasks =>
      inr [ row_date row; JString <$> row_dayOfWeek row; row_area row;
            text (row_dutyType row); row_staffName row; row_managerName row;
            text completionPercent; text doneCount; text notDoneCount;
            text naCount; text totalTasks;
            text (row_startTime row); text (row_submitTime row);
            text (row_pdfLink row) ]
  end end end end end.

(** [SubmitResponse] with the HTTP status of the [NextResponse]. The
    [submissionId] echoed on a rejected request is whatever value the body
    held under that name. *)
Record Response := {
  http_status : Z;
  resp_success : bool;
  resp_submissionId : Json;
  resp_status : SubmissionStatus;
  resp_sheetsRowId : option string;
  resp_driveFileId : option string;
  resp_driveFileUrl : option string;
  resp_error : option string;
}.

Definition or_unknown (v : option Json) : Json :=
  match v with
  | Some v' => if truthy v then v' else JString "unknown"
  | None => JString "unknown"
  end.

(** [POST]. The request is the outcome of [request.json()]: the parsed
    value, or the error with which the call rejects when the body is not
    JSON. Beside the response the model reports the pipeline stages that
    the handler completed, in order: its numbered steps 1 (PDF generation),
    2 (Drive upload) and 3 (Sheets row: [createSheetsRow], then
    [formatRowForSheets], whose cells go nowhere yet), each a placeholder
    that calls no external service. The handler has no stage that patches
    an existing row. *)
Definition POST (dates : DateApi) (request : JsError + Json)
  : Response * list PipelineStep :=
  match request with
  | inl e =>
      ({| http_status := 500; resp_success := false;
          resp_submissionId := JString "unknown"; resp_status := sub_failed;
          resp_sheetsRowId := None; resp_driveFileId := None;
          resp_driveFileUrl := None;
          resp_error := Some (error_message e) |}, [])
  | inr body =>
      if negb (validateSubmission body) then
        ({| http_status := 400; resp_success := false;
            resp_submissionId := or_unknown (prop body "submissionId");
            resp_status := sub_failed;
            resp_sheetsRowId := None; resp_driveFileId := None;
            resp_driveFileUrl := None;
            resp_error := Some "Invalid request payload" |}, [])
      else
        let submissionId := default JNull (prop body "submissionId") in
        let snapshot := default JNull (prop body "snapshot") in
        (* Step 1: Generate PDF *)
        let ran1 := [pdf_generate] in
        (* Step 2: Upload PDF to Google Drive *)
        let driveFileId := "placeholder_drive_id" in
        let driveFileUrl :=
          ("https://drive.google.com/file/d/" ++ driveFileId ++ "/view")%string in
        let ran2 := (ran1 ++ [pdf_upload])%list in
        (* Step 3: Create Sheets row with PDF link *)
        let failed (e : JsError) :=
          ({| http_status := 500; resp_success := false;
              resp_submissionId := JString "unknown";
              resp_status := sub_failed;
              resp_sheetsRowId := None; resp_driveFileId := None;
              resp_driveFileUrl := None;
              resp_error := Some (error_message e) |}, ran2) in
        match createSheetsRow dates snapshot driveFileUrl with
        | inl e => failed e
        | inr sheetsRow =>
            match formatRowForSheets dates sheetsRow with
            | inl e => failed e
            | inr rowData =>
                let sheetsRowId := "placeholder_row_id" in
                ({| http_status := 200; resp_success := true;
                    resp_submissionId := submissionId;
                    resp_status := sub_complete;
                    resp_sheetsRowId := Some sheetsRowId;
                    resp_driveFileId := Some driveFileId;
                    resp_driveFileUrl := Some driveFileUrl;
                    resp_error := None |}, (ran2 ++ [sheets_write])%list)
            end
        end
  end.

(** The snapshot members that the handler converts: the two timestamps
    ([new Date]) and the five counters ([String]). *)
Definition convertedFields : list string :=
  [ "startedAt"; "submittedAt"; "completionPercentage"; "doneCount";
    "notDoneCount"; "naCount"; "totalTasks" ].

(** The member converts without a [TypeError]. *)
Definition converts (dates : DateApi) (snapshot : Json) (name : string)
  : bool :=
  match String_ dates (prop snapshot name) with
  | inr _ => true
  | inl _ => false
  end.

(** Modelled from the spec: the outbox's classification of a failed call
    by its HTTP status, which no source file implements. Section 7 of the
    specification makes 4xx answers non-retryable and timeouts, 5xx and
    transient network errors retryable. *)
Definition spec_retryable (http_status : Z) : bool :=
  negb ((400 <=? http_status) && (http_status <? 500)).

End Route.
Import Route.

(* ===================================================================== *)
(** ** Checklist page and manager modal
       (app/checklist/[templateId]/page.tsx, ManagerAuthModal.tsx) *)
(* ===================================================================== *)

Module ChecklistPage.

(** [handleManagerApprove (manager, shiftNotes)]. *)
Definition handleManagerApprove (manager_id manager_name : string)
    (shiftNotes' : option string) : Js unit :=
  let* current := read (fun w => page_checklist (page w)) in
  match current with
  | None => ret tt
  | Some checklist =>
      let* now := Date_now in
      let updatedChecklist :=
        {| cl_id := cl_id checklist;
           templateId := templateId checklist;
           templateName := templateName checklist;
           status := approved;
           startedBy := startedBy checklist;
           manager := Some {| ref_id := manager_id; ref_name := manager_name;
                              ref_role := manager_role |};
           contributors := contributors checklist;
           deviceId := deviceId checklist;
           tasks := tasks checklist;
           completionPercentage := completionPercentage checklist;
           doneCount := doneCount checklist;
           notDoneCount := notDoneCount checklist;
           naCount := naCount checklist;
           totalTasks := totalTasks checklist;
           startedAt := startedAt checklist;
           lastModifiedAt := now;
           submittedAt := submittedAt checklist;
           approvedAt := Some now;
           syncedAt := syncedAt checklist;
           shiftNotes := shiftNotes';
           forceClosedBy := forceClosedBy checklist |} in
      let* _ := put_checklist updatedChecklist in
      update (with_page (fun _ =>
        {| page_checklist := Some updatedChecklist;
           page_showManagerAuth := false;
           page_route := Some "/" |}))
  end.

(** [handleVerifyPin] of the modal, with [verifyPin = verifyManagerPin]
    and [onSuccess = handleManagerApprove] as the page wires them. The
    modal's own display state (step, countdown, message) is not kept. *)
Definition handleVerifyPin (selectedManager : option StaffRecord)
    (pinValue shiftNotes' : string) : Js unit :=
  match selectedManager with
  | None => ret tt
  | Some selected =>
      try_catch
        (let* result := verifyManagerPin (staff_id selected) pinValue in
         if success result then
           handleManagerApprove (staff_id selected) (staff_name selected)
             (if String.eqb shiftNotes' "" then None else Some shiftNotes')
         else ret tt)
        (fun _ => ret tt)
  end.

End ChecklistPage.
Import ChecklistPage.

(* ===================================================================== *)
(** ** Session store, the remaining actions (useSessionStore.ts) *)
(* ===================================================================== *)

Module SessionActions.

(** [new Error (message)] thrown by the store's own checks. *)
Definition Error (message : string) : JsError := OtherError message.

Definition get_checklist (checklistId : string)
  : Js (option ChecklistInstance) :=
  read (fun w => tbl_checklists (db w) !! checklistId).

Definition set_loading (l : bool) : Js unit :=
  update (with_session (fun s =>
    {| currentChecklist := currentChecklist s; isLoading := l;
       error := error s; otherDeviceSessions := otherDeviceSessions s |})).

Definition resumeChecklist (checklistId : string) : Js unit :=
  let* _ := set_loading_error true None in
  try_catch
    (let* found := get_checklist checklistId in
     match found with
     | None => throw (Error "Checklist not found")
     | Some checklist =>
         let* deviceId' := getDeviceId in
         if negb (bool_decide (deviceId checklist = deviceId')) then
           throw (Error "This checklist belongs to another device")
         else set_currentChecklist_loading (Some checklist) false
     end)
    (fun e => set_loading_error false (Some (error_message e))).

(** [{...currentChecklist, status: 'pending_review', submittedAt: now,
    lastModifiedAt: now}] *)
Definition submitted_checklist (c : ChecklistInstance) (now : Timestamp)
  : ChecklistInstance :=
  {| cl_id := cl_id c; templateId := templateId c;
     templateName := templateName c; status := pending_review;
     startedBy := startedBy c; manager := manager c;
     contributors := contributors c; deviceId := deviceId c;
     tasks := tasks c; completionPercentage := completionPercentage c;
     doneCount := doneCount c; notDoneCount := notDoneCount c;
     naCount := naCount c; totalTasks := totalTasks c;
     startedAt := startedAt c; lastModifiedAt := now;
     submittedAt := Some now; approvedAt := approvedAt c;
     syncedAt := syncedAt c; shiftNotes := shiftNotes c;
     forceClosedBy := forceClosedBy c |}.

Definition submitForReview : Js unit :=
  let* current := read (fun w => currentChecklist (session w)) in
  match current with
  | None => set_error (Some "No active checklist")
  | Some currentChecklist =>
      try_catch
        (let* now := Date_now in
         let updatedChecklist := submitted_checklist currentChecklist now in
         let* _ := put_checklist updatedChecklist in
         (* [currentChecklist.startedBy.id], read while the argument of
            [logAuditEntry] is built *)
         let* performedBy :=
           match startedBy currentChecklist with
           | Some staff => ret (ref_id staff)
           | None => throw (TypeError "Cannot read properties of undefined")
           end in
         let* _ := logAuditEntry
           {| in_action := checklist_submitted;
              in_entityId := cl_id currentChecklist;
              in_entityType := entity_checklist;
              in_performedBy := Some performedBy;
              in_details :=
                [("completionPercentage",
                  pretty (completionPercentage currentChecklist))] |} in
         set_currentChecklist (Some updatedChecklist))
        (fun e => set_error (Some (error_message e)))
  end.

Definition clearSession : Js unit :=
  update (with_session (fun s =>
    {| currentChecklist := None; isLoading := isLoading s; error := None;
       otherDeviceSessions := otherDeviceSessions s |})).

(** [{...checklist, status: 'sync_failed', lastModifiedAt: now,
    forceClosedBy: {manager, reason, closedAt: now}}] *)
Definition closed_checklist (c : ChecklistInstance) (by_manager : StaffReference)
    (reason : string) (now : Timestamp) : ChecklistInstance :=
  {| cl_id := cl_id c; templateId := templateId c;
     templateName := templateName c; status := sync_failed;
     startedBy := startedBy c; manager := manager c;
     contributors := contributors c; deviceId := deviceId c;
     tasks := tasks c; completionPercentage := completionPercentage c;
     doneCount := doneCount c; notDoneCount := notDoneCount c;
     naCount := naCount c; totalTasks := totalTasks c;
     startedAt := startedAt c; lastModifiedAt := now;
     submittedAt := submittedAt c; approvedAt := approvedAt c;
     syncedAt := syncedAt c; shiftNotes := shiftNotes c;
     forceClosedBy := Some {| fc_manager := by_manager; fc_reason := reason;
                              fc_closedAt := now |} |}.

Definition forceCloseSession (checklistId : string)
    (by_manager : StaffReference) (reason : string) : Js unit :=
  try_catch
    (let* found := get_checklist checklistId in
     match found with
     | None => throw (Error "Checklist not found")
     | Some checklist =>
         let* now := Date_now in
         let updatedChecklist :=
           closed_checklist checklist by_manager reason now in
         let* _ := put_checklist updatedChecklist in
         let* _ := logAuditEntry
           {| in_action := session_force_closed;
              in_entityId := checklistId;
              in_entityType := entity_checklist;
              in_performedBy := Some (ref_id by_manager);
              in_details := [("reason", reason)] |} in
         let* current := read (fun w => currentChecklist (session w)) in
         if bool_decide (cl_id <$> current = Some checklistId)
         then set_currentChecklist None
         else ret tt
     end)
    (fun e => set_error (Some (error_message e))).

Definition loadFromDb (checklistId : string) : Js unit :=
  let* _ := set_loading true in
  try_catch
    (let* found := get_checklist checklistId in
     set_currentChecklist_loading found false)
    (fun e => set_loading_error false (Some (error_message e))).

Definition persistToDb : Js unit :=
  let* current := read (fun w => currentChecklist (session w)) in
  match current with
  | Some currentChecklist => put_checklist currentChecklist
  | None => ret tt
  end.

End SessionActions.
Import SessionActions.

(* ===================================================================== *)
(** ** PIN security, the remaining functions (lib/utils/pinSecurity.ts) *)
(* ===================================================================== *)

Module PinAdmin.

Definition is_digit (c : Ascii.ascii) : bool :=
  let n := Ascii.nat_of_ascii c in (48 <=? n)%nat && (n <=? 57)%nat.

(** [/^\d{4}$/.test (pin)]: exactly four characters, each one of 0-9. *)
Definition isValidPinFormat (pin : string) : bool :=
  match pin with
  | String a (String b (String c (String d EmptyString))) =>
      is_digit a && is_digit b && is_digit c && is_digit d
  | _ => false
  end.

(** [{pinHash: hashedPin, failedAttempts: 0, lockedUntil: undefined}] *)
Definition set_pin (hashedPin : string) (r : StaffRecord) : StaffRecord :=
  {| staff_id := staff_id r; staff_name := staff_name r;
     staff_role_of := staff_role_of r; staff_active := staff_active r;
     staff_createdAt := staff_createdAt r;
     staff_deactivatedAt := staff_deactivatedAt r;
     staff_pinHash := Some hashedPin;
     staff_failedAttempts := Some 0;
     staff_lockedUntil := None |}.

Definition setupManagerPin (managerId pin : string) : Js bool :=
  try_catch
    (if negb (isValidPinFormat pin) then
       throw (OtherError "PIN must be exactly 4 digits")
     else
       let* hashedPin := hashPin managerId pin in
       let* _ := update_staff managerId (set_pin hashedPin) in
       ret true)
    (fun _ => ret false).

Definition resetManagerPin (managerId newPin : string) : Js bool :=
  try_catch
    (if negb (isValidPinFormat newPin) then ret false
     else
       let* hashedPin := hashPin managerId newPin in
       let* _ := update_staff managerId (set_pin hashedPin) in
       ret true)
    (fun _ => ret false).

Record ChangePinResult := {
  change_success : bool;
  change_error : option string;
}.

Definition changeManagerPin (managerId currentPin newPin : string)
  : Js ChangePinResult :=
  let* verification := verifyManagerPin managerId currentPin in
  if negb (success verification) then
    ret {| change_success := false;
           change_error :=
             Some (match pin_error verification with
                   | Some account_locked => "Account is locked. Please wait."
                   | _ => "Current PIN is incorrect."
                   end) |}
  else if negb (isValidPinFormat newPin) then
    ret {| change_success := false;
           change_error := Some "New PIN must be exactly 4 digits." |}
  else
    let* ok := setupManagerPin managerId newPin in
    ret {| change_success := ok;
           change_error := if ok then None else Some "Failed to update PIN." |}.

Record LockReport := {
  locked : bool;
  remainingSeconds : option Z;
}.

Definition isManagerLocked (managerId : string) : Js LockReport :=
  try_catch
    (let* found := read (fun w => tbl_staff (db w) !! managerId) in
     match found ≫= staff_lockedUntil with
     | None => ret {| locked := false; remainingSeconds := None |}
     | Some lockExpiry =>
         let* now := Date_now in
         if now <? lockExpiry then
           ret {| locked := true;
                  remainingSeconds := Some (ceil_div (lockExpiry - now) 1000) |}
         else ret {| locked := false; remainingSeconds := None |}
     end)
    (fun _ => ret {| locked := false; remainingSeconds := None |}).

End PinAdmin.
Import PinAdmin.

(* ===================================================================== *)
(** ** Home page (app/page.tsx, loadActiveChecklists) *)
(* ===================================================================== *)

Module HomePage.

(** [db.checklists.where('status').anyOf(['in_progress', 'pending_review'])]:
    the index is walked key by key, [in_progress] before [pending_review],
    and under one key in the order of the primary keys. *)
Definition anyOf_active (tbl : gmap string ChecklistInstance)
  : list ChecklistInstance :=
  (List.filter (fun c => bool_decide (status c = in_progress)) (toArray tbl)
   ++ List.filter (fun c => bool_decide (status c = pending_review))
        (toArray tbl))%list.

(** The body of the [forEach]: keep the instance when its template has none
    yet or a strictly older one. *)
Definition keep_most_recent (byTemplate : gmap string ChecklistInstance)
    (c : ChecklistInstance) : gmap string ChecklistInstance :=
  match byTemplate !! TemplateId_string (templateId c) with
  | None => <[TemplateId_string (templateId c) := c]> byTemplate
  | Some kept =>
      if lastModifiedAt kept <? lastModifiedAt c
      then <[TemplateId_string (templateId c) := c]> byTemplate
      else byTemplate
  end.

Definition loadActiveChecklists (tbl : gmap string ChecklistInstance)
  : gmap string ChecklistInstance :=
  foldl keep_most_recent ∅ (anyOf_active tbl).

End HomePage.
Import HomePage.

(* ===================================================================== *)
(** ** Checklist page: progress and the submit gate
       (app/checklist/[templateId]/page.tsx) *)
(* ===================================================================== *)

Module PageProgress.

(** [const isComplete = checklist.completionPercentage === 100;]: what
    enables the submit button. *)
Definition isComplete (checklist : ChecklistInstance) : bool :=
  completionPercentage checklist =? 100.

(** The body of the [forEach] in [getSectionProgress]. *)
Definition count_settled (checklist : ChecklistInstance) (n : Z)
    (task : DutyTask) : Z :=
  match tasks checklist !! task_id task with
  | Some completion =>
      if bool_decide (tc_status completion = done)
         || bool_decide (tc_status completion = na)
      then n + 1 else n
  | None => n
  end.

(** [getSectionProgress (sectionId)], the object [{done, total}] as a
    pair. *)
Definition getSectionProgress (template : option DutyTemplate)
    (checklist : option ChecklistInstance) (sectionId : string) : Z * Z :=
  match template, checklist with
  | Some template', Some checklist' =>
      match List.find (fun s => String.eqb (sec_id s) sectionId)
                      (tpl_sections template') with
      | None => (0, 0)
      | Some section =>
          (foldl (count_settled checklist') 0 (sec_tasks section),
           Z.of_nat (length (sec_tasks section)))
      end
  | _, _ => (0, 0)
  end.

End PageProgress.
Import PageProgress.

(* ===================================================================== *)
(** ** Notions used to state the properties of these functions *)
(* ===================================================================== *)

(** The [checklists] table has the inbound key [&id]: a record is stored
    under its own [id]. *)
Definition table_keyed (tbl : gmap string ChecklistInstance) : Prop :=
  forall k c, tbl !! k = Some c -> cl_id c = k.

(** The counter that a status feeds. *)
Definition count_of (s : TaskCompletionStatus) (st : CompletionStats) : Z :=
  match s with
  | done => stats_doneCount st
  | not_done => stats_notDoneCount st
  | na => stats_naCount st
  end.

(** How many entries of a list have a given status. *)
Definition status_count (s : TaskCompletionStatus) (l : list TaskCompletion)
  : Z :=
  Z.of_nat (length (filter (fun t => tc_status t = s) l)).

(** The counter of an instance that a status feeds. *)
Definition counter_of (s : TaskCompletionStatus) (c : ChecklistInstance) : Z :=
  match s with
  | done => doneCount c
  | not_done => notDoneCount c
  | na => naCount c
  end.

(** 1 when the two statuses are the same, else 0. *)
Definition unit_if (s s' : TaskCompletionStatus) : Z :=
  if bool_decide (s = s') then 1 else 0.

(** The fields of a staff record that PIN verification does not write. *)
Definition identity_and_pin (r : StaffRecord) :=
  (staff_id r, staff_name r, staff_role_of r, staff_active r,
   staff_createdAt r, staff_deactivatedAt r, staff_pinHash r).

(* ===================================================================== *)
(** ** Vocabulary of the specification, and sample data *)
(* ===================================================================== *)

(** The counters kept on an instance agree with its own task map: their sum
    is [totalTasks] and the percentage is the specified rounding. *)
Definition counters_consistent (c : ChecklistInstance) : Prop :=
  doneCount c + notDoneCount c + naCount c = totalTasks c
  /\ completionPercentage c
     = spec_completionPercentage (doneCount c) (totalTasks c) (naCount c).

(** The instances that the session store writes: the one [startChecklist]
    assembles and the one [updateTask] assembles. *)
Inductive produced_by_store : ChecklistInstance -> Prop :=
  | produced_by_start template tid staff dev id now :
      produced_by_store (new_checklist template tid staff dev id now)
  | produced_by_update c taskId st note inputValue now :
      produced_by_store (updated_checklist c taskId st note inputValue now).

(** The lockout machine of the PIN authenticator in the words of the
    specification. [Locked]: before [until] answer [account_locked] with the
    remaining seconds and consume no attempt; from [until] on, move to
    [Unlocked 0] and evaluate. [Unlocked]: a match resets to [Unlocked 0];
    a mismatch adds one failed attempt, locks for five minutes with 300
    seconds remaining once the count reaches 3, and otherwise answers
    [invalid_pin] with [3 - failedAttempts] attempts remaining. [now] is the
    clock reading of the lock check and [now'] the reading taken when the
    lock is set. *)
Definition spec_verify (st : LockState) (now now' : Timestamp) (matches : bool)
  : LockState * PinVerificationResult :=
  let from_unlocked (n : Z) :=
    if matches then
      (Unlocked 0,
       {| success := true; pin_error := None; lockoutRemaining := None;
          attemptsRemaining := None |})
    else if 3 <=? n + 1 then
      (Locked (now' + 300000),
       {| success := false; pin_error := Some account_locked;
          lockoutRemaining := Some 300; attemptsRemaining := None |})
    else
      (Unlocked (n + 1),
       {| success := false; pin_error := Some invalid_pin;
          lockoutRemaining := None; attemptsRemaining := Some (3 - (n + 1)) |})
  in
  match st with
  | Locked until =>
      if now <? until then
        (Locked until,
         {| success := false; pin_error := Some account_locked;
            lockoutRemaining := Some (ceil_div (until - now) 1000);
            attemptsRemaining := None |})
      else from_unlocked 0
  | Unlocked n => from_unlocked n
  end.

(** Whether the PIN entered hashes, with the salt of the device
    configuration, to the digest stored on the manager record. *)
Definition pin_matches (w : World) (cfg : DeviceConfig) (r : StaffRecord)
    (managerId pin : string) : bool :=
  bool_decide
    (Some (sha256_hex (platform w)
             (dc_pinSalt cfg ++ ":" ++ managerId ++ ":" ++ pin)%string)
     = staff_pinHash r).

(** A stored instance counts as an active session of a template. *)
Definition active_for (tid : TemplateId) (c : ChecklistInstance) : Prop :=
  templateId c = tid /\ (status c = in_progress \/ status c = pending_review).

Module Sample.

Definition alice : StaffReference :=
  {| ref_id := "staff-1"; ref_name := "Alice"; ref_role := staff_role |}.

(** A platform with a stand-in digest; [modern] says whether
    [crypto.randomUUID] is there. The clock starts at 1000000 ms and
    advances by one second per reading. *)
Definition host (modern : bool) : Platform :=
  {| has_randomUUID := modern;
     sha256_hex := fun data => ("sha256(" ++ data ++ ")")%string;
     random_ids := fun n => ("uuid-" ++ pretty n)%string;
     clock := fun n => 1000000 + 1000 * Z.of_nat n;
     stack_limit := 1000;
     app_version := "1.0.0" |}.

Definition device_A : DeviceConfig :=
  {| dc_deviceId := "device-A"; dc_pinSalt := "salt-A";
     dc_installedAt := 0; dc_appVersion := "1.0.0" |}.

(** A manager whose PIN is 4821, in the given lockout state. *)
Definition manager_with (attempts : option Z) (until : option Timestamp)
  : StaffRecord :=
  {| staff_id := "mgr-1"; staff_name := "Morgan";
     staff_role_of := manager_role; staff_active := true;
     staff_createdAt := 0; staff_deactivatedAt := None;
     staff_pinHash := Some "sha256(salt-A:mgr-1:4821)";
     staff_failedAttempts := attempts; staff_lockedUntil := until |}.

Definition task (id : string) (s : TaskCompletionStatus) : TaskCompletion :=
  {| tc_taskId := id; tc_status := s; tc_completedAt := None;
     tc_note := None; tc_inputValue := None; tc_completedBy := None |}.

(** Ten tasks: eight done, two not applicable. *)
Definition ten_tasks : gmap string TaskCompletion :=
  list_to_map
    [ ("t1", task "t1" done); ("t2", task "t2" done); ("t3", task "t3" done);
      ("t4", task "t4" done); ("t5", task "t5" done); ("t6", task "t6" done);
      ("t7", task "t7" done); ("t8", task "t8" done); ("t9", task "t9" na);
      ("t10", task "t10" na) ].

Definition checklist_of (id : string) (tid : TemplateId) (st : ChecklistStatus)
    (device : string) (modified : Timestamp) : ChecklistInstance :=
  {| cl_id := id; templateId := tid; templateName := "Checklist";
     status := st; startedBy := Some alice; manager := None;
     contributors := None;
     deviceId := device; tasks := ten_tasks; completionPercentage := 100;
     doneCount := 8; notDoneCount := 0; naCount := 2; totalTasks := 10;
     startedAt := 500; lastModifiedAt := modified; submittedAt := None;
     approvedAt := None; syncedAt := None; shiftNotes := None;
     forceClosedBy := None |}.

Definition ten_of_ten : ChecklistInstance :=
  checklist_of "chk-1" closing in_progress "device-A" 900.

Definition store (staff : list StaffRecord) (checklists : list ChecklistInstance)
    (config : option DeviceConfig) : Db :=
  {| tbl_staff := list_to_map (map (fun r => (staff_id r, r)) staff);
     tbl_checklists := list_to_map (map (fun c => (cl_id c, c)) checklists);
     tbl_submissions := ∅;
     tbl_deviceConfig :=
       match config with
       | Some c => {[ "device_config" := c ]}
       | None => ∅
       end;
     tbl_auditLog := ∅ |}.

Definition world (modern : bool) (d : Db) (current : option ChecklistInstance)
  : World :=
  {| db := d;
     session := {| currentChecklist := current; isLoading := false;
                   error := None; otherDeviceSessions := [] |};
     page := {| page_checklist := current; page_showManagerAuth := true;
                page_route := None |};
     platform := host modern; ids_drawn := 0; clock_reads := 0 |}.

(** The device is configured, and the checklist [chk-1] is open. *)
Definition open_world : World :=
  world true (store [manager_with (Some 0) None] [ten_of_ten] (Some device_A))
        (Some ten_of_ten).

(** The device is configured and no checklist exists yet. *)
Definition fresh_world (modern : bool) : World :=
  world modern (store [manager_with (Some 0) None] [] (Some device_A)) None.

(** The manager was locked out until 1000 ms, which has passed. *)
Definition expired_lock_world : World :=
  world true (store [manager_with (Some 3) (Some 1000)] [] (Some device_A)) None.

(** Three stored instances of the closing template: an older one of this
    device, a newer one of another device, and an approved one that is newer
    still; and one of another template. *)
Definition contended_world : World :=
  world true
    (store [manager_with (Some 0) None]
       [ checklist_of "chk-1" closing in_progress "device-A" 900;
         checklist_of "chk-2" closing pending_review "device-B" 1500;
         checklist_of "chk-3" closing approved "device-A" 2000;
         checklist_of "chk-4" pass_opening in_progress "device-A" 3000 ]
       (Some device_A))
    None.

(** Stand-in renderings. *)
Definition plain_dates : DateApi :=
  {| day_name := fun _ => Some "Monday"; time_hh_mm := fun _ => "08:00";
     number_text := fun x => pretty (Math_round x) |}.

Definition person (id name role : string) : Json :=
  JObject [("id", JString id); ("name", JString name); ("role", JString role)].

(** The members of a complete snapshot, the last one being [deviceId]. *)
Definition snapshot_members : list (string * Json) :=
  [ ("date", JString "2025-01-31"); ("area", JString "Closing");
    ("templateName", JString "Closing Checklist");
    ("templateId", JString "closing");
    ("staff", person "staff-1" "Alice" "staff");
    ("manager", person "mgr-1" "Morgan" "manager");
    ("completionPercentage", JNumber 100); ("doneCount", JNumber 8);
    ("notDoneCount", JNumber 0); ("naCount", JNumber 2);
    ("totalTasks", JNumber 10);
    ("startedAt", JString "2025-01-31T21:00:00.000Z");
    ("submittedAt", JString "2025-01-31T22:30:00.000Z");
    ("approvedAt", JString "2025-01-31T22:31:00.000Z");
    ("tasks", JObject []);
    ("deviceId", JString "device-A") ].

Definition complete_body : Json :=
  JObject [("submissionId", JString "sub-1");
           ("snapshot", JObject snapshot_members)].

(** The same request with the progress of an earlier attempt attached. *)
Definition retry_body : Json :=
  JObject [("submissionId", JString "sub-1");
           ("status", JString "sheets_done");
           ("pdfStatus", JString "uploaded");
           ("sheetsRowId", JString "row-7");
           ("snapshot", JObject snapshot_members)].

(** A request whose snapshot lacks [deviceId]. *)
Definition body_without_deviceId : Json :=
  JObject [("submissionId", JString "sub-1");
           ("snapshot", JObject (removelast snapshot_members))].

End Sample.

Module Scenario.
Import Sample.

(** A platform without [crypto.randomUUID], the device configured, the
    checklist [chk-1] open. *)
Definition legacy_open_world : World :=
  world false (store [manager_with (Some 0) None] [ten_of_ten] (Some device_A))
        (Some ten_of_ten).

(** The manager is locked out until 2000000 ms; the clock reads 1000000. *)
Definition locked_world : World :=
  world true (store [manager_with (Some 3) (Some 2000000)] [] (Some device_A))
        None.

Definition bob : StaffRecord :=
  {| staff_id := "staff-2"; staff_name := "Bob"; staff_role_of := staff_role;
     staff_active := true; staff_createdAt := 0; staff_deactivatedAt := None;
     staff_pinHash := None; staff_failedAttempts := None;
     staff_lockedUntil := None |}.

(** A manager and a staff member; no checklist. *)
Definition staffed_world : World :=
  world true (store [manager_with (Some 0) None; bob] [] (Some device_A)) None.

(** A platform without [crypto.randomUUID] on which the application has
    not run yet: no device configuration. *)
Definition unconfigured_legacy_world : World :=
  world false (store [manager_with (Some 0) None] [] None) None.

Definition morgan : StaffReference :=
  {| ref_id := "mgr-1"; ref_name := "Morgan"; ref_role := manager_role |}.

(** A snapshot whose [staff] is [null]; every required name is present. *)
Definition null_staff_body : Json :=
  JObject [("submissionId", JString "sub-2");
           ("snapshot",
            JObject (snapshot_members ++ [("staff", JNull)])%list)].

(** A complete snapshot whose [doneCount] is an object with a member
    [toString]: every required name is present. *)
Definition odd_counter_body : Json :=
  JObject [("submissionId", JString "sub-3");
           ("snapshot",
            JObject (snapshot_members
                     ++ [("doneCount",
                          JObject [("toString", JNumber 1)])])%list)].

(** A pass-opening checklist as the store starts it, with the given
    tasks then marked [done] one after the other. *)
Definition pass_opening_with_done (ids : list string) : ChecklistInstance :=
  foldl (fun c id => updated_checklist c id done None None 2000)
        (new_checklist PASS_OPENING_TEMPLATE pass_opening alice "device-A"
                       "chk-9" 1000)
        ids.

(** The record that the checklist page puts for a new floor-opening
    checklist: the person is stored under [staff], there is no [startedBy];
    every task is [not_done]. *)
Definition page_written : ChecklistInstance :=
  {| cl_id := "chk-7"; templateId := floor_opening;
     templateName := tpl_name FLOOR_OPENING_TEMPLATE; status := in_progress;
     startedBy := None; manager := None; contributors := None;
     deviceId := "device-A";
     tasks := Object_fromEntries
                (map (blank_task not_done)
                     (getAllTaskIds FLOOR_OPENING_TEMPLATE));
     completionPercentage := 0; doneCount := 0;
     notDoneCount := Z.of_nat (length (getAllTaskIds FLOOR_OPENING_TEMPLATE));
     naCount := 0; totalTasks := tpl_totalTasks FLOOR_OPENING_TEMPLATE;
     startedAt := 700; lastModifiedAt := 700; submittedAt := None;
     approvedAt := None; syncedAt := None; shiftNotes := None;
     forceClosedBy := None |}.

(** That record is the only checklist stored, and it is open. *)
Definition page_world : World :=
  world true (store [manager_with (Some 0) None] [page_written] (Some device_A))
        (Some page_written).



(** The first 32 of the 34 pass-opening tasks are done. *)
Definition thirty_two_done : ChecklistInstance :=
  updated_checklist
    (pass_opening_with_done (take 31 (getAllTaskIds PASS_OPENING_TEMPLATE)))
    (default "" (getAllTaskIds PASS_OPENING_TEMPLATE !! 31%nat))
    done None None 2000.

End Scenario.

(* ===================================================================== *)
(** * Properties *)
(* ===================================================================== *)

(** ** Completion statistics *)

Lemma tally_total (l : list TaskCompletion) (d n a : Z) :
  let '(d', n', a') := foldl tally (d, n, a) l in
  d' + n' + a' = d + n + a + Z.of_nat (length l).
Proof.
  revert d n a. induction l as [|t l IH]; intros d n a.
  - simpl. lia.
  - cbn [foldl length]. rewrite Nat2Z.inj_succ.
    unfold tally at 2. destruct (tc_status t).
    + specialize (IH (d + 1) n a).
      destruct (foldl tally (d + 1, n, a) l) as [[d' n'] a']. lia.
    + specialize (IH d (n + 1) a).
      destruct (foldl tally (d, n + 1, a) l) as [[d' n'] a']. lia.
    + specialize (IH d n (a + 1)).
      destruct (foldl tally (d, n, a + 1) l) as [[d' n'] a']. lia.
Qed.

Lemma stats_counts_sum (tasks : gmap string TaskCompletion) (total : Z) :
  let s := calculateCompletionStats tasks total in
  stats_doneCount s + stats_notDoneCount s + stats_naCount s
  = Z.of_nat (size tasks).
Proof.
  unfold calculateCompletionStats.
  pose proof (tally_total (Object_values tasks) 0 0 0) as H.
  destruct (foldl tally (0, 0, 0) (Object_values tasks)) as [[d n] a].
  simpl. unfold Object_values in H.
  rewrite length_fmap, length_map_to_list in H. lia.
Qed.

Lemma tally_nonneg (l : list TaskCompletion) (d n a : Z) :
  0 <= d -> 0 <= n -> 0 <= a ->
  let '(d', n', a') := foldl tally (d, n, a) l in
  0 <= d' /\ 0 <= n' /\ 0 <= a'.
Proof.
  revert d n a. induction l as [|t l IH]; intros d n a Hd Hn Ha.
  - simpl. auto.
  - cbn [foldl]. unfold tally at 2.
    destruct (tc_status t); apply IH; lia.
Qed.

Lemma stats_counts_nonneg (m : gmap string TaskCompletion) (total : Z) :
  let s := calculateCompletionStats m total in
  0 <= stats_doneCount s /\ 0 <= stats_notDoneCount s /\ 0 <= stats_naCount s.
Proof.
  unfold calculateCompletionStats.
  pose proof (tally_nonneg (Object_values m) 0 0 0) as H.
  destruct (foldl tally (0, 0, 0) (Object_values m)) as [[d n] a].
  simpl. apply H; lia.
Qed.

(** Instances written by the store carry the statistics of their own map. *)
Lemma produced_counters (c : ChecklistInstance) :
  produced_by_store c ->
  let s := calculateCompletionStats (tasks c) (totalTasks c) in
  doneCount c = stats_doneCount s /\ notDoneCount c = stats_notDoneCount s
  /\ naCount c = stats_naCount s
  /\ completionPercentage c = stats_completionPercentage s.
Proof. intros [? ? ? ? ? ?|? ? ? ? ? ?]; simpl; auto. Qed.

(** With at most 49 tasks marked done and at most 39 applicable (the range
    of the shipped templates and beyond) the binary64 computation is the
    exact round-half-up of [100 * d / a]. *)
Lemma percentage_exact_on_template_range (d a : Z) :
  0 <= d <= 49 -> 1 <= a <= 39 ->
  Math_round ((of_Z d / of_Z a) * 100)%float = exact_percentage d a.
Proof.
  intros Hd Ha.
  assert (Hall : forallb (fun d' => forallb (fun a' =>
            Math_round ((of_Z d' / of_Z a') * 100)%float
            =? exact_percentage d' a') (seqZ 1 39)) (seqZ 0 50) = true)
    by (vm_compute; reflexivity).
  rewrite forallb_forall in Hall.
  assert (Hd' : In d (seqZ 0 50)) by (apply list_elem_of_In, elem_of_seqZ; lia).
  specialize (Hall d Hd'). rewrite forallb_forall in Hall.
  assert (Ha' : In a (seqZ 1 39)) by (apply list_elem_of_In, elem_of_seqZ; lia).
  specialize (Hall a Ha'). lia.
Qed.

(** At 40 applicable tasks the two part: 23 of 40 gives
    57.499999999999993 in binary64, hence 57, where the exact quotient 57.5
    rounds to 58. *)
Example percentage_binary64_at_23_of_40 :
  Math_round ((of_Z 23 / of_Z 40) * 100)%float = 57
  /\ exact_percentage 23 40 = 58.
Proof. split; vm_compute; reflexivity. Qed.

(** On that range the computed percentage is the specified rounding. *)
Lemma stats_percentage (tasks : gmap string TaskCompletion) (total : Z) :
  Z.of_nat (size tasks) <= 49 -> total <= 39 ->
  let s := calculateCompletionStats tasks total in
  stats_completionPercentage s
  = spec_completionPercentage (stats_doneCount s) total (stats_naCount s).
Proof.
  intros Hsize Htotal.
  pose proof (stats_counts_sum tasks total) as Hsum.
  pose proof (stats_counts_nonneg tasks total) as (Hd & Hn & Ha).
  cbv zeta in *. revert Hsum Hd Hn Ha.
  unfold calculateCompletionStats, spec_completionPercentage.
  destruct (foldl tally (0, 0, 0) (Object_values tasks)) as [[d n] a].
  cbn [stats_doneCount stats_notDoneCount stats_naCount
       stats_completionPercentage].
  intros Hsum Hd Hn Ha.
  destruct (Z.ltb_spec 0 (total - a)), (Z.ltb_spec a total); try lia;
    try reflexivity.
  apply percentage_exact_on_template_range; lia.
Qed.

(** An instance written by the store whose map holds [totalTasks] entries,
    at most 39, has consistent counters. *)
Lemma produced_consistent (c : ChecklistInstance) :
  produced_by_store c -> Z.of_nat (size (tasks c)) = totalTasks c ->
  totalTasks c <= 39 ->
  counters_consistent c.
Proof.
  intros Hc Hsize Hbound.
  destruct (produced_counters c Hc) as (Hd & Hn & Ha & Hp).
  unfold counters_consistent. rewrite Hd, Hn, Ha, Hp. split.
  - rewrite <- Hsize. apply stats_counts_sum.
  - apply stats_percentage; lia.
Qed.



(** The same on an instance started from a shipped template: the first 32
    of the 34 pass-opening tasks done, [totalTasks] being 32. The counters
    sum to 34, and the percentage is the specified rounding of 32 of 32. *)
Example completion_stats_of_thirty_two_done :
  let c := Scenario.thirty_two_done in
  doneCount c + notDoneCount c + naCount c = Z.of_nat (size (tasks c))
  /\ (Z.of_nat (size (tasks c)), totalTasks c) = (34, 32)
  /\ completionPercentage c
     = spec_completionPercentage (doneCount c) (totalTasks c) (naCount c).
Proof.
  cbv zeta.
  assert (Hcount : Z.of_nat (size (tasks Scenario.thirty_two_done)) = 34)
    by (vm_compute; reflexivity).
  destruct (produced_counters Scenario.thirty_two_done
              (produced_by_update _ _ _ _ _ _)) as (Hd & Hn & Ha & Hp).
  rewrite Hd, Hn, Ha, Hp. split; [apply stats_counts_sum|].
  split; [by rewrite Hcount|].
  apply stats_percentage; [lia|vm_compute; discriminate].
Qed.


(** The end-to-end example of the specification: ten tasks, eight done and
    two not applicable. *)
Example ten_tasks_statistics :
  calculateCompletionStats Sample.ten_tasks 10
  = {| stats_doneCount := 8; stats_notDoneCount := 0; stats_naCount := 2;
       stats_completionPercentage := 100 |}.
Proof. vm_compute; reflexivity. Qed.

(** ** updateTask *)

(** What [updateTask] does when a checklist is open: it reads the clock
    once, writes the updated instance under the checklist id and makes it
    the current checklist; nothing else changes and no error is set. *)
Lemma updateTask_writes (w : World) (c : ChecklistInstance) (taskId : string)
    (st : TaskCompletionStatus) (note : option string)
    (inputValue : option float) :
  currentChecklist (session w) = Some c ->
  let now := clock (platform w) (clock_reads w) in
  let c' := updated_checklist c taskId st note inputValue now in
  let w' := (updateTask taskId st note inputValue w).2 in
  (updateTask taskId st note inputValue w).1 = Returned tt
  /\ tbl_checklists (db w') = <[cl_id c := c']> (tbl_checklists (db w))
  /\ currentChecklist (session w') = Some c'
  /\ error (session w') = error (session w)
  /\ tbl_submissions (db w') = tbl_submissions (db w)
  /\ tbl_auditLog (db w') = tbl_auditLog (db w).
Proof.
  intros Hc. unfold updateTask, bind, read. rewrite Hc.
  cbn. repeat split; reflexivity.
Qed.

Lemma updateTask_without_checklist (w : World) (taskId : string)
    (st : TaskCompletionStatus) (note : option string)
    (inputValue : option float) :
  currentChecklist (session w) = None ->
  let w' := (updateTask taskId st note inputValue w).2 in
  db w' = db w /\ error (session w') = Some "No active checklist".
Proof.
  intros Hc. unfold updateTask, bind, read. rewrite Hc.
  cbn. destruct w as [d ? ? ? ? ?], d; split; reflexivity.
Qed.

(** The instance that [updateTask] writes is one of [produced_by_store],
    and its task map keeps its size when the task was already there. *)
Lemma updated_checklist_size (c : ChecklistInstance) (taskId : string)
    (st : TaskCompletionStatus) (note : option string)
    (inputValue : option float) (now : Timestamp) :
  is_Some (tasks c !! taskId) ->
  size (tasks (updated_checklist c taskId st note inputValue now))
  = size (tasks c).
Proof. intros H. simpl. by apply map_size_insert_Some. Qed.

(** Updating a task that the checklist already lists keeps the counters
    consistent with a map of [totalTasks] entries, at most 39. *)
Lemma updateTask_keeps_counters_consistent (w : World) (c : ChecklistInstance)
    (taskId : string) (st : TaskCompletionStatus) (note : option string)
    (inputValue : option float) :
  currentChecklist (session w) = Some c ->
  Z.of_nat (size (tasks c)) = totalTasks c ->
  totalTasks c <= 39 ->
  is_Some (tasks c !! taskId) ->
  exists c',
    currentChecklist (session (updateTask taskId st note inputValue w).2)
    = Some c'
    /\ counters_consistent c'.
Proof.
  intros Hc Hsize Hbound Hin.
  destruct (updateTask_writes w c taskId st note inputValue Hc)
    as (_ & _ & Hcur & _).
  eexists. split; [exact Hcur|].
  apply produced_consistent; [constructor| |exact Hbound].
  rewrite updated_checklist_size by done. exact Hsize.
Qed.

(** A task id that the checklist does not list is added to the map, and
    the sum of the counters then exceeds [totalTasks] by one. *)
Lemma updateTask_unlisted_task (c : ChecklistInstance) (taskId : string)
    (st : TaskCompletionStatus) (note : option string)
    (inputValue : option float) (now : Timestamp) :
  tasks c !! taskId = None ->
  Z.of_nat (size (tasks c)) = totalTasks c ->
  let c' := updated_checklist c taskId st note inputValue now in
  doneCount c' + notDoneCount c' + naCount c' = totalTasks c' + 1.
Proof.
  intros Hnone Hsize c'.
  destruct (produced_counters c' (produced_by_update c taskId st note inputValue now))
    as (Hd & Hn & Ha & _).
  rewrite Hd, Hn, Ha, stats_counts_sum. subst c'. simpl.
  rewrite map_size_insert_None by done. lia.
Qed.

(** C10. For every [updateTask] call on an open checklist, whatever the new
    status, the stored task entry has [completedAt] set to the time of the
    update and [completedBy] set to the checklist's [startedBy]; the call
    takes no staff argument, so no other completer can be recorded. *)
Theorem updateTask_records_starter (w : World) (c : ChecklistInstance)
    (taskId : string) (st : TaskCompletionStatus) (note : option string)
    (inputValue : option float) :
  currentChecklist (session w) = Some c ->
  let now := clock (platform w) (clock_reads w) in
  let w' := (updateTask taskId st note inputValue w).2 in
  exists c',
    tbl_checklists (db w') !! cl_id c = Some c'
    /\ currentChecklist (session w') = Some c'
    /\ tasks c' !! taskId
       = Some {| tc_taskId := taskId; tc_status := st;
                 tc_completedAt := Some now; tc_note := note;
                 tc_inputValue := inputValue;
                 tc_completedBy := startedBy c |}.
Proof.
  intros Hc now w'.
  destruct (updateTask_writes w c taskId st note inputValue Hc)
    as (_ & Hdb & Hcur & _).
  exists (updated_checklist c taskId st note inputValue now).
  split; [|split].
  - subst w'. rewrite Hdb. apply lookup_insert_eq.
  - exact Hcur.
  - simpl. apply lookup_insert_eq.
Qed.

Lemma updateTask_records_starter_witness :
  currentChecklist (session Sample.open_world) = Some Sample.ten_of_ten
  /\ exists c',
       tbl_checklists (db (updateTask "t9" done None None Sample.open_world).2)
         !! "chk-1" = Some c'
       /\ currentChecklist
            (session (updateTask "t9" done None None Sample.open_world).2)
          = Some c'
       /\ tasks c' !! "t9"
          = Some {| tc_taskId := "t9"; tc_status := done;
                    tc_completedAt := Some 1000000; tc_note := None;
                    tc_inputValue := None;
                    tc_completedBy := Some Sample.alice |}.
Proof.
  split; [reflexivity|].
  exact (updateTask_records_starter Sample.open_world Sample.ten_of_ten
           "t9" done None None eq_refl).
Defined.

(** C6, as the code has it. [updateTask] validates nothing: on an open
    checklist every status, [not_done] included, is stored with the note as
    given, absent included; the call returns normally and sets no error. *)
Theorem updateTask_accepts_any_note (w : World) (c : ChecklistInstance)
    (taskId : string) (st : TaskCompletionStatus) (note : option string)
    (inputValue : option float) :
  currentChecklist (session w) = Some c ->
  let w' := (updateTask taskId st note inputValue w).2 in
  (updateTask taskId st note inputValue w).1 = Returned tt
  /\ error (session w') = error (session w)
  /\ exists c' entry,
       tbl_checklists (db w') !! cl_id c = Some c'
       /\ tasks c' !! taskId = Some entry
       /\ tc_status entry = st /\ tc_note entry = note.
Proof.
  intros Hc w'.
  destruct (updateTask_writes w c taskId st note inputValue Hc)
    as (Hret & Hdb & _ & Herr & _).
  split; [exact Hret|]. split; [exact Herr|].
  eexists _, _. split; [|split].
  - subst w'. rewrite Hdb. apply lookup_insert_eq.
  - simpl. apply lookup_insert_eq.
  - split; reflexivity.
Qed.

Lemma updateTask_accepts_any_note_witness :
  currentChecklist (session Sample.open_world) = Some Sample.ten_of_ten
  /\ (updateTask "t1" not_done None None Sample.open_world).1 = Returned tt
  /\ error (session (updateTask "t1" not_done None None Sample.open_world).2)
     = error (session Sample.open_world)
  /\ exists c' entry,
       tbl_checklists (db (updateTask "t1" not_done None None Sample.open_world).2)
         !! "chk-1" = Some c'
       /\ tasks c' !! "t1" = Some entry
       /\ tc_status entry = not_done /\ tc_note entry = None.
Proof.
  split; [reflexivity|].
  exact (updateTask_accepts_any_note Sample.open_world Sample.ten_of_ten
           "t1" not_done None None eq_refl).
Defined.

(** C6, as stated, fails: marking task [t1] of the open sample checklist
    [not_done] with no note is not rejected. The call returns, no error is
    set, and the entry, which was [done], is replaced by a [not_done] entry
    without a note. *)
Lemma updateTask_not_done_without_note_is_stored :
  let w' := (updateTask "t1" not_done None None Sample.open_world).2 in
  (updateTask "t1" not_done None None Sample.open_world).1 = Returned tt
  /\ error (session w') = None
  /\ (tasks <$> tbl_checklists (db Sample.open_world) !! "chk-1")
       ≫= (.!! "t1") = Some (Sample.task "t1" done)
  /\ (tasks <$> tbl_checklists (db w') !! "chk-1") ≫= (.!! "t1")
     = Some {| tc_taskId := "t1"; tc_status := not_done;
               tc_completedAt := Some 1000000; tc_note := None;
               tc_inputValue := None; tc_completedBy := Some Sample.alice |}.
Proof. vm_compute. repeat split; reflexivity. Qed.

(** ** Identifier generation and startChecklist *)

Lemma generateUUID_frames_overflow (k : nat) (w : World) :
  has_randomUUID (platform w) = true ->
  generateUUID_frames k w
  = (Thrown (RangeError "Maximum call stack size exceeded"), w).
Proof. intros H. induction k as [|k IH]; simpl; rewrite H; auto. Qed.

Lemma generateUUID_frames_fallback (k : nat) (w : World) :
  has_randomUUID (platform w) = false ->
  generateUUID_frames k w = fallback_uuid w.
Proof. intros H. destruct k; simpl; rewrite H; reflexivity. Qed.

(** Symbolic execution of a [Js] computation on a world given by its
    fields: reduce, and resolve each [generateUUID] by the two lemmas. *)
Ltac run :=
  cbn -[new_checklist updated_checklist generateUUID_frames lookup insert alter
        activeSessions_of Array_sort String.append Z.add Z.sub Z.mul ceil_div];
  repeat (first
    [ rewrite generateUUID_frames_overflow by reflexivity
    | rewrite generateUUID_frames_fallback by reflexivity ];
    cbn -[new_checklist updated_checklist generateUUID_frames lookup insert
          alter activeSessions_of Array_sort String.append Z.add Z.sub Z.mul
          ceil_div]).

(** Where [crypto.randomUUID] exists, [generateUUID] of lib/db never
    returns: whatever the stack limit, it ends in a [RangeError]. *)
Lemma generateUUID_overflows (w : World) :
  has_randomUUID (platform w) = true ->
  generateUUID w
  = (Thrown (RangeError "Maximum call stack size exceeded"), w).
Proof. intros H. unfold generateUUID. by apply generateUUID_frames_overflow. Qed.

(** The polyfill of the checklist page does return there. *)
Lemma page_generateUUID_returns (w : World) :
  has_randomUUID (platform w) = true ->
  (page_generateUUID w).1 = Returned (random_ids (platform w) (ids_drawn w)).
Proof.
  intros H. unfold page_generateUUID, crypto_randomUUID. rewrite H. reflexivity.
Qed.

(** Hence [logAuditEntry] appends nothing on such a platform. *)
Lemma logAuditEntry_overflows (entry : AuditInput) (w : World) :
  has_randomUUID (platform w) = true ->
  logAuditEntry entry w
  = (Thrown (RangeError "Maximum call stack size exceeded"), w).
Proof.
  destruct w as [[st cl su dc au] se pg [has sha ids clk lim ver] n m].
  simpl. intros ->.
  unfold logAuditEntry, getDeviceId, initializeDeviceConfig, generateUUID,
    bind, read, ret.
  run. destruct (dc !! "device_config") as [cfg|]; run; reflexivity.
Qed.

(** On no platform does [startChecklist] append an audit entry or make the
    new instance the current checklist: it always ends in its [catch]
    branch, with an error message set. *)
Lemma startChecklist_never_audits (tid : TemplateId) (staff : StaffReference)
    (w : World) :
  let w' := (startChecklist tid staff w).2 in
  tbl_auditLog (db w') = tbl_auditLog (db w)
  /\ currentChecklist (session w') = currentChecklist (session w)
  /\ is_Some (error (session w')).
Proof.
  destruct w as [[st cl su dc au] se pg [has sha ids clk lim ver] n m].
  unfold startChecklist, logAuditEntry, getDeviceId, initializeDeviceConfig,
    generateUUID, crypto_randomUUID, bind, try_catch, read, ret.
  run.
  destruct (dc !! "device_config") as [cfg|] eqn:Hcfg; destruct has; run.
  all: try rewrite Hcfg; run.
  all: repeat split; eauto.
Qed.

(** What it does write: nothing, or the assembled instance. *)
Lemma startChecklist_writes (tid : TemplateId) (staff : StaffReference)
    (w : World) :
  let w' := (startChecklist tid staff w).2 in
  tbl_checklists (db w') = tbl_checklists (db w)
  \/ exists dev id now,
       tbl_checklists (db w')
       = <[id := new_checklist (getTemplate tid) tid staff dev id now]>
           (tbl_checklists (db w)).
Proof.
  destruct w as [[st cl su dc au] se pg [has sha ids clk lim ver] n m].
  unfold startChecklist, logAuditEntry, getDeviceId, initializeDeviceConfig,
    generateUUID, crypto_randomUUID, bind, try_catch, read, ret.
  run.
  destruct (dc !! "device_config") as [cfg|] eqn:Hcfg; destruct has; run.
  all: try rewrite Hcfg; run.
  all: try (left; reflexivity).
  right. eexists _, _, _. reflexivity.
Qed.

(** The declared [totalTasks] of each shipped template differs from the
    number of tasks it lists (32 for 34, 30 for 35, 38 for 49). *)
Lemma templates_task_counts :
  map (fun t => (length (getAllTaskIds (getTemplate t)),
                 tpl_totalTasks (getTemplate t)))
      [pass_opening; floor_opening; closing]
  = [(34%nat, 32); (35%nat, 30); (49%nat, 38)].
Proof. reflexivity. Qed.

Lemma templates_totalTasks_mismatch (tid : TemplateId) :
  Z.of_nat (length (getAllTaskIds (getTemplate tid)))
  <> tpl_totalTasks (getTemplate tid).
Proof. destruct tid; vm_compute; discriminate. Qed.

(** So the instance assembled for a shipped template never has counters
    that add up to its [totalTasks]. *)
Lemma new_checklist_counters_off (tid : TemplateId) (staff : StaffReference)
    (dev id : string) (now : Timestamp) :
  let c := new_checklist (getTemplate tid) tid staff dev id now in
  doneCount c + notDoneCount c + naCount c <> totalTasks c.
Proof. destruct tid; vm_compute; discriminate. Qed.

(** C7, evaluated. On a configured device whose platform has
    [crypto.randomUUID], starting the pass-opening checklist stores an
    instance that is [in_progress], bound to the local device, with all 34
    listed tasks [not_done] and a percentage of 0, but with
    [notDoneCount = 34] against [totalTasks = 32]; the audit log stays
    empty, the store reports a stack overflow and no checklist becomes
    current. *)
Theorem startChecklist_pass_opening_evaluated :
  let w' := (startChecklist pass_opening Sample.alice (Sample.fresh_world true)).2 in
  let stored := tbl_checklists (db w') !! "uuid-0" in
  (status <$> stored = Some in_progress
   /\ deviceId <$> stored = Some "device-A"
   /\ (fun c => map (fun id => tc_status <$> tasks c !! id)
                    (getAllTaskIds PASS_OPENING_TEMPLATE)) <$> stored
      = Some (replicate 34 (Some not_done))
   /\ (fun c => size (tasks c)) <$> stored = Some 34%nat
   /\ doneCount <$> stored = Some 0
   /\ naCount <$> stored = Some 0
   /\ completionPercentage <$> stored = Some 0)
  /\ notDoneCount <$> stored = Some 34
  /\ totalTasks <$> stored = Some 32
  /\ tbl_auditLog (db w') = ∅
  /\ error (session w') = Some "Maximum call stack size exceeded"
  /\ currentChecklist (session w') = None.
Proof.
  vm_compute. repeat split; reflexivity.
Qed.

(** Without [crypto.randomUUID] the call fails before anything is stored. *)
Example startChecklist_without_randomUUID :
  let w' := (startChecklist pass_opening Sample.alice (Sample.fresh_world false)).2 in
  tbl_checklists (db w') = ∅
  /\ tbl_auditLog (db w') = ∅
  /\ error (session w') = Some "crypto.randomUUID is not a function".
Proof. vm_compute. repeat split; reflexivity. Qed.

(** ** verifyManagerPin against the lockout machine *)

Section VerifyManagerPin.

Variables (w : World) (managerId pin : string) (r : StaffRecord)
          (cfg : DeviceConfig).
Hypothesis Hr : tbl_staff (db w) !! managerId = Some r.
Hypothesis Hrole : staff_role_of r = manager_role.
Hypothesis Hcfg : tbl_deviceConfig (db w) !! "device_config" = Some cfg.

Let now := clock (platform w) (clock_reads w).
Let later := clock (platform w) (S (clock_reads w)).
Let matches := pin_matches w cfg r managerId pin.
Let out := verifyManagerPin managerId pin w.

Ltac enter_verify :=
  subst now later matches out; unfold pin_matches, lock_state in *;
  destruct w as [[st cl su dc au] se pg [has sha ids clk lim ver] n m];
  cbn -[lookup String.append Z.add] in *;
  unfold verifyManagerPin, hashPin, getPinSalt, initializeDeviceConfig,
    bind, try_catch, read, ret;
  run; rewrite Hr; rewrite (bool_decide_eq_true_2 _ Hrole).

(** From [Unlocked] the code is the machine: a match resets, a mismatch
    counts, the third mismatch locks for five minutes. *)
Lemma verify_from_unlocked :
  staff_lockedUntil r = None ->
  let expected := spec_verify (lock_state r) now now matches in
  out.1 = Returned expected.2
  /\ lock_state <$> tbl_staff (db out.2) !! managerId = Some expected.1.
Proof.
  intros Hlock. enter_verify. rewrite Hlock. run. rewrite Hcfg. run.
  unfold spec_verify.
  case_bool_decide as Hm; run.
  - rewrite lookup_alter_eq, Hr. split; reflexivity.
  - unfold PIN_SECURITY.MAX_ATTEMPTS.
    destruct (3 <=? default 0 (staff_failedAttempts r) + 1) eqn:Hge; run.
    + rewrite lookup_alter_eq, Hr. split; reflexivity.
    + rewrite lookup_alter_eq, Hr. run. unfold set_attempts; simpl.
      rewrite Hlock. split; reflexivity.
Qed.

(** While locked, any PIN is answered [account_locked] with the seconds
    that remain, and the record is not written. *)
Lemma verify_while_locked (until : Timestamp) :
  staff_lockedUntil r = Some until -> now < until ->
  out.1 = Returned (spec_verify (Locked until) now later matches).2
  /\ db out.2 = db w.
Proof.
  intros Hlock Hnow. enter_verify. rewrite Hlock. run.
  unfold spec_verify.
  destruct (Z.ltb_spec (clk m) until) as [_|?]; [|lia].
  run. split; reflexivity.
Qed.

(** Once the lockout has elapsed, the right PIN succeeds and resets. *)
Lemma verify_after_expiry_match (until : Timestamp) :
  staff_lockedUntil r = Some until -> until <= now -> matches = true ->
  let expected := spec_verify (Locked until) now later true in
  out.1 = Returned expected.2
  /\ lock_state <$> tbl_staff (db out.2) !! managerId = Some expected.1.
Proof.
  intros Hlock Hnow Hm. enter_verify. rewrite Hlock. run.
  unfold spec_verify.
  destruct (Z.ltb_spec (clk m) until) as [?|_]; [lia|].
  run. rewrite Hcfg. run. rewrite Hm. run.
  rewrite !lookup_alter_eq, Hr. split; reflexivity.
Qed.

(** Once the lockout has elapsed, a wrong PIN is counted on top of the
    attempts read before the reset: with the three attempts that caused
    the lockout it locks the account again at once, where the machine
    answers [invalid_pin] with two attempts remaining. *)
Lemma verify_after_expiry_mismatch (until : Timestamp) :
  staff_lockedUntil r = Some until -> until <= now -> matches = false ->
  3 <= default 0 (staff_failedAttempts r) + 1 ->
  (out.1 = Returned {| success := false; pin_error := Some account_locked;
                       lockoutRemaining := Some 300;
                       attemptsRemaining := None |}
   /\ lock_state <$> tbl_staff (db out.2) !! managerId
      = Some (Locked (later + 300000))
   /\ staff_failedAttempts <$> tbl_staff (db out.2) !! managerId
      = Some (Some (default 0 (staff_failedAttempts r) + 1)))
  /\ spec_verify (Locked until) now later false
     = (Unlocked 1,
        {| success := false; pin_error := Some invalid_pin;
           lockoutRemaining := None; attemptsRemaining := Some 2 |}).
Proof.
  intros Hlock Hnow Hm Hge. enter_verify. rewrite Hlock. run.
  unfold spec_verify.
  destruct (Z.ltb_spec (clk m) until) as [?|_]; [lia|].
  run. rewrite Hcfg. run. rewrite Hm. run.
  unfold PIN_SECURITY.MAX_ATTEMPTS.
  destruct (Z.leb_spec 3 (default 0 (staff_failedAttempts r) + 1)) as [_|?];
    [|lia].
  run. rewrite !lookup_alter_eq, Hr. repeat split; reflexivity.
Qed.

End VerifyManagerPin.

(** An unknown id or a staff member who is not a manager: [not_found],
    and the store is left as it was. *)
Lemma verify_not_found (w : World) (managerId pin : string) :
  match tbl_staff (db w) !! managerId with
  | Some r => staff_role_of r <> manager_role
  | None => True
  end ->
  verifyManagerPin managerId pin w
  = (Returned {| success := false; pin_error := Some not_found;
                 lockoutRemaining := None; attemptsRemaining := None |}, w).
Proof.
  intros H. unfold verifyManagerPin, bind, try_catch, read, ret.
  destruct (tbl_staff (db w) !! managerId) as [r|]; [|reflexivity].
  rewrite (bool_decide_eq_false_2 _ H). reflexivity.
Qed.

(** C2, evaluated. A manager locked out after three wrong PINs until
    1000 ms; at 1000000 ms, long after, one wrong PIN is entered. The
    machine of the specification resets to [Unlocked 0], counts the attempt
    and answers [invalid_pin] with two attempts remaining. The code answers
    [account_locked] with 300 seconds, stores a fourth failed attempt and
    locks the account until 1301000 ms. The right PIN at the same moment
    succeeds. *)
Theorem verifyManagerPin_relocks_after_expiry :
  let out := verifyManagerPin "mgr-1" "0000" Sample.expired_lock_world in
  let again := verifyManagerPin "mgr-1" "4821" Sample.expired_lock_world in
  (out.1 = Returned {| success := false; pin_error := Some account_locked;
                       lockoutRemaining := Some 300;
                       attemptsRemaining := None |}
   /\ lock_state <$> tbl_staff (db out.2) !! "mgr-1" = Some (Locked 1301000)
   /\ staff_failedAttempts <$> tbl_staff (db out.2) !! "mgr-1"
      = Some (Some 4))
  /\ spec_verify (Locked 1000) 1000000 1001000 false
     = (Unlocked 1,
        {| success := false; pin_error := Some invalid_pin;
           lockoutRemaining := None; attemptsRemaining := Some 2 |})
  /\ again.1 = Returned {| success := true; pin_error := None;
                           lockoutRemaining := None;
                           attemptsRemaining := None |}.
Proof. vm_compute. repeat split; reflexivity. Qed.

(** The lockout itself: three wrong PINs in a row lock the account for 300
    seconds, and the right PIN is then refused while the lock holds. *)
Example three_wrong_pins_lock :
  let w0 := Sample.fresh_world true in
  let a1 := verifyManagerPin "mgr-1" "0000" w0 in
  let a2 := verifyManagerPin "mgr-1" "1111" a1.2 in
  let a3 := verifyManagerPin "mgr-1" "2222" a2.2 in
  let a4 := verifyManagerPin "mgr-1" "4821" a3.2 in
  a1.1 = Returned {| success := false; pin_error := Some invalid_pin;
                     lockoutRemaining := None; attemptsRemaining := Some 2 |}
  /\ a2.1 = Returned {| success := false; pin_error := Some invalid_pin;
                        lockoutRemaining := None; attemptsRemaining := Some 1 |}
  /\ a3.1 = Returned {| success := false; pin_error := Some account_locked;
                        lockoutRemaining := Some 300;
                        attemptsRemaining := None |}
  /\ a4.1 = Returned {| success := false; pin_error := Some account_locked;
                        lockoutRemaining := Some 299;
                        attemptsRemaining := None |}.
Proof. vm_compute. repeat split; reflexivity. Qed.

(** ** checkForActiveSessions *)

Lemma insert_before_perm {A} (f : A -> A -> bool) (x : A) (l : list A) :
  insert_before f x l ≡ₚ x :: l.
Proof.
  induction l as [|y l IH]; simpl; [done|].
  destruct (f x y); [done|]. rewrite IH. apply Permutation_swap.
Qed.

Lemma insertion_sort_perm {A} (f : A -> A -> bool) (l : list A) :
  foldr (insert_before f) [] l ≡ₚ l.
Proof.
  induction l as [|x l IH]; simpl; [done|].
  rewrite insert_before_perm. by rewrite IH.
Qed.

Lemma elem_of_toArray {A} (tbl : gmap string A) (x : A) :
  x ∈ toArray tbl <-> exists k, tbl !! k = Some x.
Proof.
  unfold toArray. rewrite insertion_sort_perm.
  rewrite list_elem_of_fmap. split.
  - intros [[k y] [-> Hin]]. exists k. by apply elem_of_map_to_list in Hin.
  - intros [k Hk]. exists (k, x). split; [done|]. by apply elem_of_map_to_list.
Qed.

Lemma is_active_spec (c : ChecklistInstance) :
  is_active c = true <-> status c = in_progress \/ status c = pending_review.
Proof.
  unfold is_active. rewrite orb_true_iff, !bool_decide_eq_true. done.
Qed.

Lemma elem_of_activeSessions_of (tid : TemplateId)
    (tbl : gmap string ChecklistInstance) (c : ChecklistInstance) :
  c ∈ activeSessions_of tid tbl
  <-> (exists k, tbl !! k = Some c) /\ active_for tid c.
Proof.
  unfold activeSessions_of, active_for.
  rewrite !list_elem_of_In, !filter_In, <- list_elem_of_In.
  rewrite elem_of_toArray, is_active_spec, bool_decide_eq_true. tauto.
Qed.

(** The head of the sorted array: the first element, in array order, whose
    [lastModifiedAt] is greatest. *)
Lemma most_recent_head (l : list ChecklistInstance) :
  l <> [] ->
  exists s before after,
    head (Array_sort most_recent_first l) = Some s
    /\ l = (before ++ s :: after)%list
    /\ (forall c, c ∈ before -> lastModifiedAt c < lastModifiedAt s)
    /\ (forall c, c ∈ after -> lastModifiedAt c <= lastModifiedAt s).
Proof.
  induction l as [|x l IH]; [done|]. intros _.
  change (Array_sort most_recent_first (x :: l))
    with (insert_before (fun a b => most_recent_first a b <=? 0) x
            (Array_sort most_recent_first l)).
  destruct l as [|y l'] eqn:El.
  - exists x, [], []. simpl. repeat split; auto; intros c Hc; inversion Hc.
  - rewrite <- El in *.
    destruct IH as (s & before & after & Hhead & Hl & Hb & Ha);
      [by rewrite El|].
    destruct (Array_sort most_recent_first l) as [|z sorted]; [done|].
    simpl in Hhead. injection Hhead as ->.
    cbn [insert_before]. unfold most_recent_first at 1.
    destruct (Z.leb_spec (lastModifiedAt s - lastModifiedAt x) 0) as [Hle|Hgt].
    + exists x, [], l. simpl. repeat split; auto.
      * intros c Hc; inversion Hc.
      * intros c Hc. rewrite Hl in Hc.
        apply elem_of_app in Hc as [Hc|Hc].
        -- specialize (Hb c Hc). lia.
        -- apply elem_of_cons in Hc as [->|Hc]; [lia|].
           specialize (Ha c Hc). lia.
    + exists s, (x :: before), after. simpl. repeat split; auto.
      * by rewrite Hl.
      * intros c Hc. apply elem_of_cons in Hc as [->|Hc]; [lia|]. by apply Hb.
Qed.

Lemma getDeviceId_keeps_checklists (w w1 : World) (local : string) :
  getDeviceId w = (Returned local, w1) ->
  tbl_checklists (db w1) = tbl_checklists (db w).
Proof.
  destruct w as [[st cl su dc au] se pg [has sha ids clk lim ver] n m].
  unfold getDeviceId, initializeDeviceConfig, generateUUID, bind, read, ret.
  run. destruct (dc !! "device_config") as [cfg|]; destruct has; run.
  all: intros H; inversion H; reflexivity.
Qed.

(** Without a device id the check answers [null], whatever is stored. *)
Lemma checkForActiveSessions_without_device_id (tid : TemplateId) (w w1 : World)
    (e : JsError) :
  getDeviceId w = (Thrown e, w1) ->
  checkForActiveSessions tid w = (Returned None, w1).
Proof.
  intros H. unfold checkForActiveSessions, try_catch, bind. rewrite H.
  reflexivity.
Qed.

(** What the check answers once the device id is known and some session
    is active: it goes by the head of the sorted sessions. *)
Lemma checkForActiveSessions_of_head (tid : TemplateId) (w w1 : World)
    (local : string) (x s : ChecklistInstance) (l : list ChecklistInstance) :
  getDeviceId w = (Returned local, w1) ->
  activeSessions_of tid (tbl_checklists (db w)) = x :: l ->
  head (Array_sort most_recent_first (x :: l)) = Some s ->
  (checkForActiveSessions tid w).1
  = match snapshot_of s local with
    | inr snapshot => Returned (Some snapshot)
    | inl _ => Returned None
    end.
Proof.
  intros Hget Hlist Hhead.
  unfold checkForActiveSessions, try_catch, bind. rewrite Hget.
  unfold read. rewrite (getDeviceId_keeps_checklists _ _ _ Hget), Hlist.
  cbn [length Z.of_nat]. rewrite Hhead.
  destruct (snapshot_of s local); reflexivity.
Qed.




(** On the sample, the pending review of the other device wins over the
    older session of this device; the approved instance and the instance of
    the other template do not count. *)
Example contended_closing_session :
  (checkForActiveSessions closing Sample.contended_world).1
  = Returned (Some
      {| as_checklistId := "chk-2"; as_templateId := closing;
         as_templateName := "Checklist"; as_staffName := "Alice";
         as_deviceId := "device-B"; as_startedAt := 500;
         as_lastActivityAt := 1500; as_completionPercentage := 100;
         as_isOwnDevice := false |})
  /\ (checkForActiveSessions floor_opening Sample.contended_world).1
     = Returned None.
Proof. vm_compute. split; reflexivity. Qed.

(** ** calculateRetryDelay *)

Lemma Math_pow_spec (b : Z) (n : nat) : Math_pow b n = b ^ Z.of_nat n.
Proof.
  induction n as [|n IH]; [reflexivity|].
  rewrite Nat2Z.inj_succ, Z.pow_succ_r by lia. simpl. by rewrite IH.
Qed.

(** The delay doubles up to the fifth retry and is capped from the sixth. *)
Lemma calculateRetryDelay_cases (retryCount : nat) :
  (retryCount <= 5)%nat /\ calculateRetryDelay retryCount
                          = 1000 * 2 ^ Z.of_nat retryCount
  \/ (6 <= retryCount)%nat /\ calculateRetryDelay retryCount = 60000.
Proof.
  unfold calculateRetryDelay, SYNC_CONFIG.BASE_RETRY_DELAY_MS,
    SYNC_CONFIG.BACKOFF_MULTIPLIER, SYNC_CONFIG.MAX_RETRY_DELAY_MS.
  rewrite Math_pow_spec.
  destruct (le_lt_dec retryCount 5) as [Hle|Hgt].
  - left. split; [done|].
    assert (2 ^ Z.of_nat retryCount <= 2 ^ 5)
      by (apply Z.pow_le_mono_r; lia).
    change (2 ^ 5) with 32 in *. lia.
  - right. split; [lia|].
    assert (2 ^ 6 <= 2 ^ Z.of_nat retryCount)
      by (apply Z.pow_le_mono_r; lia).
    change (2 ^ 6) with 64 in *. lia.
Qed.

(** In binary64 the delay is the same number, overflow included. *)
Example calculateRetryDelay_binary64_agrees :
  forallb (fun n => Math_round (calculateRetryDelay_binary64 n)
                    =? calculateRetryDelay n) (seq 0 1100) = true.
Proof. vm_compute. reflexivity. Qed.

(** C5. For every natural [retryCount] the retry delay is
    [min (1000 * 2 ^ retryCount, 60000)] milliseconds; at [retryCount] 0
    and 1 it is 1000 and 2000. *)
Theorem calculateRetryDelay_capped_backoff (retryCount : nat) :
  calculateRetryDelay retryCount
  = Z.min (1000 * 2 ^ Z.of_nat retryCount) 60000
  /\ calculateRetryDelay 0 = 1000
  /\ calculateRetryDelay 1 = 2000.
Proof.
  split; [|split; reflexivity].
  unfold calculateRetryDelay, SYNC_CONFIG.BASE_RETRY_DELAY_MS,
    SYNC_CONFIG.BACKOFF_MULTIPLIER, SYNC_CONFIG.MAX_RETRY_DELAY_MS.
  by rewrite Math_pow_spec.
Qed.

(** ** Submission endpoint *)

Lemma has_property_member (name : string) (members : list (string * Json)) :
  has_property name (JObject members) = true ->
  exists v, member name members = Some v.
Proof.
  simpl. intros H. apply existsb_exists in H as ([k v] & Hin & Heq).
  unfold member.
  destruct (List.find _ (rev members)) as [kv|] eqn:Hfind; [by eexists|].
  exfalso. apply in_rev in Hin.
  pose proof (find_none _ _ Hfind (k, v) Hin) as Hno. congruence.
Qed.

(** A body without [submissionId], or whose snapshot lacks a required
    field, does not validate. *)
Lemma validateSubmission_incomplete (body : Json) :
  prop body "submissionId" = None
  \/ (exists field, In field requiredFields
        /\ match prop body "snapshot" with
           | Some snapshot => has_property field snapshot = false
           | None => True
           end) ->
  validateSubmission body = false.
Proof.
  intros H. unfold validateSubmission.
  destruct (negb (truthy (Some body)) || negb (typeof_object (Some body)));
    [done|].
  destruct H as [Hid|(field & Hin & Hfield)].
  - rewrite Hid. reflexivity.
  - destruct (negb (typeof_string (prop body "submissionId"))
              || negb (truthy (prop body "submissionId"))); [done|].
    destruct (prop body "snapshot") as [snapshot|]; [|done].
    destruct (negb (truthy (Some snapshot))
              || negb (typeof_object (Some snapshot))); [done|].
    destruct (forallb _ requiredFields) eqn:Hall; [|done].
    rewrite forallb_forall in Hall. specialize (Hall field Hin). congruence.
Qed.

(** C9. For every request whose body lacks [submissionId] or whose
    snapshot lacks one of the sixteen required fields, [POST] answers HTTP
    400 with [success = false] and status [failed], runs no stage of the
    pipeline, and the answer is of the non-retryable (4xx) class. *)
Theorem POST_rejects_incomplete_payload (dates : DateApi) (body : Json) :
  prop body "submissionId" = None
  \/ (exists field, In field requiredFields
        /\ match prop body "snapshot" with
           | Some snapshot => has_property field snapshot = false
           | None => True
           end) ->
  let out := POST dates (inr body) in
  http_status out.1 = 400
  /\ resp_success out.1 = false
  /\ resp_status out.1 = sub_failed
  /\ resp_error out.1 = Some "Invalid request payload"
  /\ out.2 = []
  /\ spec_retryable (http_status out.1) = false.
Proof.
  intros H. unfold POST. rewrite (validateSubmission_incomplete body H).
  simpl. repeat split; reflexivity.
Qed.

Lemma POST_rejects_incomplete_payload_witness :
  (prop Sample.body_without_deviceId "submissionId" = None
   \/ (exists field, In field requiredFields
         /\ match prop Sample.body_without_deviceId "snapshot" with
            | Some snapshot => has_property field snapshot = false
            | None => True
            end))
  /\ (let out := POST Sample.plain_dates (inr Sample.body_without_deviceId) in
      http_status out.1 = 400
      /\ resp_success out.1 = false
      /\ resp_status out.1 = sub_failed
      /\ resp_error out.1 = Some "Invalid request payload"
      /\ out.2 = []
      /\ spec_retryable (http_status out.1) = false).
Proof.
  assert (Hlacks :
    prop Sample.body_without_deviceId "submissionId" = None
    \/ (exists field, In field requiredFields
          /\ match prop Sample.body_without_deviceId "snapshot" with
             | Some snapshot => has_property field snapshot = false
             | None => True
             end)).
  { right. exists "deviceId". split; [|reflexivity].
    unfold requiredFields. simpl. tauto. }
  split; [exact Hlacks|].
  exact (POST_rejects_incomplete_payload Sample.plain_dates
           Sample.body_without_deviceId Hlacks).
Defined.

(** A body that is not JSON is answered 500, not 400. *)
Example POST_malformed_body (dates : DateApi) (e : JsError) :
  http_status (POST dates (inl e)).1 = 500.
Proof. reflexivity. Qed.

(** A complete request is answered 200 and echoes its [submissionId]. *)
Example POST_complete_body :
  let out := POST Sample.plain_dates (inr Sample.complete_body) in
  (http_status out.1, resp_success out.1, resp_status out.1)
  = (200, true, sub_complete)
  /\ resp_submissionId out.1 = JString "sub-1".
Proof. split; reflexivity. Qed.

(** No request makes the handler run a [sheets_update] stage. *)
Lemma POST_never_updates_row (dates : DateApi) (request : JsError + Json) :
  sheets_update ∉ (POST dates request).2.
Proof.
  unfold POST. destruct request as [e|body]; [apply not_elem_of_nil|].
  destruct (negb (validateSubmission body)); [apply not_elem_of_nil|].
  destruct (createSheetsRow _ _ _) as [e|row];
    [|destruct (formatRowForSheets _ _)]; simpl; intros H;
    repeat (apply elem_of_cons in H as [H|H]; [discriminate|]);
    inversion H.
Qed.

Lemma prop_of_not_null (v : Json) (name : string) :
  v <> JNull -> prop_of (Some v) name = inr (prop v name).
Proof. destruct v; done. Qed.

(** A member that converts comes out of [new Date] and of [String]. *)
Lemma converts_new_Date (dates : DateApi) (snapshot : Json) (name : string) :
  converts dates snapshot name = true ->
  exists primitive, new_Date dates (prop snapshot name) = inr primitive.
Proof.
  unfold converts, new_Date, String_, ToPrimitive.
  destruct (prop snapshot name) as [v|]; [|by eexists].
  destruct v; try (by eexists);
    destruct (ToString dates _); try discriminate; by eexists.
Qed.

Lemma converts_String (dates : DateApi) (snapshot : Json) (name : string) :
  converts dates snapshot name = true ->
  exists text, String_ dates (prop snapshot name) = inr text.
Proof.
  unfold converts. destruct (String_ dates _); [discriminate|by eexists].
Qed.

(** C4, as the code has it. The handler receives [submissionId] and
    [snapshot] only and consults no recorded progress: for every body that
    validates, whose [staff] and [manager] are not [null] and whose
    timestamps and counters convert (as strings and numbers do), it runs
    its three stages (PDF generation, Drive upload, Sheets row) in that
    order, none of them a [sheets_update], and answers [complete] with the
    placeholder identifiers. *)
Theorem POST_runs_every_stage (dates : DateApi) (body : Json) :
  validateSubmission body = true ->
  (forall snapshot, prop body "snapshot" = Some snapshot ->
     prop snapshot "staff" <> Some JNull
     /\ prop snapshot "manager" <> Some JNull
     /\ forallb (converts dates snapshot) convertedFields = true) ->
  let out := POST dates (inr body) in
  out.2 = [pdf_generate; pdf_upload; sheets_write]
  /\ http_status out.1 = 200
  /\ resp_success out.1 = true
  /\ resp_status out.1 = sub_complete
  /\ Some (resp_submissionId out.1) = prop body "submissionId"
  /\ resp_sheetsRowId out.1 = Some "placeholder_row_id"
  /\ resp_driveFileId out.1 = Some "placeholder_drive_id"
  /\ resp_driveFileUrl out.1
     = Some "https://drive.google.com/file/d/placeholder_drive_id/view".
Proof.
  intros Hvalid Hnull. unfold POST. rewrite Hvalid. cbn [negb].
  unfold validateSubmission in Hvalid.
  destruct (negb (truthy (Some body)) || negb (typeof_object (Some body)));
    [done|].
  destruct (prop body "submissionId") as [sid|] eqn:Hsid; [|done].
  destruct (negb (typeof_string (Some sid)) || negb (truthy (Some sid)));
    [done|].
  destruct (prop body "snapshot") as [snapshot|] eqn:Hsnap; [|done].
  destruct (Hnull snapshot eq_refl) as (Hstaff & Hmanager & Hconv).
  destruct snapshot as [ |b|x|str|items|members];
    try (cbn in Hvalid; rewrite ?orb_true_r in Hvalid; discriminate).
  assert (Hs : has_property "staff" (JObject members) = true).
  { destruct (negb _ || negb _); [done|].
    rewrite forallb_forall in Hvalid. apply Hvalid. simpl. tauto. }
  assert (Hm : has_property "manager" (JObject members) = true).
  { destruct (negb _ || negb _); [done|].
    rewrite forallb_forall in Hvalid. apply Hvalid. simpl. tauto. }
  apply has_property_member in Hs as [staff Hs].
  apply has_property_member in Hm as [mgr Hm].
  rewrite forallb_forall in Hconv.
  assert (Hfield : forall name, In name convertedFields ->
            converts dates (JObject members) name = true) by exact Hconv.
  destruct (converts_new_Date dates (JObject members) "startedAt")
    as [startDate Hstart]; [apply Hfield; simpl; tauto|].
  destruct (converts_new_Date dates (JObject members) "submittedAt")
    as [submitDate Hsubmit]; [apply Hfield; simpl; tauto|].
  destruct (converts_String dates (JObject members) "completionPercentage")
    as [t1 H1]; [apply Hfield; simpl; tauto|].
  destruct (converts_String dates (JObject members) "doneCount")
    as [t2 H2]; [apply Hfield; simpl; tauto|].
  destruct (converts_String dates (JObject members) "notDoneCount")
    as [t3 H3]; [apply Hfield; simpl; tauto|].
  destruct (converts_String dates (JObject members) "naCount")
    as [t4 H4]; [apply Hfield; simpl; tauto|].
  destruct (converts_String dates (JObject members) "totalTasks")
    as [t5 H5]; [apply Hfield; simpl; tauto|].
  cbn [prop] in Hstaff, Hmanager. rewrite Hs in Hstaff. rewrite Hm in Hmanager.
  unfold createSheetsRow. cbn [default from_option]. unfold id.
  rewrite Hstart, Hsubmit. cbn [prop]. rewrite Hs, Hm.
  cbn [prop] in H1, H2, H3, H4, H5.
  rewrite !prop_of_not_null by congruence.
  unfold formatRowForSheets.
  cbn [row_completionPercent row_doneCount row_notDoneCount row_naCount
       row_totalTasks].
  rewrite H1, H2, H3, H4, H5.
  cbn [fst snd app http_status resp_success resp_status
       resp_submissionId resp_sheetsRowId resp_driveFileId
       resp_driveFileUrl].
  repeat split; reflexivity.
Qed.

Lemma POST_runs_every_stage_witness :
  (validateSubmission Sample.retry_body = true
   /\ prop Sample.retry_body "snapshot" = Some (JObject Sample.snapshot_members)
   /\ prop (JObject Sample.snapshot_members) "staff" <> Some JNull
   /\ prop (JObject Sample.snapshot_members) "manager" <> Some JNull
   /\ forallb (converts Sample.plain_dates (JObject Sample.snapshot_members))
              convertedFields = true)
  /\ (let out := POST Sample.plain_dates (inr Sample.retry_body) in
      out.2 = [pdf_generate; pdf_upload; sheets_write]
      /\ http_status out.1 = 200
      /\ resp_success out.1 = true
      /\ resp_status out.1 = sub_complete
      /\ Some (resp_submissionId out.1) = prop Sample.retry_body "submissionId"
      /\ resp_sheetsRowId out.1 = Some "placeholder_row_id"
      /\ resp_driveFileId out.1 = Some "placeholder_drive_id"
      /\ resp_driveFileUrl out.1
         = Some "https://drive.google.com/file/d/placeholder_drive_id/view").
Proof.
  assert (Hconv : forallb (converts Sample.plain_dates (JObject Sample.snapshot_members))
                          convertedFields = true) by (vm_compute; reflexivity).
  split.
  - split; [reflexivity|]. split; [reflexivity|].
    split; [discriminate|]. split; [discriminate|exact Hconv].
  - apply (POST_runs_every_stage Sample.plain_dates Sample.retry_body).
    + reflexivity.
    + intros snapshot H. injection H as <-.
      split; [discriminate|]. split; [discriminate|exact Hconv].
Defined.

(** A body that validates is still answered 500 when a counter does not
    convert: here [doneCount] is an object with a member [toString]. *)
Example POST_counter_does_not_convert :
  validateSubmission Scenario.odd_counter_body = true
  /\ (let out := POST Sample.plain_dates (inr Scenario.odd_counter_body) in
      (http_status out.1, resp_success out.1, resp_status out.1)
      = (500, false, sub_failed)
      /\ out.2 = [pdf_generate; pdf_upload]).
Proof. vm_compute. repeat split; reflexivity. Qed.

(** C4, as stated, fails: a request that carries [status = sheets_done]
    and [pdfStatus = uploaded] is put through PDF generation, upload and
    row creation again, and through no [sheets_update]. *)
Lemma POST_retry_repeats_earlier_stages :
  prop Sample.retry_body "status" = Some (JString "sheets_done")
  /\ prop Sample.retry_body "pdfStatus" = Some (JString "uploaded")
  /\ (POST Sample.plain_dates (inr Sample.retry_body)).2
     = [pdf_generate; pdf_upload; sheets_write]
  /\ (POST Sample.plain_dates (inr Sample.retry_body)).2 <> [sheets_update].
Proof. repeat split; try reflexivity. discriminate. Qed.

(** ** Manager approval *)

(** What [handleManagerApprove] does when the page holds a checklist:
    one clock reading, one write to the [checklists] table, and the page
    state; no other table is touched. *)
Lemma handleManagerApprove_writes (w : World) (c : ChecklistInstance)
    (manager_id manager_name : string) (notes : option string) :
  page_checklist (page w) = Some c ->
  let now := clock (platform w) (clock_reads w) in
  let w' := (handleManagerApprove manager_id manager_name notes w).2 in
  exists c',
    tbl_checklists (db w') = <[cl_id c := c']> (tbl_checklists (db w))
    /\ page_checklist (page w') = Some c'
    /\ status c' = approved
    /\ approvedAt c' = Some now
    /\ lastModifiedAt c' = now
    /\ manager c' = Some {| ref_id := manager_id; ref_name := manager_name;
                            ref_role := manager_role |}
    /\ shiftNotes c' = notes
    /\ (cl_id c', tasks c', startedBy c', deviceId c', startedAt c')
       = (cl_id c, tasks c, startedBy c, deviceId c, startedAt c)
    /\ (doneCount c', notDoneCount c', naCount c', totalTasks c',
        completionPercentage c')
       = (doneCount c, notDoneCount c, naCount c, totalTasks c,
          completionPercentage c)
    /\ tbl_submissions (db w') = tbl_submissions (db w)
    /\ tbl_auditLog (db w') = tbl_auditLog (db w)
    /\ tbl_staff (db w') = tbl_staff (db w).
Proof.
  intros Hc. unfold handleManagerApprove, bind, read. rewrite Hc.
  cbn. eexists. repeat split; reflexivity.
Qed.

(** C3, as the code has it. For every checklist held by the page, manager
    approval stores it with status [approved], [approvedAt] and
    [lastModifiedAt] set to the time of approval, the manager reference and
    the shift notes; it enqueues nothing: the [submissions] table and the
    audit log are as before. *)
Theorem handleManagerApprove_approves_without_enqueueing (w : World)
    (c : ChecklistInstance) (manager_id manager_name : string)
    (notes : option string) :
  page_checklist (page w) = Some c ->
  let now := clock (platform w) (clock_reads w) in
  let w' := (handleManagerApprove manager_id manager_name notes w).2 in
  (exists c',
     tbl_checklists (db w') !! cl_id c = Some c'
     /\ status c' = approved
     /\ approvedAt c' = Some now
     /\ lastModifiedAt c' = now
     /\ manager c' = Some {| ref_id := manager_id; ref_name := manager_name;
                             ref_role := manager_role |}
     /\ shiftNotes c' = notes)
  /\ tbl_submissions (db w') = tbl_submissions (db w)
  /\ tbl_auditLog (db w') = tbl_auditLog (db w).
Proof.
  intros Hc now w'.
  destruct (handleManagerApprove_writes w c manager_id manager_name notes Hc)
    as (c' & Hdb & _ & Hst & Hat & Hlm & Hm & Hn & _ & _ & Hsub & Haud & _).
  split; [|split; assumption].
  exists c'. subst w'. rewrite Hdb, lookup_insert_eq. auto 10.
Qed.

Lemma handleManagerApprove_approves_without_enqueueing_witness :
  page_checklist (page Sample.open_world) = Some Sample.ten_of_ten
  /\ (let w' := (handleManagerApprove "mgr-1" "Morgan" None
                   Sample.open_world).2 in
      (exists c',
         tbl_checklists (db w') !! "chk-1" = Some c'
         /\ status c' = approved
         /\ approvedAt c' = Some 1000000
         /\ lastModifiedAt c' = 1000000
         /\ manager c' = Some {| ref_id := "mgr-1"; ref_name := "Morgan";
                                 ref_role := manager_role |}
         /\ shiftNotes c' = None)
      /\ tbl_submissions (db w') = tbl_submissions (db Sample.open_world)
      /\ tbl_auditLog (db w') = tbl_auditLog (db Sample.open_world)).
Proof.
  split; [reflexivity|].
  exact (handleManagerApprove_approves_without_enqueueing Sample.open_world
           Sample.ten_of_ten "mgr-1" "Morgan" None eq_refl).
Defined.

(** A verification that does not succeed approves nothing: the modal
    leaves the world as [verifyManagerPin] left it. *)
Lemma handleVerifyPin_failure (w : World) (selected : StaffRecord)
    (pinValue notes : string) (result : PinVerificationResult) (w1 : World) :
  verifyManagerPin (staff_id selected) pinValue w = (Returned result, w1) ->
  success result = false ->
  handleVerifyPin (Some selected) pinValue notes w = (Returned tt, w1).
Proof.
  intros Hv Hs. unfold handleVerifyPin, try_catch, bind.
  rewrite Hv, Hs. reflexivity.
Qed.

(** C3, as stated, fails: the manager of the sample enters the right PIN
    (4821) for the open ten-task checklist; the checklist is approved at
    that time, and the outbox table holds no submission, not one. *)
Lemma approval_enqueues_no_submission :
  let w' := (handleVerifyPin (Some (Sample.manager_with (Some 0) None))
               "4821" "" Sample.open_world).2 in
  status <$> tbl_checklists (db w') !! "chk-1" = Some approved
  /\ approvedAt <$> tbl_checklists (db w') !! "chk-1" = Some (Some 1000000)
  /\ size (tbl_submissions (db Sample.open_world)) = 0%nat
  /\ size (tbl_submissions (db w')) = 0%nat
  /\ size (tbl_submissions (db w'))
     <> S (size (tbl_submissions (db Sample.open_world))).
Proof. vm_compute. repeat split; try reflexivity. discriminate. Qed.

(* ===================================================================== *)
(** * Further properties of the code *)
(* ===================================================================== *)


(** ** Device configuration and audit log *)

(** The device id is stable: once [getDeviceId] has returned, it returns
    the same id again and changes nothing. *)
Theorem getDeviceId_stable (w w1 : World) (local : string) :
  getDeviceId w = (Returned local, w1) ->
  getDeviceId w1 = (Returned local, w1).
Proof.
  destruct w as [[st cl su dc au] se pg [has sha ids clk lim ver] n m].
  unfold getDeviceId, initializeDeviceConfig, generateUUID, bind, read, ret.
  run. destruct (dc !! "device_config") as [cfg|] eqn:Hcfg; destruct has; run.
  - intros H. inversion H; subst. run. rewrite Hcfg. reflexivity.
  - intros H. inversion H; subst. run. rewrite Hcfg. reflexivity.
  - intros H. inversion H.
  - intros H. inversion H; subst. run. rewrite lookup_insert_eq. reflexivity.
Qed.

Lemma getDeviceId_stable_witness :
  let first := getDeviceId Scenario.unconfigured_legacy_world in
  first = (Returned "uuid-0", first.2)
  /\ getDeviceId first.2 = (Returned "uuid-0", first.2).
Proof.
  split; [reflexivity|].
  exact (getDeviceId_stable Scenario.unconfigured_legacy_world
           (getDeviceId Scenario.unconfigured_legacy_world).2 "uuid-0" eq_refl).
Defined.

(** [logAuditEntry] only ever appends: every entry already in the log is
    still there, unchanged; when the call returns, exactly one entry was
    added, under a key that was free, carrying the action, entity and
    performer given; the other tables are not written. *)
Theorem logAuditEntry_appends (entry : AuditInput) (w : World) :
  let out := logAuditEntry entry w in
  (forall k e, tbl_auditLog (db w) !! k = Some e ->
               tbl_auditLog (db out.2) !! k = Some e)
  /\ (out.1 = Returned tt ->
      exists e,
        tbl_auditLog (db w) !! audit_id e = None
        /\ tbl_auditLog (db out.2) = <[audit_id e := e]> (tbl_auditLog (db w))
        /\ audit_action e = in_action entry
        /\ audit_entityId e = in_entityId entry
        /\ audit_entityType e = in_entityType entry
        /\ audit_performedBy e = in_performedBy entry)
  /\ (out.1 <> Returned tt -> tbl_auditLog (db out.2) = tbl_auditLog (db w))
  /\ tbl_staff (db out.2) = tbl_staff (db w)
  /\ tbl_checklists (db out.2) = tbl_checklists (db w)
  /\ tbl_submissions (db out.2) = tbl_submissions (db w).
Proof.
  destruct w as [[st cl su dc au] se pg [has sha ids clk lim ver] n m].
  unfold logAuditEntry, getDeviceId, initializeDeviceConfig, generateUUID,
    add_auditLog, bind, read, ret.
  run.
  destruct (dc !! "device_config") as [cfg|] eqn:Hcfg; destruct has; run.
  all: try (repeat split; auto; try done; fail).
  - destruct (au !! ids n) eqn:Hid; run.
    + repeat split; auto; done.
    + repeat split; auto; try done.
      * intros k e Hk. rewrite lookup_insert_ne; [done|]. congruence.
      * intros _. eexists (Build_AuditLogEntry (ids n) _ _ _ _ _ _ _).
        repeat split; simpl; auto.
  - destruct (au !! ids (S (S n))) eqn:Hid; run.
    + repeat split; auto; done.
    + repeat split; auto; try done.
      * intros k e Hk. rewrite lookup_insert_ne; [done|]. congruence.
      * intros _. eexists (Build_AuditLogEntry (ids (S (S n))) _ _ _ _ _ _ _).
        repeat split; simpl; auto.
Qed.


(** ** Resuming, submitting and closing a session *)

(** [resumeChecklist] opens a stored checklist only on the device that
    started it: with the device configured, the checklist becomes current
    exactly when it exists and its [deviceId] is the local one; otherwise the
    current checklist is left alone and an error says why. The database is
    never written. *)
Theorem resumeChecklist_own_device_only (w : World) (cfg : DeviceConfig)
    (checklistId : string) :
  tbl_deviceConfig (db w) !! "device_config" = Some cfg ->
  let w' := (resumeChecklist checklistId w).2 in
  db w' = db w
  /\ match tbl_checklists (db w) !! checklistId with
     | Some c =>
         if bool_decide (deviceId c = dc_deviceId cfg)
         then currentChecklist (session w') = Some c
              /\ error (session w') = None
         else currentChecklist (session w') = currentChecklist (session w)
              /\ error (session w')
                 = Some "This checklist belongs to another device"
     | None =>
         currentChecklist (session w') = currentChecklist (session w)
         /\ error (session w') = Some "Checklist not found"
     end.
Proof.
  destruct w as [[st cl su dc au] se pg [has sha ids clk lim ver] n m].
  cbn -[lookup]. intros Hcfg.
  unfold resumeChecklist, get_checklist, getDeviceId, initializeDeviceConfig,
    bind, try_catch, read, ret.
  run. destruct (cl !! checklistId) as [c|] eqn:Hc; run.
  - rewrite Hcfg. run. case_bool_decide; run; auto.
  - auto.
Qed.

Lemma resumeChecklist_own_device_only_witness :
  tbl_deviceConfig (db Sample.contended_world) !! "device_config"
    = Some Sample.device_A
  /\ (let w' := (resumeChecklist "chk-2" Sample.contended_world).2 in
      db w' = db Sample.contended_world
      /\ match tbl_checklists (db Sample.contended_world) !! "chk-2" with
         | Some c =>
             if bool_decide (deviceId c = dc_deviceId Sample.device_A)
             then currentChecklist (session w') = Some c
                  /\ error (session w') = None
             else currentChecklist (session w')
                  = currentChecklist (session Sample.contended_world)
                  /\ error (session w')
                     = Some "This checklist belongs to another device"
         | None =>
             currentChecklist (session w')
             = currentChecklist (session Sample.contended_world)
             /\ error (session w') = Some "Checklist not found"
         end).
Proof.
  split; [reflexivity|].
  exact (resumeChecklist_own_device_only Sample.contended_world
           Sample.device_A "chk-2" eq_refl).
Defined.

(** On a platform whose identifier fallback works (no [crypto.randomUUID]),
    with the device configured, for an open checklist that carries
    [startedBy], and when the identifier drawn for the audit entry is not
    yet a key of the audit log, [submitForReview] moves the checklist,
    whatever its status, to [pending_review] with [submittedAt] set, in the
    table and in the store alike, keeps tasks and counters, and appends one
    [checklist_submitted] audit entry for it. *)
Theorem submitForReview_submits (w : World) (c : ChecklistInstance)
    (staff : StaffReference) (cfg : DeviceConfig) :
  currentChecklist (session w) = Some c ->
  startedBy c = Some staff ->
  has_randomUUID (platform w) = false ->
  tbl_deviceConfig (db w) !! "device_config" = Some cfg ->
  tbl_auditLog (db w) !! random_ids (platform w) (ids_drawn w) = None ->
  let now := clock (platform w) (clock_reads w) in
  let w' := (submitForReview w).2 in
  exists c' e,
    tbl_checklists (db w') = <[cl_id c := c']> (tbl_checklists (db w))
    /\ currentChecklist (session w') = Some c'
    /\ error (session w') = error (session w)
    /\ (status c', submittedAt c', lastModifiedAt c')
       = (pending_review, Some now, now)
    /\ (tasks c', doneCount c', notDoneCount c', naCount c', totalTasks c',
        completionPercentage c')
       = (tasks c, doneCount c, notDoneCount c, naCount c, totalTasks c,
          completionPercentage c)
    /\ tbl_auditLog (db w') = <[audit_id e := e]> (tbl_auditLog (db w))
    /\ (audit_action e, audit_entityId e, audit_performedBy e, audit_deviceId e)
       = (checklist_submitted, cl_id c, Some (ref_id staff), dc_deviceId cfg).
Proof.
  destruct w as [[st cl su dc au] se pg [has sha ids clk lim ver] n m].
  cbn -[lookup]. intros Hc Hstaff -> Hcfg Hfresh.
  unfold submitForReview, logAuditEntry, getDeviceId, initializeDeviceConfig,
    generateUUID, add_auditLog, bind, try_catch, read, ret.
  run. rewrite Hc. run. rewrite Hstaff. run. rewrite Hcfg. run.
  rewrite Hfresh. run.
  eexists (submitted_checklist c (clk m)),
          (Build_AuditLogEntry (ids n) _ _ _ _ _ _ _).
  repeat split; reflexivity.
Qed.

(** On a record written by the checklist page (no [startedBy]) the
    submission stops after the table was written: the table holds
    [pending_review], no audit entry is appended, an error is set and the
    store keeps the checklist as it was. *)
Example submitForReview_page_written_checklist :
  let w := Sample.world false (db Scenario.page_world)
             (Some Scenario.page_written) in
  let w' := (submitForReview w).2 in
  status <$> tbl_checklists (db w') !! "chk-7" = Some pending_review
  /\ tbl_auditLog (db w') = tbl_auditLog (db w)
  /\ currentChecklist (session w') = Some Scenario.page_written
  /\ is_Some (error (session w')).
Proof. vm_compute. repeat split; try reflexivity. by eexists. Qed.

Lemma submitForReview_submits_witness :
  (currentChecklist (session Scenario.legacy_open_world) = Some Sample.ten_of_ten
   /\ startedBy Sample.ten_of_ten = Some Sample.alice
   /\ has_randomUUID (platform Scenario.legacy_open_world) = false
   /\ tbl_deviceConfig (db Scenario.legacy_open_world) !! "device_config"
      = Some Sample.device_A
   /\ tbl_auditLog (db Scenario.legacy_open_world) !! "uuid-0" = None)
  /\ (let w' := (submitForReview Scenario.legacy_open_world).2 in
      exists c' e,
        tbl_checklists (db w')
        = <["chk-1" := c']> (tbl_checklists (db Scenario.legacy_open_world))
        /\ currentChecklist (session w') = Some c'
        /\ error (session w') = None
        /\ (status c', submittedAt c', lastModifiedAt c')
           = (pending_review, Some 1000000, 1000000)
        /\ (tasks c', doneCount c', notDoneCount c', naCount c', totalTasks c',
            completionPercentage c')
           = (Sample.ten_tasks, 8, 0, 2, 10, 100)
        /\ tbl_auditLog (db w')
           = <[audit_id e := e]> (tbl_auditLog (db Scenario.legacy_open_world))
        /\ (audit_action e, audit_entityId e, audit_performedBy e,
            audit_deviceId e)
           = (checklist_submitted, "chk-1", Some "staff-1", "device-A")).
Proof.
  split; [repeat split; reflexivity|].
  exact (submitForReview_submits Scenario.legacy_open_world Sample.ten_of_ten
           Sample.alice Sample.device_A eq_refl eq_refl eq_refl eq_refl
           eq_refl).
Defined.




(** ** Force-close and the conflict check *)

Lemma checkForActiveSessions_returns_stored (tid : TemplateId) (w : World)
    (session : ActiveSession) :
  (checkForActiveSessions tid w).1 = Returned (Some session) ->
  exists k s,
    tbl_checklists (db w) !! k = Some s /\ active_for tid s
    /\ as_checklistId session = cl_id s.
Proof.
  unfold checkForActiveSessions, try_catch, bind.
  destruct (getDeviceId w) as [[local|e] w1] eqn:Hget; [|discriminate].
  unfold read. rewrite (getDeviceId_keeps_checklists _ _ _ Hget).
  pose proof (elem_of_activeSessions_of tid (tbl_checklists (db w))) as Hmem.
  destruct (activeSessions_of tid (tbl_checklists (db w))) as [|x l] eqn:Hl;
    [discriminate|].
  destruct (most_recent_head (x :: l)) as (s & before & after & Hhead & Hs & _);
    [done|].
  cbn [length Z.of_nat]. rewrite Hhead. unfold snapshot_of.
  destruct (startedBy s) as [staff|]; cbn; [|discriminate].
  intros H. injection H as <-.
  assert (s ∈ x :: l) as Hin by (rewrite Hs; apply elem_of_app; right; left).
  apply Hmem in Hin as [[k Hk] Hact]. by exists k, s.
Qed.

(** What [forceCloseSession] writes for a stored checklist, on every
    platform: the closed instance under the instance's id. *)
Lemma forceCloseSession_writes (w : World) (checklistId : string)
    (c : ChecklistInstance) (by_manager : StaffReference) (reason : string) :
  tbl_checklists (db w) !! checklistId = Some c ->
  tbl_checklists (db (forceCloseSession checklistId by_manager reason w).2)
  = <[cl_id c := closed_checklist c by_manager reason
                    (clock (platform w) (clock_reads w))]>
      (tbl_checklists (db w)).
Proof.
  destruct w as [[st cl su dc au] se pg [has sha ids clk lim ver] n m].
  cbn -[lookup]. intros Hc.
  unfold forceCloseSession, get_checklist, logAuditEntry, getDeviceId,
    initializeDeviceConfig, generateUUID, add_auditLog, bind, try_catch,
    read, ret.
  run. rewrite Hc. run.
  destruct (dc !! "device_config") as [cfg|] eqn:Hcfg; destruct has; run;
    try reflexivity.
  - destruct (au !! ids n); run; [reflexivity|].
    case_bool_decide; reflexivity.
  - destruct (au !! ids (S (S n))); run; [reflexivity|].
    case_bool_decide; reflexivity.
Qed.

(** For a stored checklist, whatever its previous status,
    [forceCloseSession] stores it as [sync_failed] with the manager, the
    reason and the time of closing; from then on [checkForActiveSessions]
    reports it for no template. *)
Theorem forceCloseSession_ends_session (w : World) (checklistId : string)
    (c : ChecklistInstance) (by_manager : StaffReference) (reason : string) :
  table_keyed (tbl_checklists (db w)) ->
  tbl_checklists (db w) !! checklistId = Some c ->
  let now := clock (platform w) (clock_reads w) in
  let w' := (forceCloseSession checklistId by_manager reason w).2 in
  (exists c',
     tbl_checklists (db w') !! checklistId = Some c'
     /\ status c' = sync_failed
     /\ forceClosedBy c'
        = Some {| fc_manager := by_manager; fc_reason := reason;
                  fc_closedAt := now |}
     /\ (tasks c', doneCount c', notDoneCount c', naCount c',
         completionPercentage c')
        = (tasks c, doneCount c, notDoneCount c, naCount c,
           completionPercentage c))
  /\ table_keyed (tbl_checklists (db w'))
  /\ (forall tid session,
        (checkForActiveSessions tid w').1 = Returned (Some session) ->
        as_checklistId session <> checklistId).
Proof.
  intros Hkeyed Hc now w'.
  pose proof (forceCloseSession_writes w checklistId c by_manager reason Hc)
    as Hdb. fold w' in Hdb. fold now in Hdb.
  pose proof (Hkeyed _ _ Hc) as Hid.
  assert (Hkeyed' : table_keyed (tbl_checklists (db w'))).
  { intros k x. rewrite Hdb, Hid. rewrite lookup_insert.
    case_decide as Hk; [intros [= <-]; simpl; congruence|].  apply Hkeyed. }
  split; [|split; [exact Hkeyed'|]].
  - exists (closed_checklist c by_manager reason now).
    rewrite Hdb, Hid, lookup_insert_eq. repeat split.
  - intros tid session Hret Heq.
    destruct (checkForActiveSessions_returns_stored _ _ _ Hret)
      as (k & s & Hk & [_ Hactive] & Has).
    pose proof (Hkeyed' _ _ Hk) as Hks.
    assert (Hkk : k = checklistId) by congruence.
    rewrite Hkk, Hdb, Hid, lookup_insert_eq in Hk. injection Hk as <-.
    simpl in Hactive. destruct Hactive; discriminate.
Qed.

Lemma forceCloseSession_ends_session_witness :
  (table_keyed (tbl_checklists (db Sample.contended_world))
   /\ tbl_checklists (db Sample.contended_world) !! "chk-2"
      = Some (Sample.checklist_of "chk-2" closing pending_review "device-B" 1500))
  /\ (let w' := (forceCloseSession "chk-2" Scenario.morgan "left open"
                   Sample.contended_world).2 in
      (exists c',
         tbl_checklists (db w') !! "chk-2" = Some c'
         /\ status c' = sync_failed
         /\ forceClosedBy c'
            = Some {| fc_manager := Scenario.morgan; fc_reason := "left open";
                      fc_closedAt := 1000000 |}
         /\ (tasks c', doneCount c', notDoneCount c', naCount c',
             completionPercentage c')
            = (Sample.ten_tasks, 8, 0, 2, 100))
      /\ table_keyed (tbl_checklists (db w'))
      /\ (forall tid session,
            (checkForActiveSessions tid w').1 = Returned (Some session) ->
            as_checklistId session <> "chk-2")).
Proof.
  assert (Hkeyed : table_keyed (tbl_checklists (db Sample.contended_world))).
  { change (map_Forall (fun k x => cl_id x = k)
              (tbl_checklists (db Sample.contended_world))).
    refine (bool_decide_unpack _ _). vm_compute. exact I. }
  assert (Hstored :
    tbl_checklists (db Sample.contended_world) !! "chk-2"
    = Some (Sample.checklist_of "chk-2" closing pending_review "device-B" 1500))
    by (vm_compute; reflexivity).
  split; [split; [exact Hkeyed|exact Hstored]|].
  exact (forceCloseSession_ends_session Sample.contended_world "chk-2" _
           Scenario.morgan "left open" Hkeyed Hstored).
Defined.

(** After it, the conflict check of the sample falls back to the older
    session of this device. *)
Example contended_after_force_close :
  as_checklistId <$>
    (match (checkForActiveSessions closing
              (forceCloseSession "chk-2" Scenario.morgan "left open"
                 Sample.contended_world).2).1 with
     | Returned r => r
     | Thrown _ => None
     end) = Some "chk-1".
Proof. vm_compute. reflexivity. Qed.

(** A checklist that is not stored cannot be closed: an error is set and
    the database is left as it was. *)
Lemma forceCloseSession_not_found (w : World) (checklistId : string)
    (by_manager : StaffReference) (reason : string) :
  tbl_checklists (db w) !! checklistId = None ->
  let w' := (forceCloseSession checklistId by_manager reason w).2 in
  db w' = db w /\ error (session w') = Some "Checklist not found".
Proof.
  destruct w as [[st cl su dc au] se pg [has sha ids clk lim ver] n m].
  cbn -[lookup]. intros Hc.
  unfold forceCloseSession, get_checklist, bind, try_catch, read.
  run. rewrite Hc. run. split; reflexivity.
Qed.

Lemma forceCloseSession_not_found_witness :
  tbl_checklists (db Sample.contended_world) !! "chk-404" = None
  /\ (let w' := (forceCloseSession "chk-404" Scenario.morgan "left open"
                   Sample.contended_world).2 in
      db w' = db Sample.contended_world
      /\ error (session w') = Some "Checklist not found").
Proof.
  split; [reflexivity|].
  exact (forceCloseSession_not_found Sample.contended_world "chk-404"
           Scenario.morgan "left open" eq_refl).
Defined.


(** ** Counters under task updates *)

Lemma status_count_cons (s : TaskCompletionStatus) (t : TaskCompletion)
    (l : list TaskCompletion) :
  status_count s (t :: l) = unit_if (tc_status t) s + status_count s l.
Proof.
  unfold status_count, unit_if. rewrite filter_cons.
  case_decide; case_bool_decide; try congruence; cbn [length]; lia.
Qed.

Lemma tally_counts (l : list TaskCompletion) (d n a : Z) :
  foldl tally (d, n, a) l
  = (d + status_count done l, n + status_count not_done l,
     a + status_count na l).
Proof.
  revert d n a. induction l as [|t l IH]; intros d n a.
  - unfold status_count. simpl. f_equal; [f_equal|]; lia.
  - cbn [foldl]. unfold tally at 2. rewrite !status_count_cons.
    destruct (tc_status t) eqn:Ht; rewrite IH;
      unfold unit_if; repeat case_bool_decide; try congruence;
      repeat (f_equal; try lia).
Qed.

Lemma stats_count_of (s : TaskCompletionStatus)
    (m : gmap string TaskCompletion) (total : Z) :
  count_of s (calculateCompletionStats m total)
  = status_count s (Object_values m).
Proof.
  unfold calculateCompletionStats. rewrite tally_counts.
  destruct s; simpl; lia.
Qed.

Lemma status_count_perm (s : TaskCompletionStatus)
    (l l' : list TaskCompletion) :
  l ≡ₚ l' -> status_count s l = status_count s l'.
Proof. intros H. unfold status_count. by rewrite H. Qed.

Lemma Object_values_insert (m : gmap string TaskCompletion) (t : string)
    (e : TaskCompletion) :
  Object_values (<[t := e]> m) ≡ₚ e :: Object_values (delete t m).
Proof.
  unfold Object_values. rewrite <- insert_delete_eq.
  rewrite map_to_list_insert by apply lookup_delete_eq. reflexivity.
Qed.

Lemma Object_values_lookup (m : gmap string TaskCompletion) (t : string) :
  Object_values m
  ≡ₚ match m !! t with
     | Some e => e :: Object_values (delete t m)
     | None => Object_values (delete t m)
     end.
Proof.
  unfold Object_values. destruct (m !! t) as [e|] eqn:Ht.
  - rewrite <- (map_to_list_delete m t e Ht). reflexivity.
  - by rewrite delete_id.
Qed.

(** Each update moves one unit: in the statistics of the map with one
    entry set, the counter of the entry's new status has one more, the
    counter of the status the task had before (if it was in the map) one
    less, and nothing else changes. *)
Theorem stats_after_update (m : gmap string TaskCompletion) (t : string)
    (e' : TaskCompletion) (total : Z) (s : TaskCompletionStatus) :
  count_of s (calculateCompletionStats (<[t := e']> m) total)
  = count_of s (calculateCompletionStats m total)
    - match m !! t with
      | Some e => unit_if (tc_status e) s
      | None => 0
      end
    + unit_if (tc_status e') s.
Proof.
  rewrite !stats_count_of.
  rewrite (status_count_perm _ _ _ (Object_values_insert m t e')).
  rewrite (status_count_perm _ _ _ (Object_values_lookup m t)).
  rewrite status_count_cons.
  destruct (m !! t); rewrite ?status_count_cons; lia.
Qed.

(** The same for [updateTask]: the counters of the instance it writes are
    those of the previous task map, moved by one unit. *)
Theorem updateTask_moves_one_unit (c : ChecklistInstance) (taskId : string)
    (st : TaskCompletionStatus) (note : option string)
    (inputValue : option float) (now : Timestamp) (s : TaskCompletionStatus) :
  counter_of s (updated_checklist c taskId st note inputValue now)
  = count_of s (calculateCompletionStats (tasks c) (totalTasks c))
    - match tasks c !! taskId with
      | Some e => unit_if (tc_status e) s
      | None => 0
      end
    + unit_if st s.
Proof.
  transitivity
    (count_of s (calculateCompletionStats
                   (tasks (updated_checklist c taskId st note inputValue now))
                   (totalTasks c))).
  - destruct s; reflexivity.
  - simpl tasks. rewrite stats_after_update. reflexivity.
Qed.

(** ** Reloading and persisting *)

(** After [updateTask] the table and the store agree: loading the
    checklist from the table, or persisting the current one, changes neither
    the database nor the current checklist. *)
Theorem updateTask_then_reload (w : World) (c : ChecklistInstance)
    (taskId : string) (st : TaskCompletionStatus) (note : option string)
    (inputValue : option float) :
  currentChecklist (session w) = Some c ->
  let w1 := (updateTask taskId st note inputValue w).2 in
  let reloaded := (loadFromDb (cl_id c) w1).2 in
  let persisted := (persistToDb w1).2 in
  tbl_checklists (db w1) !! cl_id c = currentChecklist (session w1)
  /\ currentChecklist (session reloaded) = currentChecklist (session w1)
  /\ db reloaded = db w1
  /\ currentChecklist (session persisted) = currentChecklist (session w1)
  /\ tbl_checklists (db persisted) = tbl_checklists (db w1).
Proof.
  destruct w as [[st0 cl su dc au] se pg [has sha ids clk lim ver] n m].
  cbn -[lookup]. intros Hc.
  unfold updateTask, loadFromDb, persistToDb, get_checklist, bind, try_catch,
    read.
  run. rewrite Hc. run. rewrite !lookup_insert_eq. run.
  rewrite insert_insert_eq. repeat split; reflexivity.
Qed.

Lemma updateTask_then_reload_witness :
  currentChecklist (session Sample.open_world) = Some Sample.ten_of_ten
  /\ (let w1 := (updateTask "t3" na None None Sample.open_world).2 in
      let reloaded := (loadFromDb "chk-1" w1).2 in
      let persisted := (persistToDb w1).2 in
      tbl_checklists (db w1) !! "chk-1" = currentChecklist (session w1)
      /\ currentChecklist (session reloaded) = currentChecklist (session w1)
      /\ db reloaded = db w1
      /\ currentChecklist (session persisted) = currentChecklist (session w1)
      /\ tbl_checklists (db persisted) = tbl_checklists (db w1)).
Proof.
  split; [reflexivity|].
  exact (updateTask_then_reload Sample.open_world Sample.ten_of_ten
           "t3" na None None eq_refl).
Defined.


(** ** PIN administration *)

Lemma isValidPinFormat_spec (pin : string) :
  isValidPinFormat pin = true
  <-> String.length pin = 4%nat
      /\ Forall (fun c => is_digit c = true) (list_ascii_of_string pin).
Proof.
  unfold isValidPinFormat. split.
  - destruct pin as [|a [|b [|c [|d [|e rest]]]]]; try discriminate.
    rewrite !andb_true_iff. intros [[[Ha Hb] Hc] Hd].
    split; [reflexivity|]. simpl. repeat constructor; assumption.
  - intros [Hlen Hall].
    destruct pin as [|a [|b [|c [|d [|e rest]]]]]; try discriminate.
    simpl in Hall. repeat (apply Forall_cons in Hall as [? Hall]).
    rewrite !andb_true_iff. auto.
Qed.

(** The format test accepts exactly the strings of four decimal digits. *)
Theorem isValidPinFormat_four_digits (pin : string) :
  isValidPinFormat pin = true
  <-> String.length pin = 4%nat
      /\ Forall (fun c => is_digit c = true) (list_ascii_of_string pin).
Proof. exact (isValidPinFormat_spec pin). Qed.

Lemma verifyManagerPin_writes_only_lock (w : World) (managerId pin : string) :
  let w' := (verifyManagerPin managerId pin w).2 in
  (forall k, k <> managerId ->
     tbl_staff (db w') !! k = tbl_staff (db w) !! k)
  /\ identity_and_pin <$> tbl_staff (db w') !! managerId
     = identity_and_pin <$> tbl_staff (db w) !! managerId
  /\ tbl_checklists (db w') = tbl_checklists (db w)
  /\ tbl_submissions (db w') = tbl_submissions (db w)
  /\ tbl_auditLog (db w') = tbl_auditLog (db w).
Proof.
  destruct w as [[st cl su dc au] se pg [has sha ids clk lim ver] n m].
  unfold verifyManagerPin, hashPin, getPinSalt, initializeDeviceConfig,
    generateUUID, bind, try_catch, read, ret.
  run. destruct (st !! managerId) as [r|] eqn:Hr; run; [|by rewrite ?Hr].
  case_bool_decide as Hrole; run; [|by rewrite ?Hr].
  destruct (staff_lockedUntil r) as [until|] eqn:Hlock; run.
  - destruct (clk m <? until) eqn:Hnow; run; [by rewrite ?Hr|].
    destruct (dc !! "device_config") as [cfg|] eqn:Hcfg; destruct has; run;
      try (repeat split; intros; rewrite ?lookup_alter_ne by done;
           rewrite ?lookup_alter_eq, ?Hr; reflexivity).
    all: case_bool_decide; run;
      try destruct (PIN_SECURITY.MAX_ATTEMPTS
                    <=? default 0 (staff_failedAttempts r) + 1); run;
      repeat split; intros; rewrite ?lookup_alter_ne by done;
      rewrite ?lookup_alter_eq, ?Hr; reflexivity.
  - destruct (dc !! "device_config") as [cfg|] eqn:Hcfg; destruct has; run;
      try (repeat split; intros; rewrite ?lookup_alter_ne by done;
           rewrite ?lookup_alter_eq, ?Hr; reflexivity).
    all: case_bool_decide; run;
      try destruct (PIN_SECURITY.MAX_ATTEMPTS
                    <=? default 0 (staff_failedAttempts r) + 1); run;
      repeat split; intros; rewrite ?lookup_alter_ne by done;
      rewrite ?lookup_alter_eq, ?Hr; reflexivity.
Qed.

(** The device configuration under verification: untouched where it
    exists; where it does not, hashing the PIN may create it. *)
Lemma verifyManagerPin_deviceConfig (w : World) (managerId pin : string) :
  let w' := (verifyManagerPin managerId pin w).2 in
  match tbl_deviceConfig (db w) !! "device_config" with
  | Some _ => tbl_deviceConfig (db w') = tbl_deviceConfig (db w)
  | None =>
      tbl_deviceConfig (db w') = tbl_deviceConfig (db w)
      \/ exists cfg,
           tbl_deviceConfig (db w')
           = <["device_config" := cfg]> (tbl_deviceConfig (db w))
  end.
Proof.
  destruct w as [[st cl su dc au] se pg [has sha ids clk lim ver] n m].
  unfold verifyManagerPin, hashPin, getPinSalt, initializeDeviceConfig,
    generateUUID, bind, try_catch, read, ret.
  run.
  destruct (st !! managerId) as [r|] eqn:Hr; run;
    [|destruct (dc !! "device_config"); auto].
  case_bool_decide as Hrole; run; [|destruct (dc !! "device_config"); auto].
  destruct (staff_lockedUntil r) as [until|] eqn:Hlock; run.
  - destruct (clk m <? until) eqn:Hnow; run;
      [destruct (dc !! "device_config"); auto|].
    destruct (dc !! "device_config") as [cfg|] eqn:Hcfg; destruct has; run;
      auto.
    all: case_bool_decide; run;
      try destruct (PIN_SECURITY.MAX_ATTEMPTS
                    <=? default 0 (staff_failedAttempts r) + 1); run;
      first [reflexivity | by left | right; by eexists].
  - destruct (dc !! "device_config") as [cfg|] eqn:Hcfg; destruct has; run;
      auto.
    all: case_bool_decide; run;
      try destruct (PIN_SECURITY.MAX_ATTEMPTS
                    <=? default 0 (staff_failedAttempts r) + 1); run;
      first [reflexivity | by left | right; by eexists].
Qed.

(** Verification writes the failed-attempt count and the lock of the
    manager in question and, on a device that has no configuration yet, the
    configuration that hashing the PIN creates; nothing else: every other
    staff record, and on that record the name, role, activity and PIN hash,
    and the checklist, submission and audit tables stay as they were, and so
    does an existing device configuration. *)
Theorem verifyManagerPin_frame (w : World) (managerId pin : string) :
  let w' := (verifyManagerPin managerId pin w).2 in
  (forall k, k <> managerId ->
     tbl_staff (db w') !! k = tbl_staff (db w) !! k)
  /\ identity_and_pin <$> tbl_staff (db w') !! managerId
     = identity_and_pin <$> tbl_staff (db w) !! managerId
  /\ tbl_checklists (db w') = tbl_checklists (db w)
  /\ tbl_submissions (db w') = tbl_submissions (db w)
  /\ tbl_auditLog (db w') = tbl_auditLog (db w)
  /\ match tbl_deviceConfig (db w) !! "device_config" with
     | Some _ => tbl_deviceConfig (db w') = tbl_deviceConfig (db w)
     | None =>
         tbl_deviceConfig (db w') = tbl_deviceConfig (db w)
         \/ exists cfg,
              tbl_deviceConfig (db w')
              = <["device_config" := cfg]> (tbl_deviceConfig (db w))
     end.
Proof.
  intros w'.
  destruct (verifyManagerPin_writes_only_lock w managerId pin)
    as (Hother & Hsame & Hcl & Hsub & Haud).
  repeat (split; [assumption|]).
  exact (verifyManagerPin_deviceConfig w managerId pin).
Qed.

(** On a device without configuration and without [crypto.randomUUID], a
    verification creates the configuration. *)
Example verifyManagerPin_configures_device :
  size (tbl_deviceConfig (db Scenario.unconfigured_legacy_world)) = 0%nat
  /\ size (tbl_deviceConfig
             (db (verifyManagerPin "mgr-1" "4821"
                    Scenario.unconfigured_legacy_world).2)) = 1%nat.
Proof. vm_compute. split; reflexivity. Qed.


Ltac enter_pin :=
  unfold changeManagerPin, setupManagerPin, resetManagerPin, isManagerLocked,
    verifyManagerPin, hashPin, getPinSalt, initializeDeviceConfig,
    generateUUID, bind, try_catch, read, ret.

(** Setting a PIN and verifying it: for a manager record on a configured
    device, [setupManagerPin] (and likewise [resetManagerPin]) with a
    four-digit PIN returns true, whatever lockout the record was in, and the
    same PIN then verifies, leaving the record unlocked with no failed
    attempt. *)
Theorem setupManagerPin_then_verify (w : World) (cfg : DeviceConfig)
    (r : StaffRecord) (managerId pin : string) :
  isValidPinFormat pin = true ->
  tbl_staff (db w) !! managerId = Some r ->
  staff_role_of r = manager_role ->
  tbl_deviceConfig (db w) !! "device_config" = Some cfg ->
  let set := setupManagerPin managerId pin w in
  let checked := verifyManagerPin managerId pin set.2 in
  set.1 = Returned true
  /\ resetManagerPin managerId pin w = set
  /\ checked.1 = Returned {| success := true; pin_error := None;
                             lockoutRemaining := None;
                             attemptsRemaining := None |}
  /\ lock_state <$> tbl_staff (db checked.2) !! managerId = Some (Unlocked 0).
Proof.
  destruct w as [[st cl su dc au] se pg [has sha ids clk lim ver] n m].
  cbn -[lookup]. intros Hpin Hr Hrole Hcfg. enter_pin.
  rewrite Hpin. run. rewrite Hcfg. run.
  rewrite lookup_alter_eq, Hr. run.
  rewrite (bool_decide_eq_true_2 _ Hrole). run. rewrite Hcfg. run.
  rewrite bool_decide_eq_true_2 by reflexivity. run.
  rewrite !lookup_alter_eq, Hr. repeat split; reflexivity.
Qed.

Lemma setupManagerPin_then_verify_witness :
  (isValidPinFormat "7301" = true
   /\ tbl_staff (db Scenario.locked_world) !! "mgr-1"
      = Some (Sample.manager_with (Some 3) (Some 2000000))
   /\ staff_role_of (Sample.manager_with (Some 3) (Some 2000000)) = manager_role
   /\ tbl_deviceConfig (db Scenario.locked_world) !! "device_config"
      = Some Sample.device_A)
  /\ (let set := setupManagerPin "mgr-1" "7301" Scenario.locked_world in
      let checked := verifyManagerPin "mgr-1" "7301" set.2 in
      set.1 = Returned true
      /\ resetManagerPin "mgr-1" "7301" Scenario.locked_world = set
      /\ checked.1 = Returned {| success := true; pin_error := None;
                                 lockoutRemaining := None;
                                 attemptsRemaining := None |}
      /\ lock_state <$> tbl_staff (db checked.2) !! "mgr-1"
         = Some (Unlocked 0)).
Proof.
  split; [repeat split; reflexivity|].
  exact (setupManagerPin_then_verify Scenario.locked_world Sample.device_A
           (Sample.manager_with (Some 3) (Some 2000000)) "mgr-1" "7301"
           eq_refl eq_refl eq_refl eq_refl).
Defined.

(** A PIN that is not four decimal digits is refused by both functions:
    they return false and change nothing. *)
Theorem malformed_pin_refused (w : World) (managerId pin : string) :
  ~ (String.length pin = 4%nat
     /\ Forall (fun c => is_digit c = true) (list_ascii_of_string pin)) ->
  setupManagerPin managerId pin w = (Returned false, w)
  /\ resetManagerPin managerId pin w = (Returned false, w).
Proof.
  intros Hbad.
  assert (Hpin : isValidPinFormat pin = false).
  { destruct (isValidPinFormat pin) eqn:H; [|done].
    exfalso. by apply Hbad, isValidPinFormat_spec. }
  enter_pin. rewrite Hpin. split; reflexivity.
Qed.

Lemma malformed_pin_refused_witness :
  ~ (String.length "12a4" = 4%nat
     /\ Forall (fun c => is_digit c = true) (list_ascii_of_string "12a4"))
  /\ setupManagerPin "mgr-1" "12a4" Scenario.staffed_world
     = (Returned false, Scenario.staffed_world)
  /\ resetManagerPin "mgr-1" "12a4" Scenario.staffed_world
     = (Returned false, Scenario.staffed_world).
Proof.
  assert (Hbad : ~ (String.length "12a4" = 4%nat
     /\ Forall (fun c => is_digit c = true) (list_ascii_of_string "12a4"))).
  { intros [_ H]. simpl in H. do 2 (apply Forall_cons in H as [_ H]).
    apply Forall_cons in H as [H _]. vm_compute in H. discriminate. }
  split; [exact Hbad|].
  exact (malformed_pin_refused Scenario.staffed_world "mgr-1" "12a4" Hbad).
Defined.

(** For an id under which no staff record is stored, [setupManagerPin]
    still reports success, although nothing is written; the PIN cannot be
    verified afterwards ([not_found]). *)
Theorem setupManagerPin_unknown_manager (w : World) (cfg : DeviceConfig)
    (managerId pin : string) :
  isValidPinFormat pin = true ->
  tbl_staff (db w) !! managerId = None ->
  tbl_deviceConfig (db w) !! "device_config" = Some cfg ->
  let set := setupManagerPin managerId pin w in
  set.1 = Returned true
  /\ db set.2 = db w
  /\ (verifyManagerPin managerId pin set.2).1
     = Returned {| success := false; pin_error := Some not_found;
                   lockoutRemaining := None; attemptsRemaining := None |}.
Proof.
  destruct w as [[st cl su dc au] se pg [has sha ids clk lim ver] n m].
  cbn -[lookup]. intros Hpin Hr Hcfg. enter_pin.
  rewrite Hpin. run. rewrite Hcfg. run.
  assert (Hsame : alter (set_pin (sha (dc_pinSalt cfg +:+ ":" +:+ managerId
                                         +:+ ":" +:+ pin))) managerId st = st).
  { apply map_eq. intros k. destruct (decide (k = managerId)) as [->|Hk].
    - by rewrite lookup_alter_eq, Hr.
    - by rewrite lookup_alter_ne. }
  rewrite Hsame, Hr. repeat split; reflexivity.
Qed.

Lemma setupManagerPin_unknown_manager_witness :
  (isValidPinFormat "7301" = true
   /\ tbl_staff (db Scenario.staffed_world) !! "nobody" = None
   /\ tbl_deviceConfig (db Scenario.staffed_world) !! "device_config"
      = Some Sample.device_A)
  /\ (let set := setupManagerPin "nobody" "7301" Scenario.staffed_world in
      set.1 = Returned true
      /\ db set.2 = db Scenario.staffed_world
      /\ (verifyManagerPin "nobody" "7301" set.2).1
         = Returned {| success := false; pin_error := Some not_found;
                       lockoutRemaining := None; attemptsRemaining := None |}).
Proof.
  split; [repeat split; reflexivity|].
  exact (setupManagerPin_unknown_manager Scenario.staffed_world Sample.device_A
           "nobody" "7301" eq_refl eq_refl eq_refl).
Defined.

(** [isManagerLocked] writes nothing, and it agrees with verification:
    when it reports a manager as locked with some seconds remaining,
    [verifyManagerPin] at that moment answers [account_locked] with the same
    seconds, for any PIN, and leaves the database as it is. *)
Theorem isManagerLocked_agrees_with_verify (w : World)
    (managerId pin : string) (seconds : option Z) :
  staff_role_of <$> tbl_staff (db w) !! managerId = Some manager_role ->
  (isManagerLocked managerId w).1
  = Returned {| locked := true; remainingSeconds := seconds |} ->
  db (isManagerLocked managerId w).2 = db w
  /\ (verifyManagerPin managerId pin w).1
     = Returned {| success := false; pin_error := Some account_locked;
                   lockoutRemaining := seconds; attemptsRemaining := None |}
  /\ db (verifyManagerPin managerId pin w).2 = db w.
Proof.
  destruct w as [[st cl su dc au] se pg [has sha ids clk lim ver] n m].
  cbn -[lookup]. intros Hrole. enter_pin. run.
  destruct (st !! managerId) as [r|] eqn:Hr; [|discriminate].
  cbn in Hrole. injection Hrole as Hrole.
  rewrite (bool_decide_eq_true_2 _ Hrole). run.
  destruct (staff_lockedUntil r) as [until|]; run; [|discriminate].
  destruct (clk m <? until); run; [|discriminate].
  intros [= <-]. repeat split; reflexivity.
Qed.

Lemma isManagerLocked_agrees_with_verify_witness :
  (staff_role_of <$> tbl_staff (db Scenario.locked_world) !! "mgr-1"
     = Some manager_role
   /\ (isManagerLocked "mgr-1" Scenario.locked_world).1
      = Returned {| locked := true; remainingSeconds := Some 1000 |})
  /\ db (isManagerLocked "mgr-1" Scenario.locked_world).2
     = db Scenario.locked_world
  /\ (verifyManagerPin "mgr-1" "4821" Scenario.locked_world).1
     = Returned {| success := false; pin_error := Some account_locked;
                   lockoutRemaining := Some 1000;
                   attemptsRemaining := None |}
  /\ db (verifyManagerPin "mgr-1" "4821" Scenario.locked_world).2
     = db Scenario.locked_world.
Proof.
  split; [split; reflexivity|].
  exact (isManagerLocked_agrees_with_verify Scenario.locked_world "mgr-1"
           "4821" (Some 1000) eq_refl eq_refl).
Defined.

(** [isManagerLocked] never writes, whatever it answers. *)
Lemma isManagerLocked_reads_only (w : World) (managerId : string) :
  db (isManagerLocked managerId w).2 = db w.
Proof.
  destruct w as [[st cl su dc au] se pg [has sha ids clk lim ver] n m].
  enter_pin. run.
  destruct (st !! managerId) as [r|]; run; [|reflexivity].
  destruct (staff_lockedUntil r) as [until|]; run; [|reflexivity].
  destruct (clk m <? until); reflexivity.
Qed.

Lemma verify_not_found_witness :
  match tbl_staff (db Scenario.staffed_world) !! "staff-2" with
  | Some r => staff_role_of r <> manager_role
  | None => True
  end
  /\ verifyManagerPin "staff-2" "4821" Scenario.staffed_world
     = (Returned {| success := false; pin_error := Some not_found;
                    lockoutRemaining := None; attemptsRemaining := None |},
        Scenario.staffed_world).
Proof.
  assert (H : match tbl_staff (db Scenario.staffed_world) !! "staff-2" with
              | Some r => staff_role_of r <> manager_role
              | None => True
              end) by (vm_compute; discriminate).
  split; [exact H|].
  exact (verify_not_found Scenario.staffed_world "staff-2" "4821" H).
Defined.


(** A [setupManagerPin] that returns false has written no staff record. *)
Lemma setupManagerPin_false_keeps_staff (w : World) (managerId pin : string) :
  (setupManagerPin managerId pin w).1 = Returned false ->
  tbl_staff (db (setupManagerPin managerId pin w).2) = tbl_staff (db w).
Proof.
  destruct w as [[st cl su dc au] se pg [has sha ids clk lim ver] n m].
  enter_pin. destruct (isValidPinFormat pin); run; [|reflexivity].
  destruct (dc !! "device_config") as [cfg|]; destruct has; run;
    try discriminate; reflexivity.
Qed.

Lemma pin_hash_kept (tbl tbl' : gmap string StaffRecord) (managerId : string) :
  (forall k, k <> managerId -> tbl' !! k = tbl !! k) ->
  identity_and_pin <$> tbl' !! managerId = identity_and_pin <$> tbl !! managerId ->
  forall k, staff_pinHash <$> tbl' !! k = staff_pinHash <$> tbl !! k.
Proof.
  intros Hother Hsame k. destruct (decide (k = managerId)) as [->|Hk].
  - destruct (tbl' !! managerId) as [r'|], (tbl !! managerId) as [r|];
      try discriminate; [|reflexivity].
    simpl in *. injection Hsame as _ _ _ _ _ _ Hp. by rewrite Hp.
  - by rewrite Hother.
Qed.

(** A PIN change that fails changes no PIN: whenever [changeManagerPin]
    does not report success (wrong or locked current PIN, malformed new PIN,
    or a failed update), every staff record has the PIN hash it had. *)
Theorem changeManagerPin_failure_keeps_hash (w : World)
    (managerId currentPin newPin : string) (result : ChangePinResult) :
  (changeManagerPin managerId currentPin newPin w).1 = Returned result ->
  change_success result = false ->
  forall k,
    staff_pinHash
      <$> tbl_staff (db (changeManagerPin managerId currentPin newPin w).2) !! k
    = staff_pinHash <$> tbl_staff (db w) !! k.
Proof.
  pose proof (verifyManagerPin_writes_only_lock w managerId currentPin)
    as (Hother & Hsame & _).
  unfold changeManagerPin, bind.
  destruct (verifyManagerPin managerId currentPin w) as [[v|e] w1] eqn:Hv;
    cbn [fst snd] in *.
  - destruct (success v); cbn [negb].
    + destruct (isValidPinFormat newPin) eqn:Hnew; cbn [negb].
      * pose proof (setupManagerPin_false_keeps_staff w1 managerId newPin)
          as Hsetup.
        destruct (setupManagerPin managerId newPin w1) as [[ok|e] w2];
          cbn [fst snd ret] in *.
        -- intros [= <-]. cbn. intros ->.
           rewrite Hsetup by reflexivity. by apply (pin_hash_kept _ _ managerId).
        -- discriminate.
      * intros _ _. cbn. by apply (pin_hash_kept _ _ managerId).
    + intros _ _. cbn. by apply (pin_hash_kept _ _ managerId).
  - discriminate.
Qed.

Lemma changeManagerPin_failure_keeps_hash_witness :
  ((changeManagerPin "mgr-1" "0000" "7301" Scenario.staffed_world).1
     = Returned {| change_success := false;
                   change_error := Some "Current PIN is incorrect." |}
   /\ change_success {| change_success := false;
                        change_error := Some "Current PIN is incorrect." |}
      = false)
  /\ forall k,
       staff_pinHash
         <$> tbl_staff
               (db (changeManagerPin "mgr-1" "0000" "7301"
                      Scenario.staffed_world).2) !! k
       = staff_pinHash <$> tbl_staff (db Scenario.staffed_world) !! k.
Proof.
  split; [split; reflexivity|].
  exact (changeManagerPin_failure_keeps_hash Scenario.staffed_world
           "mgr-1" "0000" "7301" _ eq_refl eq_refl).
Defined.

(** A PIN change that reports success took effect: the new PIN has the
    four-digit format and verifies at once. *)
Theorem changeManagerPin_success_verifies (w : World)
    (managerId currentPin newPin : string) (result : ChangePinResult) :
  (changeManagerPin managerId currentPin newPin w).1 = Returned result ->
  change_success result = true ->
  isValidPinFormat newPin = true
  /\ (verifyManagerPin managerId newPin
        (changeManagerPin managerId currentPin newPin w).2).1
     = Returned {| success := true; pin_error := None;
                   lockoutRemaining := None; attemptsRemaining := None |}.
Proof.
  destruct w as [[st cl su dc au] se pg [has sha ids clk lim ver] n m].
  enter_pin. run.
  destruct (st !! managerId) as [r|] eqn:Hr; run;
    [|intros [= <-]; discriminate].
  case_bool_decide as Hrole; run; [|intros [= <-]; discriminate].
  destruct (staff_lockedUntil r) as [until|] eqn:Hlock; run.
  - destruct (clk m <? until) eqn:Hnow; run; [intros [= <-]; discriminate|].
    destruct (dc !! "device_config") as [cfg|] eqn:Hcfg; destruct has; run;
      try (intros [= <-]; discriminate).
    + case_bool_decide; run.
      * destruct (isValidPinFormat newPin); run; [|intros [= <-]; discriminate].
        rewrite Hcfg. run. intros _ _. split; [done|].
        rewrite !lookup_alter_eq, Hr. run.
        rewrite (bool_decide_eq_true_2 _ Hrole). run. rewrite Hcfg. run.
        by rewrite bool_decide_eq_true_2.
      * destruct (PIN_SECURITY.MAX_ATTEMPTS
                  <=? default 0 (staff_failedAttempts r) + 1); run;
          intros [= <-]; discriminate.
    + case_bool_decide; run.
      * destruct (isValidPinFormat newPin); run; [|intros [= <-]; discriminate].
        rewrite Hcfg. run. intros _ _. split; [done|].
        rewrite !lookup_alter_eq, Hr. run.
        rewrite (bool_decide_eq_true_2 _ Hrole). run. rewrite Hcfg. run.
        by rewrite bool_decide_eq_true_2.
      * destruct (PIN_SECURITY.MAX_ATTEMPTS
                  <=? default 0 (staff_failedAttempts r) + 1); run;
          intros [= <-]; discriminate.
    + case_bool_decide; run.
      * destruct (isValidPinFormat newPin); run; [|intros [= <-]; discriminate].
        rewrite lookup_insert_eq. run. intros _ _. split; [done|].
        rewrite !lookup_alter_eq, Hr. run.
        rewrite (bool_decide_eq_true_2 _ Hrole). run.
        rewrite lookup_insert_eq. run.
        by rewrite bool_decide_eq_true_2.
      * destruct (PIN_SECURITY.MAX_ATTEMPTS
                  <=? default 0 (staff_failedAttempts r) + 1); run;
          intros [= <-]; discriminate.
  - destruct (dc !! "device_config") as [cfg|] eqn:Hcfg; destruct has; run;
      try (intros [= <-]; discriminate).
    + case_bool_decide; run.
      * destruct (isValidPinFormat newPin); run; [|intros [= <-]; discriminate].
        rewrite Hcfg. run. intros _ _. split; [done|].
        rewrite !lookup_alter_eq, Hr. run.
        rewrite (bool_decide_eq_true_2 _ Hrole). run. rewrite Hcfg. run.
        by rewrite bool_decide_eq_true_2.
      * destruct (PIN_SECURITY.MAX_ATTEMPTS
                  <=? default 0 (staff_failedAttempts r) + 1); run;
          intros [= <-]; discriminate.
    + case_bool_decide; run.
      * destruct (isValidPinFormat newPin); run; [|intros [= <-]; discriminate].
        rewrite Hcfg. run. intros _ _. split; [done|].
        rewrite !lookup_alter_eq, Hr. run.
        rewrite (bool_decide_eq_true_2 _ Hrole). run. rewrite Hcfg. run.
        by rewrite bool_decide_eq_true_2.
      * destruct (PIN_SECURITY.MAX_ATTEMPTS
                  <=? default 0 (staff_failedAttempts r) + 1); run;
          intros [= <-]; discriminate.
    + case_bool_decide; run.
      * destruct (isValidPinFormat newPin); run; [|intros [= <-]; discriminate].
        rewrite lookup_insert_eq. run. intros _ _. split; [done|].
        rewrite !lookup_alter_eq, Hr. run.
        rewrite (bool_decide_eq_true_2 _ Hrole). run.
        rewrite lookup_insert_eq. run.
        by rewrite bool_decide_eq_true_2.
      * destruct (PIN_SECURITY.MAX_ATTEMPTS
                  <=? default 0 (staff_failedAttempts r) + 1); run;
          intros [= <-]; discriminate.
Qed.

Lemma changeManagerPin_success_verifies_witness :
  ((changeManagerPin "mgr-1" "4821" "7301" Scenario.staffed_world).1
     = Returned {| change_success := true; change_error := None |}
   /\ change_success {| change_success := true; change_error := None |} = true)
  /\ isValidPinFormat "7301" = true
  /\ (verifyManagerPin "mgr-1" "7301"
        (changeManagerPin "mgr-1" "4821" "7301" Scenario.staffed_world).2).1
     = Returned {| success := true; pin_error := None;
                   lockoutRemaining := None; attemptsRemaining := None |}.
Proof.
  split; [split; reflexivity|].
  exact (changeManagerPin_success_verifies Scenario.staffed_world
           "mgr-1" "4821" "7301" _ eq_refl eq_refl).
Defined.


(** ** Submission endpoint, the accepting side *)

Lemma has_property_elem (name : string) (members : list (string * Json)) :
  has_property name (JObject members) = true <-> name ∈ members.*1.
Proof.
  simpl. rewrite existsb_exists, list_elem_of_fmap. split.
  - intros ([k v] & Hin & Heq). apply String.eqb_eq in Heq. simpl in Heq.
    subst. exists (name, v). split; [done|]. by apply list_elem_of_In.
  - intros ([k v] & -> & Hin). exists (k, v). split.
    + by apply list_elem_of_In.
    + apply String.eqb_refl.
Qed.

(** [validateSubmission] accepts exactly the objects that hold a non-empty
    string [submissionId] and an object [snapshot] in which each of the
    sixteen required names is present; it looks at no value of the
    snapshot. *)
Theorem validateSubmission_accepts (body : Json) :
  validateSubmission body = true
  <-> exists members sid fields,
        body = JObject members
        /\ member "submissionId" members = Some (JString sid)
        /\ sid <> ""
        /\ member "snapshot" members = Some (JObject fields)
        /\ (forall name, name ∈ requiredFields -> name ∈ fields.*1).
Proof.
  unfold validateSubmission. split.
  - destruct body as [ |b|x|s|items|members]; cbn;
      try discriminate; try (destruct b; discriminate);
      try (rewrite orb_true_r; discriminate).
    destruct (member "submissionId" members) as [[ |b|x|sid|items|ms]|] eqn:Hid;
      cbn; try discriminate.
    destruct (String.eqb_spec sid "") as [->|Hsid]; cbn; [discriminate|].
    destruct (member "snapshot" members) as [[ |b|x|s|items|fields]|] eqn:Hsn;
      cbn -[forallb has_property requiredFields];
      try discriminate; try (rewrite orb_true_r; discriminate);
      try (cbn; discriminate).
    intros Hall.
    change (forallb (fun field => has_property field (JObject fields))
              requiredFields = true) in Hall.
    exists members, sid, fields. repeat split; auto.
    intros name Hname. apply has_property_elem.
    rewrite forallb_forall in Hall. apply Hall. by apply list_elem_of_In.
  - intros (members & sid & fields & -> & Hid & Hsid & Hsn & Hall).
    cbn -[forallb has_property requiredFields]. rewrite Hid.
    cbn -[forallb has_property requiredFields].
    destruct (String.eqb_spec sid "") as [->|_]; [done|].
    cbn -[forallb has_property requiredFields].
    rewrite Hsn. cbn -[forallb has_property requiredFields].
    apply forallb_forall. intros name Hname.
    apply has_property_elem, Hall. by apply list_elem_of_In.
Qed.

(** With [staff] or [manager] null, no row is built. *)
Lemma createSheetsRow_null_person (dates : DateApi) (snapshot : Json)
    (pdfLink : string) :
  prop snapshot "staff" = Some JNull \/ prop snapshot "manager" = Some JNull ->
  exists e, createSheetsRow dates snapshot pdfLink = inl e.
Proof.
  intros Hnull. unfold createSheetsRow.
  destruct (new_Date dates (prop snapshot "startedAt")); [by eexists|].
  destruct (new_Date dates (prop snapshot "submittedAt")); [by eexists|].
  destruct Hnull as [->| ->]; cbn [prop_of]; [by eexists|].
  destruct (prop_of (prop snapshot "staff") "name"); by eexists.
Qed.

(** So a snapshot whose [staff] (or [manager]) is [null] passes validation;
    the handler then fails while building the row: it answers 500 with
    [success = false], after its PDF and upload stages and before the row
    stage. *)
Theorem POST_null_staff_is_a_server_error (dates : DateApi) (body snapshot : Json) :
  validateSubmission body = true ->
  prop body "snapshot" = Some snapshot ->
  prop snapshot "staff" = Some JNull \/ prop snapshot "manager" = Some JNull ->
  let out := POST dates (inr body) in
  http_status out.1 = 500
  /\ resp_success out.1 = false
  /\ resp_status out.1 = sub_failed
  /\ out.2 = [pdf_generate; pdf_upload].
Proof.
  intros Hvalid Hsnap Hnull. unfold POST. rewrite Hvalid. cbn [negb].
  rewrite Hsnap. cbn [default from_option]. unfold id.
  cbv zeta.
  match goal with
  | |- context [createSheetsRow dates snapshot ?link] =>
      destruct (createSheetsRow_null_person dates snapshot link Hnull)
        as [e He]; rewrite He
  end.
  repeat split; reflexivity.
Qed.

Lemma POST_null_staff_is_a_server_error_witness :
  (validateSubmission Scenario.null_staff_body = true
   /\ prop Scenario.null_staff_body "snapshot"
      = Some (JObject (Sample.snapshot_members ++ [("staff", JNull)])%list)
   /\ (prop (JObject (Sample.snapshot_members ++ [("staff", JNull)])%list) "staff"
         = Some JNull
       \/ prop (JObject (Sample.snapshot_members ++ [("staff", JNull)])%list)
            "manager" = Some JNull))
  /\ (let out := POST Sample.plain_dates (inr Scenario.null_staff_body) in
      http_status out.1 = 500
      /\ resp_success out.1 = false
      /\ resp_status out.1 = sub_failed
          /\ out.2 = [pdf_generate; pdf_upload]).
Proof.
  split; [split; [reflexivity|split; [reflexivity|left; reflexivity]]|].
  exact (POST_null_staff_is_a_server_error Sample.plain_dates
           Scenario.null_staff_body _ eq_refl eq_refl (or_introl eq_refl)).
Defined.


(** ** Retry delay, order and range *)

Lemma calculateRetryDelay_formula (retryCount : nat) :
  calculateRetryDelay retryCount = Z.min (1000 * 2 ^ Z.of_nat retryCount) 60000.
Proof.
  unfold calculateRetryDelay, SYNC_CONFIG.BASE_RETRY_DELAY_MS,
    SYNC_CONFIG.BACKOFF_MULTIPLIER, SYNC_CONFIG.MAX_RETRY_DELAY_MS.
  by rewrite Math_pow_spec.
Qed.

(** A later retry never waits less than an earlier one, and every delay
    lies between the base delay and the maximum. *)
Theorem calculateRetryDelay_monotone (earlier later : nat) :
  (earlier <= later)%nat ->
  SYNC_CONFIG.BASE_RETRY_DELAY_MS <= calculateRetryDelay earlier
  /\ calculateRetryDelay earlier <= calculateRetryDelay later
  /\ calculateRetryDelay later <= SYNC_CONFIG.MAX_RETRY_DELAY_MS.
Proof.
  intros Hle. rewrite !calculateRetryDelay_formula.
  unfold SYNC_CONFIG.BASE_RETRY_DELAY_MS, SYNC_CONFIG.MAX_RETRY_DELAY_MS.
  assert (Hpow : 2 ^ Z.of_nat earlier <= 2 ^ Z.of_nat later)
    by (apply Z.pow_le_mono_r; lia).
  assert (Hone : 1 <= 2 ^ Z.of_nat earlier).
  { change 1 with (2 ^ 0). apply Z.pow_le_mono_r; lia. }
  lia.
Qed.

Lemma calculateRetryDelay_monotone_witness :
  (2 <= 9)%nat
  /\ SYNC_CONFIG.BASE_RETRY_DELAY_MS <= calculateRetryDelay 2
  /\ calculateRetryDelay 2 <= calculateRetryDelay 9
  /\ calculateRetryDelay 9 <= SYNC_CONFIG.MAX_RETRY_DELAY_MS.
Proof.
  split; [lia|]. apply (calculateRetryDelay_monotone 2 9). lia.
Defined.

(** Within the retry budget the maximum is never the delay: each of the
    retries 0 .. [MAX_RETRIES] waits less than [MAX_RETRY_DELAY_MS], and
    each retry before the last waits exactly half as long as the next. *)
Theorem calculateRetryDelay_doubles_within_budget (retryCount : nat) :
  Z.of_nat retryCount <= SYNC_CONFIG.MAX_RETRIES ->
  calculateRetryDelay retryCount < SYNC_CONFIG.MAX_RETRY_DELAY_MS
  /\ (Z.of_nat retryCount < SYNC_CONFIG.MAX_RETRIES ->
      calculateRetryDelay (S retryCount) = 2 * calculateRetryDelay retryCount).
Proof.
  unfold SYNC_CONFIG.MAX_RETRIES, SYNC_CONFIG.MAX_RETRY_DELAY_MS. intros Hle.
  assert (Hn : (retryCount <= 5)%nat) by lia.
  do 6 (destruct retryCount as [|retryCount];
        [split; [reflexivity|intros ?; first [reflexivity|lia]]|]).
  lia.
Qed.

Lemma calculateRetryDelay_doubles_within_budget_witness :
  Z.of_nat 4 <= SYNC_CONFIG.MAX_RETRIES
  /\ calculateRetryDelay 4 < SYNC_CONFIG.MAX_RETRY_DELAY_MS
  /\ (Z.of_nat 4 < SYNC_CONFIG.MAX_RETRIES ->
      calculateRetryDelay 5 = 2 * calculateRetryDelay 4).
Proof.
  split; [vm_compute; discriminate|].
  apply (calculateRetryDelay_doubles_within_budget 4).
  vm_compute. discriminate.
Defined.


(** ** Home page: the active checklist shown per template *)

Lemma TemplateId_string_inj (a b : TemplateId) :
  TemplateId_string a = TemplateId_string b -> a = b.
Proof. destruct a, b; simpl; congruence. Qed.

Lemma elem_of_anyOf_active (tbl : gmap string ChecklistInstance)
    (c : ChecklistInstance) :
  c ∈ anyOf_active tbl
  <-> (exists k, tbl !! k = Some c)
      /\ (status c = in_progress \/ status c = pending_review).
Proof.
  unfold anyOf_active.
  rewrite elem_of_app, !list_elem_of_In, !filter_In, <- !list_elem_of_In.
  rewrite !bool_decide_eq_true, elem_of_toArray. tauto.
Qed.

Lemma keep_most_recent_lookup (m : gmap string ChecklistInstance)
    (x : ChecklistInstance) :
  let m1 := keep_most_recent m x in
  (forall k c, m1 !! k = Some c ->
     m !! k = Some c \/ (c = x /\ TemplateId_string (templateId x) = k))
  /\ (forall k c0, m !! k = Some c0 ->
        exists kept, m1 !! k = Some kept
                     /\ lastModifiedAt c0 <= lastModifiedAt kept)
  /\ (exists kept, m1 !! TemplateId_string (templateId x) = Some kept
                   /\ lastModifiedAt x <= lastModifiedAt kept).
Proof.
  unfold keep_most_recent. set (key := TemplateId_string (templateId x)).
  destruct (m !! key) as [old|] eqn:Hold;
    [destruct (Z.ltb_spec (lastModifiedAt old) (lastModifiedAt x)) as [Hlt|Hge]|].
  all: cbv zeta; repeat split.
  all: try (intros k c Hk; destruct (decide (key = k)) as [<-|Hne];
            [rewrite lookup_insert_eq in Hk; injection Hk as <-; by right
            |rewrite lookup_insert_ne in Hk by done; by left]).
  all: try (intros k c0 Hk; destruct (decide (key = k)) as [<-|Hne];
            [rewrite lookup_insert_eq; eexists; split; [done|];
             rewrite Hold in Hk; first [discriminate|injection Hk as <-; lia]
            |rewrite lookup_insert_ne by done; eexists; split; [done|lia]]).
  all: try (rewrite lookup_insert_eq; eexists; split; [done|lia]).
  - intros k c Hk. by left.
  - intros k c0 Hk. exists c0. split; [done|lia].
  - exists old. split; [done|lia].
Qed.

Lemma loadActiveChecklists_fold (l : list ChecklistInstance) :
  forall m : gmap string ChecklistInstance,
    let shown := foldl keep_most_recent m l in
    (forall k c, shown !! k = Some c ->
       m !! k = Some c \/ (c ∈ l /\ TemplateId_string (templateId c) = k))
    /\ (forall k c0, m !! k = Some c0 ->
          exists kept, shown !! k = Some kept
                       /\ lastModifiedAt c0 <= lastModifiedAt kept)
    /\ (forall c, c ∈ l ->
          exists kept, shown !! TemplateId_string (templateId c) = Some kept
                       /\ lastModifiedAt c <= lastModifiedAt kept).
Proof.
  induction l as [|x l IH]; intros m; cbn [foldl]; cbv zeta.
  - repeat split.
    + intros k c Hk. by left.
    + intros k c0 Hk. exists c0. split; [done|lia].
    + intros c Hc. inversion Hc.
  - destruct (keep_most_recent_lookup m x) as (Hfrom & Hkeeps & Hx).
    destruct (IH (keep_most_recent m x)) as (IHfrom & IHkeeps & IHl).
    repeat split.
    + intros k c Hk. apply IHfrom in Hk as [Hk|[Hin Hkey]].
      * apply Hfrom in Hk as [Hk|[-> Hkey]]; [by left|].
        right. split; [left|done].
      * right. split; [by right|done].
    + intros k c0 Hk. apply Hkeeps in Hk as (kept & Hk & Hle).
      apply IHkeeps in Hk as (kept' & Hk & Hle').
      exists kept'. split; [done|lia].
    + intros c Hc. apply elem_of_cons in Hc as [->|Hc]; [|by apply IHl].
      destruct Hx as (kept & Hk & Hle).
      apply IHkeeps in Hk as (kept' & Hk & Hle').
      exists kept'. split; [done|lia].
Qed.

Lemma loadActiveChecklists_shows (tbl : gmap string ChecklistInstance)
    (tid : TemplateId) :
  match loadActiveChecklists tbl !! TemplateId_string tid with
  | Some shown =>
      (exists k, tbl !! k = Some shown) /\ active_for tid shown
      /\ (forall k c, tbl !! k = Some c -> active_for tid c ->
            lastModifiedAt c <= lastModifiedAt shown)
  | None => forall k c, tbl !! k = Some c -> ~ active_for tid c
  end.
Proof.
  unfold loadActiveChecklists.
  destruct (loadActiveChecklists_fold (anyOf_active tbl) ∅)
    as (Hfrom & _ & Hall).
  destruct (foldl keep_most_recent ∅ (anyOf_active tbl)
              !! TemplateId_string tid) as [shown|] eqn:Hshown.
  - destruct (Hfrom _ _ Hshown) as [Hempty|[Hin Hkey]];
      [by rewrite lookup_empty in Hempty|].
    apply TemplateId_string_inj in Hkey.
    apply elem_of_anyOf_active in Hin as [Hstored Hstatus].
    repeat split; auto.
    intros k c Hk [Htid Hst].
    destruct (Hall c) as (kept & Hkept & Hle).
    { apply elem_of_anyOf_active. split; [by exists k|done]. }
    rewrite Htid, Hshown in Hkept. by injection Hkept as <-.
  - intros k c Hk [Htid Hst].
    destruct (Hall c) as (kept & Hkept & _).
    { apply elem_of_anyOf_active. split; [by exists k|done]. }
    rewrite Htid in Hkept. congruence.
Qed.

(** The home page shows, for each template, a stored instance of it that
    is [in_progress] or [pending_review] and whose [lastModifiedAt] is
    greatest among such instances, and shows none when there is none. *)
Theorem loadActiveChecklists_most_recent (tbl : gmap string ChecklistInstance)
    (tid : TemplateId) :
  match loadActiveChecklists tbl !! TemplateId_string tid with
  | Some shown =>
      (exists k, tbl !! k = Some shown) /\ active_for tid shown
      /\ (forall k c, tbl !! k = Some c -> active_for tid c ->
            lastModifiedAt c <= lastModifiedAt shown)
  | None => forall k c, tbl !! k = Some c -> ~ active_for tid c
  end.
Proof. exact (loadActiveChecklists_shows tbl tid). Qed.

(** The conflict check of the store and the home page agree on the
    checklists that carry [startedBy]: with the device id at hand, and when
    every stored active checklist of the template carries [startedBy],
    [checkForActiveSessions] reports a session of the template exactly when
    the home page shows a checklist for it, and the two were last modified at
    the same time. *)
Theorem checkForActiveSessions_agrees_with_home_page (tid : TemplateId)
    (w w1 : World) (local : string) :
  getDeviceId w = (Returned local, w1) ->
  (forall k c, tbl_checklists (db w) !! k = Some c -> active_for tid c ->
     is_Some (startedBy c)) ->
  match loadActiveChecklists (tbl_checklists (db w)) !! TemplateId_string tid,
        (checkForActiveSessions tid w).1 with
  | Some shown, Returned (Some session) =>
      as_templateId session = templateId shown
      /\ as_lastActivityAt session = lastModifiedAt shown
  | None, Returned None => True
  | _, _ => False
  end.
Proof.
  intros Hget Hstarted.
  pose proof (loadActiveChecklists_shows (tbl_checklists (db w)) tid) as Hhome.
  pose proof (elem_of_activeSessions_of tid (tbl_checklists (db w))) as Hmem.
  destruct (activeSessions_of tid (tbl_checklists (db w))) as [|x l] eqn:Hl.
  - unfold checkForActiveSessions, try_catch, bind. rewrite Hget.
    unfold read. rewrite (getDeviceId_keeps_checklists _ _ _ Hget), Hl.
    cbn. destruct (loadActiveChecklists _ !! _) as [shown|]; [|done].
    destruct Hhome as ([k Hk] & Hact & _).
    assert (Hin : shown ∈ @nil ChecklistInstance)
      by (apply Hmem; split; [by exists k|done]).
    inversion Hin.
  - destruct (most_recent_head (x :: l))
      as (s & before & after & Hhead & Hs & Hb & Ha); [done|].
    rewrite (checkForActiveSessions_of_head tid w w1 local x s l Hget Hl Hhead).
    assert (Hsin : s ∈ x :: l) by (rewrite Hs; apply elem_of_app; right; left).
    apply Hmem in Hsin as [[ks Hks] Hsact].
    destruct (Hstarted ks s Hks Hsact) as [staff Hstaff].
    unfold snapshot_of. rewrite Hstaff.
    destruct (loadActiveChecklists _ !! _) as [shown|].
    + destruct Hhome as ([k Hk] & Hact & Hmax).
      pose proof Hact as [Ht1 _]. pose proof Hsact as [Ht2 _].
      split; [simpl; congruence|]. simpl.
      pose proof (Hmax _ _ Hks Hsact) as Hle1.
      assert (Hshin : shown ∈ x :: l)
        by (apply Hmem; split; [by exists k|done]).
      rewrite Hs in Hshin.
      apply elem_of_app in Hshin as [Hin|Hin];
        [apply Hb in Hin; lia|].
      apply elem_of_cons in Hin as [->|Hin]; [done|].
      apply Ha in Hin. lia.
    + exact (Hhome _ _ Hks Hsact).
Qed.

Lemma checkForActiveSessions_agrees_with_home_page_witness :
  (getDeviceId Sample.contended_world
     = (Returned "device-A", Sample.contended_world)
   /\ map_Forall (fun _ c => is_Some (startedBy c))
        (tbl_checklists (db Sample.contended_world)))
  /\ match loadActiveChecklists (tbl_checklists (db Sample.contended_world))
             !! TemplateId_string closing,
           (checkForActiveSessions closing Sample.contended_world).1 with
     | Some shown, Returned (Some session) =>
         as_templateId session = templateId shown
         /\ as_lastActivityAt session = lastModifiedAt shown
     | None, Returned None => True
     | _, _ => False
     end.
Proof.
  assert (Hstarted : map_Forall (fun _ c => is_Some (startedBy c))
                       (tbl_checklists (db Sample.contended_world))).
  { refine (bool_decide_unpack _ _). vm_compute. exact I. }
  split; [split; [reflexivity|exact Hstarted]|].
  exact (checkForActiveSessions_agrees_with_home_page closing
           Sample.contended_world _ _ eq_refl
           (fun k c Hk _ => Hstarted k c Hk)).
Defined.


(** ** The submit gate of the checklist page *)

(** Up to 199 applicable tasks the rounded percentage is 100 only when
    every applicable task is done. *)
Lemma percentage_100_table (d n : Z) :
  0 <= d -> 0 <= n -> 0 < d + n <= 199 ->
  (Math_round ((of_Z d / of_Z (d + n)) * 100)%float =? 100) = (n =? 0).
Proof.
  intros Hd Hn Hsum.
  assert (Hall : forallb (fun d' => forallb (fun n' =>
            if (0 <? d' + n') && (d' + n' <=? 199)
            then Bool.eqb
                   (Math_round ((of_Z d' / of_Z (d' + n')) * 100)%float =? 100)
                   (n' =? 0)
            else true) (seqZ 0 200)) (seqZ 0 200) = true)
    by (vm_compute; reflexivity).
  rewrite forallb_forall in Hall.
  assert (Hd' : In d (seqZ 0 200)) by (apply list_elem_of_In, elem_of_seqZ; lia).
  specialize (Hall d Hd'). rewrite forallb_forall in Hall.
  assert (Hn' : In n (seqZ 0 200)) by (apply list_elem_of_In, elem_of_seqZ; lia).
  specialize (Hall n Hn').
  destruct (Z.ltb_spec 0 (d + n)); [|lia].
  destruct (Z.leb_spec (d + n) 199); [|lia].
  by apply Bool.eqb_prop in Hall.
Qed.

(** At 200 applicable tasks one open task no longer shows: 199 of 200 is
    99.5, which rounds to 100. *)
Example percentage_at_199_of_200 :
  Math_round ((of_Z 199 / of_Z 200) * 100)%float = 100.
Proof. vm_compute. reflexivity. Qed.

(** When [totalTasks] is the number of entries of the task map (and below
    200), the submit button of the page is enabled exactly when no task is
    [not_done]. *)
Theorem isComplete_iff_nothing_open (c : ChecklistInstance) :
  produced_by_store c ->
  Z.of_nat (size (tasks c)) = totalTasks c ->
  totalTasks c <= 199 ->
  isComplete c = true <-> notDoneCount c = 0.
Proof.
  intros Hc Hsize Hbound.
  destruct (produced_counters c Hc) as (_ & Hn & _ & Hp).
  unfold isComplete. rewrite Hp, Hn. clear Hp Hn.
  pose proof (stats_counts_sum (tasks c) (totalTasks c)) as Hsum.
  pose proof (stats_counts_nonneg (tasks c) (totalTasks c)) as (Hd & Hn & Ha).
  cbv zeta in Hsum. revert Hsum Hd Hn Ha.
  unfold calculateCompletionStats.
  destruct (foldl tally (0, 0, 0) (Object_values (tasks c))) as [[d n] a].
  cbn [stats_doneCount stats_notDoneCount stats_naCount
       stats_completionPercentage].
  intros Hsum Hd Hn Ha.
  destruct (Z.ltb_spec 0 (totalTasks c - a)) as [Hpos|Hnone].
  - replace (totalTasks c - a) with (d + n) by lia.
    rewrite percentage_100_table by lia. apply Z.eqb_eq.
  - split; [lia|]. intros _. reflexivity.
Qed.

Lemma isComplete_iff_nothing_open_witness :
  (produced_by_store
     (updated_checklist Sample.ten_of_ten "t3" not_done None None 5)
   /\ Z.of_nat (size (tasks (updated_checklist Sample.ten_of_ten "t3" not_done
                                               None None 5)))
      = totalTasks (updated_checklist Sample.ten_of_ten "t3" not_done None None 5)
   /\ totalTasks (updated_checklist Sample.ten_of_ten "t3" not_done None None 5)
      <= 199)
  /\ (isComplete (updated_checklist Sample.ten_of_ten "t3" not_done None None 5)
        = true
      <-> notDoneCount (updated_checklist Sample.ten_of_ten "t3" not_done
                                         None None 5) = 0).
Proof.
  assert (Hsize :
    Z.of_nat (size (tasks (updated_checklist Sample.ten_of_ten "t3" not_done
                                             None None 5)))
    = totalTasks (updated_checklist Sample.ten_of_ten "t3" not_done None None 5))
    by (vm_compute; reflexivity).
  assert (Hbound :
    totalTasks (updated_checklist Sample.ten_of_ten "t3" not_done None None 5)
    <= 199) by (vm_compute; discriminate).
  split; [split; [constructor|split; assumption]|].
  exact (isComplete_iff_nothing_open _ (produced_by_update _ _ _ _ _ _)
           Hsize Hbound).
Defined.

Lemma percentage_shipped_table (tid : TemplateId) (a : Z) :
  0 <= a < tpl_totalTasks (getTemplate tid) ->
  100 < Math_round
          ((of_Z (Z.of_nat (length (getAllTaskIds (getTemplate tid))) - a)
            / of_Z (tpl_totalTasks (getTemplate tid) - a)) * 100)%float.
Proof.
  intros Ha.
  assert (Hall : forallb (fun tid' => forallb (fun a' =>
            100 <? Math_round
                     ((of_Z (Z.of_nat (length (getAllTaskIds (getTemplate tid')))
                             - a')
                       / of_Z (tpl_totalTasks (getTemplate tid') - a')) * 100)%float)
            (seqZ 0 (tpl_totalTasks (getTemplate tid'))))
            [pass_opening; floor_opening; closing] = true)
    by (vm_compute; reflexivity).
  rewrite forallb_forall in Hall.
  assert (Ht : In tid [pass_opening; floor_opening; closing])
    by (destruct tid; simpl; tauto).
  specialize (Hall tid Ht). rewrite forallb_forall in Hall.
  assert (Ha' : In a (seqZ 0 (tpl_totalTasks (getTemplate tid))))
    by (apply list_elem_of_In, elem_of_seqZ; lia).
  specialize (Hall a Ha'). lia.
Qed.

(** On each of the three shipped templates, whose [totalTasks] is smaller
    than the number of their tasks, the gate works the other way round: a
    checklist over the template's tasks with fewer than [totalTasks] of them
    not applicable enables the submit button only while some task is still
    [not_done]; with every task settled its percentage is above 100. *)
Theorem isComplete_on_shipped_templates (tid : TemplateId)
    (c : ChecklistInstance) :
  produced_by_store c ->
  totalTasks c = tpl_totalTasks (getTemplate tid) ->
  size (tasks c) = length (getAllTaskIds (getTemplate tid)) ->
  naCount c < totalTasks c ->
  (isComplete c = true -> 0 < notDoneCount c)
  /\ (notDoneCount c = 0 -> 100 < completionPercentage c).
Proof.
  intros Hc Htotal Hsize Hna.
  destruct (produced_counters c Hc) as (_ & Hn & Ha & Hp).
  unfold isComplete. rewrite Hp, Hn. rewrite Ha in Hna. clear Hp Hn Ha.
  pose proof (stats_counts_sum (tasks c) (totalTasks c)) as Hsum.
  pose proof (stats_counts_nonneg (tasks c) (totalTasks c)) as (Hd & Hn & Ha).
  cbv zeta in Hsum. rewrite Hsize in Hsum. revert Hsum Hd Hn Ha Hna.
  unfold calculateCompletionStats.
  destruct (foldl tally (0, 0, 0) (Object_values (tasks c))) as [[d n] a].
  cbn [stats_doneCount stats_notDoneCount stats_naCount
       stats_completionPercentage].
  intros Hsum Hd Hn Ha Hna.
  destruct (Z.ltb_spec 0 (totalTasks c - a)) as [_|Hnone]; [|lia].
  assert (Hsettled : n = 0 ->
    100 < Math_round ((of_Z d / of_Z (totalTasks c - a)) * 100)%float).
  { intros ->.
    replace d with (Z.of_nat (length (getAllTaskIds (getTemplate tid))) - a)
      by lia.
    rewrite Htotal. apply percentage_shipped_table. lia. }
  split; [|exact Hsettled].
  intros Hgate. apply Z.eqb_eq in Hgate.
  destruct (decide (n = 0)) as [Hz|Hnz]; [|lia].
  specialize (Hsettled Hz). lia.
Qed.

Lemma isComplete_on_shipped_templates_witness :
  (produced_by_store Scenario.thirty_two_done
   /\ totalTasks Scenario.thirty_two_done
      = tpl_totalTasks (getTemplate pass_opening)
   /\ size (tasks Scenario.thirty_two_done)
      = length (getAllTaskIds (getTemplate pass_opening))
   /\ naCount Scenario.thirty_two_done < totalTasks Scenario.thirty_two_done
   /\ isComplete Scenario.thirty_two_done = true)
  /\ 0 < notDoneCount Scenario.thirty_two_done.
Proof.
  assert (Hsize : size (tasks Scenario.thirty_two_done)
                  = length (getAllTaskIds (getTemplate pass_opening)))
    by (vm_compute; reflexivity).
  assert (Hna : naCount Scenario.thirty_two_done
                < totalTasks Scenario.thirty_two_done)
    by (vm_compute; reflexivity).
  assert (Hgate : isComplete Scenario.thirty_two_done = true)
    by (vm_compute; reflexivity).
  split; [repeat split; try assumption; constructor|].
  exact (proj1 (isComplete_on_shipped_templates pass_opening
                  Scenario.thirty_two_done (produced_by_update _ _ _ _ _ _)
                  eq_refl Hsize Hna) Hgate).
Defined.


(** ** Section progress of the checklist page *)

Lemma status_count_app (s : TaskCompletionStatus) (l l' : list TaskCompletion) :
  status_count s (l ++ l') = status_count s l + status_count s l'.
Proof. unfold status_count. rewrite filter_app, length_app. lia. Qed.

Lemma omap_lookup_delete (ids : list string) (id : string)
    (m : gmap string TaskCompletion) :
  id ∉ ids ->
  omap (fun k => delete id m !! k) ids = omap (fun k => m !! k) ids.
Proof.
  induction ids as [|k ids IH]; intros Hfresh; [done|].
  apply not_elem_of_cons in Hfresh as [Hne Hfresh].
  cbn [omap list_omap]. rewrite lookup_delete_ne by done.
  by rewrite <- IH.
Qed.

(** The values of a map whose keys are the given distinct names. *)
Lemma Object_values_by_keys (ids : list string) :
  forall m : gmap string TaskCompletion,
    NoDup ids -> size m = length ids ->
    (forall id, id ∈ ids -> is_Some (m !! id)) ->
    Object_values m ≡ₚ omap (fun id => m !! id) ids.
Proof.
  induction ids as [|id ids IH]; intros m Hnodup Hsize Hall.
  - apply map_size_empty_inv in Hsize. subst m.
    unfold Object_values. by rewrite map_to_list_empty.
  - apply NoDup_cons in Hnodup as [Hfresh Hnodup].
    destruct (Hall id) as [e He]; [left|].
    rewrite (Object_values_lookup m id), He. cbn [omap list_omap]. rewrite He.
    apply Permutation_skip.
    rewrite <- (omap_lookup_delete ids id m Hfresh).
    apply (IH (delete id m) Hnodup).
    + pose proof (map_size_delete id m) as Hdel. rewrite He in Hdel.
      cbn [length] in Hsize. simpl in Hdel. lia.
    + intros id' Hin. rewrite lookup_delete_ne; [|by intros ->].
      apply Hall. by right.
Qed.

Lemma count_settled_fold (c : ChecklistInstance) (l : list DutyTask) :
  forall n,
    foldl (count_settled c) n l
    = n + status_count done (omap (fun id => tasks c !! id) (map task_id l))
        + status_count na (omap (fun id => tasks c !! id) (map task_id l)).
Proof.
  induction l as [|t l IH]; intros n.
  - unfold status_count. simpl. lia.
  - cbn [foldl map omap list_omap]. rewrite IH. unfold count_settled.
    destruct (tasks c !! task_id t) as [e|]; [|lia].
    rewrite !status_count_cons. unfold unit_if.
    destruct (tc_status e); repeat case_bool_decide; try congruence;
      cbn [orb]; lia.
Qed.

Lemma find_section (secs : list TemplateSection) (s : TemplateSection) :
  NoDup (map sec_id secs) -> s ∈ secs ->
  List.find (fun x => String.eqb (sec_id x) (sec_id s)) secs = Some s.
Proof.
  induction secs as [|x secs IH]; intros Hnodup Hin; [inversion Hin|].
  cbn [map] in Hnodup. apply NoDup_cons in Hnodup as [Hfresh Hnodup].
  cbn [List.find]. apply elem_of_cons in Hin as [->|Hin].
  - by rewrite String.eqb_refl.
  - destruct (String.eqb_spec (sec_id x) (sec_id s)) as [Heq|_]; [|by apply IH].
    exfalso. apply Hfresh. rewrite Heq. apply list_elem_of_fmap. by exists s.
Qed.

Lemma section_sums (c : ChecklistInstance) (secs : list TemplateSection) :
  let per_section s :=
    (foldl (count_settled c) 0 (sec_tasks s),
     Z.of_nat (length (sec_tasks s))) in
  let ids := flat_map (fun s => map task_id (sec_tasks s)) secs in
  foldr Z.add 0 (map fst (map per_section secs))
  = status_count done (omap (fun id => tasks c !! id) ids)
    + status_count na (omap (fun id => tasks c !! id) ids)
  /\ foldr Z.add 0 (map snd (map per_section secs)) = Z.of_nat (length ids).
Proof.
  cbv zeta. induction secs as [|s secs [IH1 IH2]].
  - unfold status_count. simpl. split; reflexivity.
  - cbn [map foldr flat_map fst snd]. rewrite IH1, IH2.
    rewrite omap_app, !status_count_app, length_app, length_map.
    rewrite count_settled_fold. split; lia.
Qed.

Lemma shipped_templates_distinct (tid : TemplateId) :
  NoDup (map sec_id (tpl_sections (getTemplate tid)))
  /\ NoDup (getAllTaskIds (getTemplate tid)).
Proof.
  destruct tid; split; refine (bool_decide_unpack _ _); vm_compute; exact I.
Qed.

(** For a checklist over the tasks of a shipped template, the progress
    bars of the sections add up: their [done] figures sum to the done and
    not-applicable tasks of the checklist's statistics, and their [total]
    figures to the number of tasks in the checklist (which is not the
    template's [totalTasks]). *)
Theorem getSectionProgress_adds_up (tid : TemplateId) (c : ChecklistInstance) :
  size (tasks c) = length (getAllTaskIds (getTemplate tid)) ->
  (forall id, id ∈ getAllTaskIds (getTemplate tid) -> is_Some (tasks c !! id)) ->
  let progress :=
    map (fun s => getSectionProgress (Some (getTemplate tid)) (Some c) (sec_id s))
        (tpl_sections (getTemplate tid)) in
  let stats := calculateCompletionStats (tasks c) (totalTasks c) in
  foldr Z.add 0 (map fst progress)
  = stats_doneCount stats + stats_naCount stats
  /\ foldr Z.add 0 (map snd progress) = Z.of_nat (size (tasks c))
  /\ Z.of_nat (size (tasks c)) <> tpl_totalTasks (getTemplate tid).
Proof.
  intros Hsize Hall progress stats.
  destruct (shipped_templates_distinct tid) as [Hsecs Hids].
  assert (Hprogress : progress
    = map (fun s => (foldl (count_settled c) 0 (sec_tasks s),
                     Z.of_nat (length (sec_tasks s))))
          (tpl_sections (getTemplate tid))).
  { subst progress. apply map_ext_in. intros s Hin.
    unfold getSectionProgress.
    by rewrite (find_section _ _ Hsecs (proj2 (list_elem_of_In _ _) Hin)). }
  rewrite Hprogress.
  destruct (section_sums c (tpl_sections (getTemplate tid))) as [H1 H2].
  rewrite H1, H2. fold (getAllTaskIds (getTemplate tid)).
  pose proof (Object_values_by_keys _ _ Hids Hsize Hall) as Hperm.
  subst stats.
  pose proof (stats_count_of done (tasks c) (totalTasks c)) as Hd.
  pose proof (stats_count_of na (tasks c) (totalTasks c)) as Ha.
  cbn [count_of] in Hd, Ha. rewrite Hd, Ha.
  rewrite !(status_count_perm _ _ _ Hperm). rewrite Hsize.
  repeat split. destruct tid; vm_compute; discriminate.
Qed.

Lemma getSectionProgress_adds_up_witness :
  (size (tasks Scenario.thirty_two_done)
   = length (getAllTaskIds (getTemplate pass_opening))
   /\ Forall (fun id => is_Some (tasks Scenario.thirty_two_done !! id))
        (getAllTaskIds (getTemplate pass_opening)))
  /\ (let progress :=
        map (fun s => getSectionProgress (Some (getTemplate pass_opening))
                        (Some Scenario.thirty_two_done) (sec_id s))
            (tpl_sections (getTemplate pass_opening)) in
      let stats :=
        calculateCompletionStats (tasks Scenario.thirty_two_done)
                                 (totalTasks Scenario.thirty_two_done) in
      foldr Z.add 0 (map fst progress)
      = stats_doneCount stats + stats_naCount stats
      /\ foldr Z.add 0 (map snd progress)
         = Z.of_nat (size (tasks Scenario.thirty_two_done))
      /\ Z.of_nat (size (tasks Scenario.thirty_two_done))
         <> tpl_totalTasks (getTemplate pass_opening)).
Proof.
  assert (Hsize : size (tasks Scenario.thirty_two_done)
                  = length (getAllTaskIds (getTemplate pass_opening)))
    by (vm_compute; reflexivity).
  assert (Hall : Forall (fun id => is_Some (tasks Scenario.thirty_two_done !! id))
                   (getAllTaskIds (getTemplate pass_opening))).
  { refine (bool_decide_unpack _ _). vm_compute. exact I. }
  split; [split; assumption|].
  exact (getSectionProgress_adds_up pass_opening Scenario.thirty_two_done Hsize
           (proj1 (Forall_forall _ _) Hall)).
Defined.

